(** * odoo_fabric: the deployment workflows of fabfile.py, checked against
    their specification.

    The program is a Fabric script: every function of fabfile.py builds a
    shell command and hands it to Fabric's [run], [sudo], [local] or [put].
    The embedding keeps that shape.  The functions of fabfile.py and the
    decorators of fabdecorator.py are computations in a state-and-abort
    monad over a [world] (Fabric's [env], the remote and the local file
    system, the databases, the running services and a journal of the
    commands issued); the commands are terms of a small command language
    whose meaning on the world is given by [exec]. *)

From Stdlib Require Import ZArith String Ascii List Lia Bool.
From Stdlib Require Import DecimalString DecimalNat DecimalFacts.
From stdpp Require Import base gmap strings list.

Open Scope string_scope.
Open Scope Z_scope.
Open Scope list_scope.

(** ** Path names *)

Module Path.

(** The pieces of [s] between slashes; [acc] is the piece being read. *)
Fixpoint pieces (s acc : string) : list string :=
  match s with
  | EmptyString => [acc]
  | String c s' =>
      if Ascii.eqb c "/" then acc :: pieces s' ""
      else pieces s' (acc +:+ String c "")
  end.

Definition proper (n : string) : bool :=
  negb (String.eqb n "" || String.eqb n ".").

(** Components of a path name: empty pieces and [.] are dropped. *)
Definition components (s : string) : list string :=
  List.filter proper (pieces s "").

Definition is_absolute (s : string) : bool :=
  match s with String "/" _ => true | _ => false end.

Definition is_tilde (s : string) : bool :=
  match s with String "~" _ => true | _ => false end.

(** [resolve home base s]: the place [s] names for a process whose
    directory is [base]; a leading [~] names [home]. *)
Definition resolve (home base : list string) (s : string) : list string :=
  if is_absolute s then components s
  else match components s with
       | "~" :: rest => home ++ rest
       | cs => base ++ cs
       end.

(** [os.path.join a b] of Python's posixpath, for two arguments. *)
Definition ends_with_slash (s : string) : bool :=
  match String.get (String.length s - 1) s with
  | Some c => Ascii.eqb c "/"
  | None => false
  end.

Definition join (a b : string) : string :=
  if is_absolute b then b
  else if String.eqb a "" || ends_with_slash a then a +:+ b
  else a +:+ "/" +:+ b.

Fixpoint strip_prefix (p q : list string) : option (list string) :=
  match p, q with
  | [], _ => Some q
  | a :: p', b :: q' => if String.eqb a b then strip_prefix p' q' else None
  | _ :: _, [] => None
  end.

(** The non-empty proper prefixes of a component list. *)
Fixpoint parents (l : list string) : list (list string) :=
  match l with
  | [] | [_] => []
  | a :: l' => [a] :: List.map (cons a) (parents l')
  end.

Definition hidden (n : string) : bool :=
  match n with String "." _ => true | _ => false end.

End Path.

(** ** Files *)

(** A file holds opaque data, a tar archive (its member list) or a database
    dump (the state it captured). *)
Inductive node :=
| Dir
| File (c : content)
with content :=
| Blob (s : string)
| Tar (members : list (list string * node))
| Dump (st : string).

Abbreviation fsys := (gmap (list string) node).

Module Fs.

Definition is_file (fs : fsys) (p : list string) : bool :=
  match fs !! p with Some (File _) => true | _ => false end.

Definition is_dir (fs : fsys) (p : list string) : bool :=
  match p, fs !! p with
  | [], _ => true
  | _, Some Dir => true
  | _, _ => false
  end.

(** The entries directly inside [dir]. *)
Definition entries (fs : fsys) (dir : list string) : list (string * node) :=
  omap (fun kv : list string * node =>
          match Path.strip_prefix dir kv.1 with
          | Some [n] => Some (n, kv.2)
          | _ => None
          end) (map_to_list fs).

(** What the shell pattern [*] yields in [dir]: the names that do not start
    with a dot. *)
Definition visible (fs : fsys) (dir : list string) : list (string * node) :=
  List.filter (fun e => negb (Path.hidden e.1)) (entries fs dir).

Definition is_dir_node (n : node) : bool :=
  match n with Dir => true | File _ => false end.

Definition remove_tree (p : list string) (fs : fsys) : fsys :=
  filter (fun kv : list string * node => ¬ p `prefix_of` kv.1) fs.

(** Everything at or below [p], named relative to [p]. *)
Definition subtree (fs : fsys) (p : list string) : list (list string * node) :=
  omap (fun kv : list string * node =>
          match Path.strip_prefix p kv.1 with
          | Some rest => Some (rest, kv.2)
          | None => None
          end) (map_to_list fs).

Definition put_parents (base name : list string) (fs : fsys) : fsys :=
  fold_left (fun acc q =>
               match acc !! (base ++ q) with
               | Some _ => acc
               | None => <[base ++ q := Dir]> acc
               end) (Path.parents name) fs.

(** Place a tree below [base], creating the directories on the way. *)
Definition graft (base : list string) (tree : list (list string * node))
    (fs : fsys) : fsys :=
  fold_left (fun acc m =>
               match m.1 with
               | [] => acc
               | _ => <[base ++ m.1 := m.2]> (put_parents base m.1 acc)
               end) tree fs.

End Fs.

(** ** Fabric's [env]

    The settings fabfile.py reads, and the four that Fabric's context
    managers ([cd], [lcd], [settings]) change while a function runs. *)
Record fab_env := {
  svn_repository : string;
  backup_dir : string;
  sources_dir : string;
  tag_dir : string;
  odoo_user : string;
  odoo_launcher : string;
  odoo_conf : string;
  odoo_service : string;
  use_sudo : bool;
  db_host : string;
  db_port : Z;
  db_user : string;
  db_password : string;
  cwd : string;
  lcwd : string;
  warn_only : bool;
  ok_ret_codes : list Z
}.

(** [DEFAULTS] of fabdecorator.py, with Fabric's own defaults for the
    working directories, [warn_only] and [ok_ret_codes]. *)
Definition DEFAULTS (repository : string) : fab_env :=
  {| svn_repository := repository;
     backup_dir := "/home/postgres";
     sources_dir := "/opt/openerp";
     tag_dir := "/tmp";
     odoo_user := "openerp";
     odoo_launcher := "openerp-server";
     odoo_conf := "/etc/openerp-server.conf";
     odoo_service := "openerp-server";
     use_sudo := false;
     db_host := "localhost";
     db_port := 5432;
     db_user := "openerp";
     db_password := "";
     cwd := "";
     lcwd := "";
     warn_only := false;
     ok_ret_codes := [0] |}.

Definition with_cwd (d : string) (e : fab_env) : fab_env :=
  {| svn_repository := svn_repository e; backup_dir := backup_dir e;
     sources_dir := sources_dir e; tag_dir := tag_dir e;
     odoo_user := odoo_user e; odoo_launcher := odoo_launcher e;
     odoo_conf := odoo_conf e; odoo_service := odoo_service e;
     use_sudo := use_sudo e; db_host := db_host e; db_port := db_port e;
     db_user := db_user e; db_password := db_password e;
     cwd := d; lcwd := lcwd e;
     warn_only := warn_only e; ok_ret_codes := ok_ret_codes e |}.

Definition with_lcwd (d : string) (e : fab_env) : fab_env :=
  {| svn_repository := svn_repository e; backup_dir := backup_dir e;
     sources_dir := sources_dir e; tag_dir := tag_dir e;
     odoo_user := odoo_user e; odoo_launcher := odoo_launcher e;
     odoo_conf := odoo_conf e; odoo_service := odoo_service e;
     use_sudo := use_sudo e; db_host := db_host e; db_port := db_port e;
     db_user := db_user e; db_password := db_password e;
     cwd := cwd e; lcwd := d;
     warn_only := warn_only e; ok_ret_codes := ok_ret_codes e |}.

Definition with_policy (warn : bool) (codes : list Z) (e : fab_env) : fab_env :=
  {| svn_repository := svn_repository e; backup_dir := backup_dir e;
     sources_dir := sources_dir e; tag_dir := tag_dir e;
     odoo_user := odoo_user e; odoo_launcher := odoo_launcher e;
     odoo_conf := odoo_conf e; odoo_service := odoo_service e;
     use_sudo := use_sudo e; db_host := db_host e; db_port := db_port e;
     db_user := db_user e; db_password := db_password e;
     cwd := cwd e; lcwd := lcwd e;
     warn_only := warn; ok_ret_codes := codes |}.

(** ** Commands *)

(** A word of an [rm] command line: a name, [*] or [*/]. *)
Inductive word :=
| Lit (s : string)
| Star
| StarSlash.

(** The command lines fabfile.py builds, one constructor per shape; [show]
    below gives the text.  [Put] is Fabric's file transfer. *)
Inductive command :=
| Rm (recursive : bool) (targets : list word)
| LsGrepXargsRm (pattern : string)
| UnlessFile (p : string) (c : command)
| TarCreate (archive : string) (chdir : option string) (member : string)
| TarExtract (archive : string)
| SvnCp (repo version : string)
| SvnCo (repo version : string)
| SvnUp
| SvnExport (repo tag target : string)
| PgDump (pgpassword filename db host : string) (port : Z) (user : string)
    (no_prompt : bool)
| PgRestore (pgpassword db backup host : string) (port : Z) (user : string)
    (no_prompt : bool)
| Upgrade (user launcher conf db : string)
| Service (name : string) (start : bool)
| Put (archive remote_dir : string).

Module Render.

Definition dq : string := String (ascii_of_nat 34) "".

Definition word (w : word) : string :=
  match w with Lit s => s | Star => "*" | StarSlash => "*/" end.

Definition num (z : Z) : string := NilZero.string_of_int (Z.to_int z).

Fixpoint command (c : command) : string :=
  match c with
  | Rm r ws =>
      (if r then "rm -Rf " else "rm -f ") +:+ String.concat " " (List.map word ws)
  | LsGrepXargsRm pat => "ls | grep " +:+ pat +:+ " | xargs rm -f"
  | UnlessFile p c' => "[ -f " +:+ p +:+ " ] || " +:+ command c'
  | TarCreate a None m => "tar -zcvf " +:+ a +:+ " " +:+ m +:+ " --exclude-vcs"
  | TarCreate a (Some d) m =>
      "tar -zcvf " +:+ a +:+ " -C " +:+ d +:+ " " +:+ m +:+ " --exclude-vcs"
  | TarExtract a => "tar -zxvf " +:+ a
  | SvnCp repo v =>
      "svn cp " +:+ repo +:+ "/trunk " +:+ repo +:+ "/branches/" +:+ v
      +:+ " -m " +:+ dq +:+ "[ADD] Create new branch " +:+ v +:+ dq
  | SvnCo repo v => "svn co " +:+ repo +:+ "/branches/" +:+ v +:+ " ."
  | SvnUp => "svn up"
  | SvnExport repo t target =>
      "svn export " +:+ repo +:+ "/tags/" +:+ t +:+ " " +:+ target
  | PgDump _ f db host port user w =>
      "pg_dump -f " +:+ f +:+ " -F c -O " +:+ db +:+ " --host=" +:+ host
      +:+ " --port=" +:+ num port +:+ " --username=" +:+ user
      +:+ (if w then " -w" else "")
  | PgRestore _ db b host port user w =>
      "pg_restore -v -c -d " +:+ db +:+ " " +:+ b +:+ " --host=" +:+ host
      +:+ " --port=" +:+ num port +:+ " --username=" +:+ user
      +:+ (if w then " -w" else "")
  | Upgrade user launcher conf db =>
      "su " +:+ user +:+ " -c " +:+ dq +:+ launcher +:+ " -c " +:+ conf
      +:+ " -d " +:+ db +:+ " --load=web,smile_upgrade" +:+ dq
  | Service name start =>
      "service " +:+ name +:+ (if start then " start" else " stop")
  | Put a d => "put " +:+ a +:+ " " +:+ d
  end.

End Render.

(** ** The hosts *)

(** What the program cannot know: which commands the hosts refuse, what the
    clock says, what the repository holds and what the upgrade does.
    [fault n = Some c]: the [n]-th command issued exits with code [c] and
    changes nothing (no space left, no permission, connection lost). *)
Record host := {
  fault : nat -> option positive;
  strftime : nat -> string;
  svn_branch : string -> list (list string * node);
  svn_tag : string -> list (list string * node);
  odoo : fsys -> string -> Z * string;
  home : list string;
  lhome : list string
}.

(** One journal line per command issued. *)
Record entry := {
  e_local : bool;
  e_sudo : bool;
  e_dir : string;
  e_cmd : command;
  e_code : Z;
  e_fatal : bool
}.

Record world := {
  env : fab_env;
  remote : fsys;
  localfs : fsys;
  dbs : gmap string string;
  running : gset string;
  journal : list entry
}.

Definition set_env (e : fab_env) (w : world) : world :=
  {| env := e; remote := remote w; localfs := localfs w; dbs := dbs w;
     running := running w; journal := journal w |}.

Definition set_fs (loc : bool) (fs : fsys) (w : world) : world :=
  {| env := env w;
     remote := if loc then remote w else fs;
     localfs := if loc then fs else localfs w;
     dbs := dbs w; running := running w; journal := journal w |}.

Definition set_dbs (d : gmap string string) (w : world) : world :=
  {| env := env w; remote := remote w; localfs := localfs w; dbs := d;
     running := running w; journal := journal w |}.

Definition set_running (r : gset string) (w : world) : world :=
  {| env := env w; remote := remote w; localfs := localfs w; dbs := dbs w;
     running := r; journal := journal w |}.

Definition record (e : entry) (w : world) : world :=
  {| env := env w; remote := remote w; localfs := localfs w; dbs := dbs w;
     running := running w; journal := e :: journal w |}.

Definition get_fs (loc : bool) (w : world) : fsys :=
  if loc then localfs w else remote w.

(** ** What the commands do *)

Module Sh.

(** [grep PATTERN] on one line, for patterns of plain characters and [.],
    which stands for any character. *)
Fixpoint match_here (pat s : string) : bool :=
  match pat, s with
  | EmptyString, _ => true
  | String p pat', String c s' =>
      (Ascii.eqb p "." || Ascii.eqb p c) && match_here pat' s'
  | String _ _, EmptyString => false
  end.

Fixpoint grep (pat s : string) : bool :=
  match_here pat s
  || match s with
     | EmptyString => false
     | String _ s' => grep pat s'
     end.

(** The names [tar --exclude-vcs] leaves out. *)
Definition vcs_names : list string :=
  ["CVS"; "RCS"; "SCCS"; ".git"; ".gitignore"; ".gitmodules";
   ".gitattributes"; ".cvsignore"; ".svn"; ".arch-ids"; "{arch}";
   "=RELEASE-ID"; "=meta-update"; "=update"; ".bzr"; ".bzrignore";
   ".bzrtags"; ".hg"; ".hgignore"; ".hgtags"; "_darcs"].

Definition is_vcs (rel : list string) : bool :=
  existsb (fun n => existsb (String.eqb n) vcs_names) rel.

(** The places a word of an [rm] command line names in [dir].  A pattern
    that matches nothing is left as it is, a name that does not exist. *)
Definition expand (fs : fsys) (home dir : list string) (w : word)
    : list (list string) :=
  match w with
  | Lit s => [Path.resolve home dir s]
  | Star =>
      match Fs.visible fs dir with
      | [] => [dir ++ ["*"]]
      | es => List.map (fun e => dir ++ [e.1]) es
      end
  | StarSlash =>
      match List.filter (fun e => Fs.is_dir_node e.2) (Fs.visible fs dir) with
      | [] => [dir ++ ["*"]]
      | es => List.map (fun e => dir ++ [e.1]) es
      end
  end.

(** [rm -f] and [rm -Rf] on one place: a missing one is passed over, a
    directory needs [-R]. *)
Definition rm_one (recursive : bool) (st : fsys * bool) (p : list string)
    : fsys * bool :=
  match st.1 !! p with
  | None => st
  | Some (File _) => (delete p st.1, st.2)
  | Some Dir => if recursive then (Fs.remove_tree p st.1, st.2) else (st.1, true)
  end.

Definition rm (recursive : bool) (targets : list (list string)) (fs : fsys)
    : Z * fsys :=
  let st := fold_left (rm_one recursive) targets (fs, false) in
  (if st.2 then 1 else 0, st.1).

(** [tar -zcvf archive [-C chdir] member --exclude-vcs], run in [dir].  The
    members are named as on the command line, without a leading slash. *)
Definition tar_create (home dir : list string) (archive : string)
    (chdir : option string) (member : string) (fs : fsys) : Z * fsys :=
  let base := match chdir with
              | Some d => Path.resolve home dir d
              | None => dir
              end in
  let src := Path.resolve home base member in
  let out := Path.resolve home dir archive in
  let named := Path.components member in
  let members :=
    omap (fun m : list string * node =>
            if is_vcs m.1 || bool_decide (src ++ m.1 = out) then None
            else Some (named ++ m.1, m.2)) (Fs.subtree fs src) in
  if Fs.is_dir fs src || Fs.is_file fs src
  then (0, <[out := File (Tar members)]> fs)
  else (2, <[out := File (Tar [])]> fs).

(** [tar -zxvf archive], run in [dir]. *)
Definition tar_extract (home dir : list string) (archive : string) (fs : fsys)
    : Z * fsys :=
  match fs !! Path.resolve home dir archive with
  | Some (File (Tar members)) => (0, Fs.graft dir members fs)
  | _ => (2, fs)
  end.

Section Exec.

Variable h : host.

(** [exec loc dir c w]: the exit code of [c] run in [dir], on the local
    machine when [loc] and on the remote host otherwise, and the world it
    leaves. *)
Fixpoint exec (loc : bool) (dir : list string) (c : command) (w : world)
    : Z * world :=
  let hm := if loc then lhome h else home h in
  let fs := get_fs loc w in
  match c with
  | Rm recursive ws =>
      let r := rm recursive (List.concat (List.map (expand fs hm dir) ws)) fs in
      (r.1, set_fs loc r.2 w)
  | LsGrepXargsRm pat =>
      let names := List.filter (grep pat) (List.map fst (Fs.visible fs dir)) in
      let r := rm false (List.map (fun n => dir ++ [n]) names) fs in
      (if r.1 =? 0 then 0 else 123, set_fs loc r.2 w)
  | UnlessFile p c' =>
      if Fs.is_file fs (Path.resolve hm dir p) then (0, w)
      else exec loc dir c' w
  | TarCreate archive chdir member =>
      let r := tar_create hm dir archive chdir member fs in
      (r.1, set_fs loc r.2 w)
  | TarExtract archive =>
      let r := tar_extract hm dir archive fs in
      (r.1, set_fs loc r.2 w)
  | SvnCp _ _ => (0, w)
  | SvnCo _ version =>
      (0, set_fs loc (Fs.graft dir (([".svn"], Dir) :: svn_branch h version) fs) w)
  | SvnUp => (0, w)
  | SvnExport _ tag target =>
      let t := Path.resolve hm dir target in
      match fs !! t with
      | Some _ => (1, w)
      | None => (0, set_fs loc (Fs.graft t (svn_tag h tag) (<[t := Dir]> fs)) w)
      end
  | PgDump _ filename db _ _ _ _ =>
      match dbs w !! db with
      | Some st =>
          (0, set_fs loc (<[Path.resolve hm dir filename := File (Dump st)]> fs) w)
      | None => (1, w)
      end
  | PgRestore _ db backup _ _ _ _ =>
      match fs !! Path.resolve hm dir backup with
      | Some (File (Dump st)) => (0, set_dbs (<[db := st]> (dbs w)) w)
      | _ => (1, w)
      end
  | Upgrade _ _ _ db =>
      match dbs w !! db with
      | Some st =>
          let r := odoo h fs st in
          (r.1, set_dbs (<[db := r.2]> (dbs w)) w)
      | None => (1, w)
      end
  | Service name true => (0, set_running ({[name]} ∪ running w) w)
  | Service name false =>
      if bool_decide (name ∈ running w)
      then (0, set_running (running w ∖ {[name]}) w)
      else (1, w)
  | Put archive remote_dir =>
      let src := Path.resolve (lhome h) dir archive in
      let dst := Path.resolve (home h) (home h) remote_dir in
      match localfs w !! src, last src with
      | Some (File c), Some name =>
          if Fs.is_dir (remote w) dst
          then (0, set_fs false (<[dst ++ [name] := File c]> (remote w)) w)
          else (1, w)
      | _, _ => (1, w)
      end
  end.

End Exec.

End Sh.

(** ** Running commands: state, abort, and Fabric's operations *)

(** A computation ends with a value, or is aborted by Fabric ([abort]
    raises [SystemExit], which nothing in the program catches).  Both carry
    the world as it is then. *)
Inductive outcome (A : Type) :=
| Done (a : A) (w : world)
| Fatal (w : world).

Arguments Done {A} a w.
Arguments Fatal {A} w.

Definition M (A : Type) : Type := world -> outcome A.

Definition ret {A} (a : A) : M A := fun w => Done a w.

Definition bind {A B} (m : M A) (k : A -> M B) : M B :=
  fun w => match m w with
           | Done a w' => k a w'
           | Fatal w' => Fatal w'
           end.

Notation "'let!' x ':=' m 'in' k" := (bind m (fun x => k))
  (at level 10, x name, m at level 100, k at level 200).
Notation "m ';;' k" := (bind m (fun _ => k))
  (at level 100, k at level 200, right associativity).

Definition final {A} (o : outcome A) : world :=
  match o with Done _ w => w | Fatal w => w end.

Definition completed {A} (o : outcome A) : bool :=
  match o with Done _ _ => true | Fatal _ => false end.

(** Fabric's [env], read where the source reads it. *)
Definition ask : M fab_env := fun w => Done (env w) w.

(** What [run], [sudo] and [local] return. *)
Record result := {
  return_code : Z;
  failed : bool
}.

(** Python's truth value of an integer and of a string. *)
Definition truthy (z : Z) : bool := negb (z =? 0).
Definition nonempty (s : string) : bool := negb (String.eqb s "").

(** The commands of the shape [[ -f p ] || c]. *)
Definition guarded (c : command) : bool :=
  match c with UnlessFile _ _ => true | _ => false end.

Section Fabric.

Variable h : host.

(** One command through Fabric.  Fabric sends the shell the line
    [cd <dir> && <command>], with the working directory [cd] or [lcd] has
    set.  When that directory is missing the command is not run and the
    line exits with 1; but a command [[ -f p ] || c] makes the line
    [(cd <dir> && [ -f p ]) || c], and the shell then runs [c] where it
    stands, in the directory the session began in.  An exit code outside
    [env.ok_ret_codes] is an error, which aborts unless [env.warn_only]. *)
Definition issue (loc sudo : bool) (c : command) : M result := fun w =>
  let e := env w in
  let hm := if loc then lhome h else home h in
  let dirname := if loc then lcwd e else cwd e in
  let dir := Path.resolve hm hm dirname in
  let r := match fault h (length (journal w)) with
           | Some code => (Z.pos code, w)
           | None =>
               if Fs.is_dir (get_fs loc w) dir then Sh.exec h loc dir c w
               else match c with
                    | UnlessFile _ c' => Sh.exec h loc hm c' w
                    | _ => (1, w)
                    end
           end in
  let ok := bool_decide (r.1 ∈ ok_ret_codes e) in
  let fatal := negb ok && negb (warn_only e) in
  let w' := record {| e_local := loc; e_sudo := sudo; e_dir := dirname;
                      e_cmd := c; e_code := r.1; e_fatal := fatal |} r.2 in
  if fatal then Fatal w'
  else Done {| return_code := r.1; failed := negb ok |} w'.

Definition run (c : command) : M result := issue false false c.
Definition sudo (c : command) : M result := issue false true c.
Definition local (c : command) : M result := issue true false c.
Definition put (archive remote_dir : string) (use_sudo : bool) : M result :=
  issue true use_sudo (Put archive remote_dir).

(** [time.strftime('%Y%m%d_%H%M%S')]. *)
Definition time_strftime : M string :=
  fun w => Done (strftime h (length (journal w))) w.

(** *** fabdecorator.py *)

(** Fabric's [cd] and [lcd]: a relative directory is taken inside the
    current one. *)
Definition change_cwd (current path : string) : string :=
  if nonempty current && negb (Path.is_absolute path) && negb (Path.is_tilde path)
  then current +:+ "/" +:+ path
  else path.

Definition smile_path {A} (dir : fab_env -> string) (loc : bool) (func : M A)
    : M A := fun w =>
  let saved := if loc then lcwd (env w) else cwd (env w) in
  let entered := change_cwd saved (dir (env w)) in
  let put_dir := if loc then with_lcwd else with_cwd in
  match func (set_env (put_dir entered (env w)) w) with
  | Done a w' => Done a (set_env (put_dir saved (env w')) w')
  | Fatal w' => Fatal (set_env (put_dir saved (env w')) w')
  end.

(** [params = {'warn_only': not ok_ret_codes, 'ok_ret_codes': ok_ret_codes}] *)
Definition smile_secure {A} (codes : list Z) (func : M A) : M A := fun w =>
  let saved_warn := warn_only (env w) in
  let saved_codes := ok_ret_codes (env w) in
  let warn := match codes with [] => true | _ => false end in
  match func (set_env (with_policy warn codes (env w)) w) with
  | Done a w' => Done a (set_env (with_policy saved_warn saved_codes (env w')) w')
  | Fatal w' => Fatal (set_env (with_policy saved_warn saved_codes (env w')) w')
  end.

(** *** fabfile.py

    [smile_settings] merges the settings of the host type into [env] before
    a task runs; the worlds here hold the merged [env]. *)

Definition sudo_or_run (c : command) : M result :=
  let! e := ask in
  if use_sudo e then sudo c else run c.

Definition create_branch (version : string) : M unit :=
  let! e := ask in
  sudo_or_run (SvnCp (svn_repository e) version);;
  ret tt.

Definition _clean_sources_dir : M unit :=
  smile_path sources_dir false
    (sudo_or_run (Rm true [StarSlash]);;
     sudo_or_run (Rm true [Lit ".svn"]);;
     sudo_or_run (Rm false [Star]);;
     sudo_or_run (LsGrepXargsRm "tar.gz");;
     ret tt).

Definition checkout_branch (version : string) : M unit :=
  smile_path sources_dir false
    (_clean_sources_dir;;
     let! e := ask in
     sudo_or_run (SvnCo (svn_repository e) version);;
     ret tt).

Definition update_branch (version : string) : M unit :=
  smile_path sources_dir false (sudo_or_run SvnUp;; ret tt).

Definition _clean_tag_dir (tag : string) : M unit :=
  smile_secure [0; 1]
    (smile_path tag_dir true (local (Rm true [Lit tag]);; ret tt)).

Definition export_tag (tag : string) (force_export_tag : bool) : M unit :=
  smile_path tag_dir true
    ((if force_export_tag
      then local (UnlessFile tag (Rm true [Lit tag]));; ret tt
      else ret tt);;
     let! e := ask in
     local (UnlessFile tag (SvnExport (svn_repository e) tag tag));;
     ret tt).

Definition compress_archive (tag : string) (force_export_tag : bool)
    : M string :=
  smile_path tag_dir true
    (let archive := "odoo-" +:+ tag +:+ ".tag.gz" in
     (if force_export_tag
      then local (UnlessFile archive (Rm false [Lit archive]));; ret tt
      else ret tt);;
     local (UnlessFile archive (TarCreate archive (Some tag) "."));;
     ret archive).

Definition put_archive (archive : string) : M unit :=
  smile_path tag_dir true
    (let! e := ask in
     put archive (backup_dir e) (use_sudo e);;
     ret tt).

Definition uncompress_archive (archive : string) : M unit :=
  smile_path sources_dir false
    (_clean_sources_dir;;
     let! e := ask in
     sudo_or_run (TarExtract (Path.join (backup_dir e) archive));;
     ret tt).

Definition dump_database (db_name : string) : M string :=
  smile_path backup_dir false
    (let! stamp := time_strftime in
     let filename := db_name +:+ "_" +:+ stamp +:+ ".dump" in
     let! e := ask in
     sudo_or_run (PgDump (db_password e) filename db_name (db_host e)
                    (db_port e) (db_user e) (nonempty (db_password e)));;
     ret (Path.join (backup_dir e) filename)).

Definition restore_database (db_name backup : string) : M unit :=
  smile_secure []
    (smile_path backup_dir false
       (let! e := ask in
        sudo_or_run (PgRestore (db_password e) db_name backup (db_host e)
                       (db_port e) (db_user e) (nonempty (db_password e)));;
        ret tt)).

(** [backup] is [None] or a string; [if backup:] holds for a string that is
    not empty. *)
Definition dump_or_restore_database (db_name : string) (backup : option string)
    : M string :=
  match backup with
  | Some b =>
      if nonempty b then restore_database db_name b;; ret b
      else dump_database db_name
  | None => dump_database db_name
  end.

Definition upgrade_database (db_name : string) : M result :=
  smile_secure []
    (smile_path sources_dir false
       (let! e := ask in
        sudo_or_run (Upgrade (odoo_user e) (odoo_launcher e) (odoo_conf e)
                       db_name))).

Definition start_service : M unit :=
  let! e := ask in
  sudo_or_run (Service (odoo_service e) true);;
  ret tt.

Definition stop_service : M unit :=
  smile_secure [0; 1]
    (let! e := ask in
     sudo_or_run (Service (odoo_service e) false);;
     ret tt).

Definition create_savepoint : M string :=
  smile_path backup_dir false
    (let! stamp := time_strftime in
     let savepoint := "savepoint_" +:+ stamp +:+ ".tag.gz" in
     let! e := ask in
     sudo_or_run (TarCreate savepoint None (sources_dir e));;
     ret savepoint).

Definition rollback (savepoint db_name backup : string) : M unit :=
  smile_path backup_dir false
    (dump_or_restore_database db_name (Some backup);;
     _clean_sources_dir;;
     uncompress_archive savepoint).

Definition drop_savepoint (savepoint : string) : M unit :=
  smile_path backup_dir false
    (sudo_or_run (Rm false [Lit savepoint]);;
     ret tt).

Definition deploy_for_internal_testing (version db_name : string)
    (backup : option string) (do_not_create_branch : bool) : M unit :=
  (if negb do_not_create_branch then create_branch version else ret tt);;
  stop_service;;
  let! savepoint := create_savepoint in
  let! backup := dump_or_restore_database db_name backup in
  checkout_branch version;;
  let! result := upgrade_database db_name in
  (if truthy (return_code result) then rollback savepoint db_name backup
   else ret tt);;
  drop_savepoint savepoint;;
  start_service.

Definition deploy_for_customer_testing (tag db_name : string)
    (backup : option string) (force_export_tag : bool) : M unit :=
  export_tag tag force_export_tag;;
  let! archive := compress_archive tag force_export_tag in
  put_archive archive;;
  stop_service;;
  let! savepoint := create_savepoint in
  let! backup := dump_or_restore_database db_name backup in
  uncompress_archive archive;;
  let! result := upgrade_database db_name in
  (if truthy (return_code result) then rollback savepoint db_name backup
   else ret tt);;
  drop_savepoint savepoint;;
  start_service.

End Fabric.

(** ** The version gate at the head of fabfile.py *)

Module LooseVersion.

(** [distutils.version.LooseVersion]: the string is cut by the pattern
    [(\d+ | [a-z]+ | \.)]; runs of digits become integers, runs of
    lower-case letters and the text between matches stay strings, the dots
    are dropped. *)
Inductive component :=
| Int (n : nat)
| Str (s : string).

Inductive class := Digit | Lower | Dot | Other.

Definition classify (c : ascii) : class :=
  let n := nat_of_ascii c in
  if (48 <=? n)%nat && (n <=? 57)%nat then Digit
  else if (97 <=? n)%nat && (n <=? 122)%nat then Lower
  else if (n =? 46)%nat then Dot
  else Other.

Definition same_class (a b : class) : bool :=
  match a, b with
  | Digit, Digit | Lower, Lower | Other, Other => true
  | _, _ => false
  end.

Definition to_component (k : class) (run : string) : component :=
  match k with
  | Digit =>
      match NilEmpty.uint_of_string run with
      | Some d => Int (Nat.of_uint d)
      | None => Str run
      end
  | _ => Str run
  end.

Definition flush (cur : option (class * string)) : list component :=
  match cur with
  | Some (k, run) => [to_component k run]
  | None => []
  end.

(** [cur] is the run being read. *)
Fixpoint scan (s : string) (cur : option (class * string)) : list component :=
  match s with
  | EmptyString => flush cur
  | String c s' =>
      match classify c, cur with
      | Dot, _ => flush cur ++ scan s' None
      | k, Some (k', run) =>
          if same_class k k' then scan s' (Some (k', run +:+ String c ""))
          else to_component k' run :: scan s' (Some (k, String c ""))
      | k, None => scan s' (Some (k, String c ""))
      end
  end.

Definition parse (vstring : string) : list component := scan vstring None.

(** Python 2 orders an integer before any string. *)
Definition cmp_component (a b : component) : comparison :=
  match a, b with
  | Int x, Int y => Nat.compare x y
  | Int _, Str _ => Lt
  | Str _, Int _ => Gt
  | Str x, Str y => String.compare x y
  end.

Fixpoint cmp (l1 l2 : list component) : comparison :=
  match l1, l2 with
  | [], [] => Eq
  | [], _ :: _ => Lt
  | _ :: _, [] => Gt
  | a :: l1', b :: l2' =>
      match cmp_component a b with
      | Eq => cmp l1' l2'
      | c => c
      end
  end.

Definition lt (v1 v2 : string) : bool :=
  match cmp (parse v1) (parse v2) with Lt => true | _ => false end.

(** A number in decimal, and a release number such as [1.6.1], written
    out. *)
Definition digits (n : nat) : string := NilEmpty.string_of_uint (Nat.to_uint n).

Definition dotted (ns : list nat) : string :=
  String.concat "." (List.map digits ns).

(** The order of release numbers: component by component, a proper prefix
    first. *)
Fixpoint below (ns ms : list nat) : bool :=
  match ns, ms with
  | [], [] => false
  | [], _ :: _ => true
  | _ :: _, [] => false
  | n :: ns', m :: ms' => (n <? m)%nat || ((n =? m)%nat && below ns' ms')
  end.

(** A version with a tag after the release number, as [1.6rc1]: where it
    stands against a release number [ms] is decided at the first place
    where the two numbers differ; a number that runs out first is not
    behind. *)
Fixpoint behind (ns ms : list nat) : bool :=
  match ns, ms with
  | n :: ns', m :: ms' => (n <? m)%nat || ((n =? m)%nat && behind ns' ms')
  | _, _ => false
  end.

(** A character that opens a tag after a release number, as in [1.6a1] or
    [1.6-rc1]: neither a digit nor a dot. *)
Definition opens_tag (c : ascii) : bool :=
  match classify c with
  | Lower | Other => true
  | _ => false
  end.

(** What follows the release number: nothing for a final release, a tag for
    a pre-release. *)
Definition is_tag (t : string) : bool :=
  match t with
  | EmptyString => true
  | String c _ => opens_tag c
  end.

End LooseVersion.

Definition min_version : string := "1.6.1".

(** The two tasks a loaded fabfile offers. *)
Record tasks := {
  internal_testing : host -> string -> string -> option string -> bool -> M unit;
  customer_testing : host -> string -> string -> option string -> bool -> M unit
}.

(** Importing fabfile.py under Fabric [version]: the check of lines 16 to 19
    raises [ImportError], or the module body goes on to define the tasks. *)
Definition import_fabfile (version : string) : string + tasks :=
  if LooseVersion.lt version min_version
  then inl ("Fabric version not supported: " +:+ version +:+ " < " +:+ min_version)
  else inr {| internal_testing := deploy_for_internal_testing;
              customer_testing := deploy_for_customer_testing |}.

(** ** Reading a journal *)

(** Whether Fabric lets an exit code pass under a tolerance policy. *)
Definition accepts (warn : bool) (codes : list Z) (code : Z) : bool :=
  bool_decide (code ∈ codes) || warn.

(** Fabric's defaults: only exit code 0 passes. *)
Definition strict (e : fab_env) : Prop :=
  warn_only e = false ∧ ok_ret_codes e = [0].

(** One line of a script: the command expected, the policy it runs under
    and, where the script depends on it, its exit code. *)
Record step := {
  s_cmd : command;
  s_warn : bool;
  s_codes : list Z;
  s_code : option Z
}.

Definition matches (s : step) (e : entry) : Prop :=
  e_cmd e = s_cmd s
  ∧ e_fatal e = negb (accepts (s_warn s) (s_codes s) (e_code e))
  ∧ match s_code s with Some c => e_code e = c | None => True end.

(** [conforms script es done]: the entries [es], oldest first, are the
    script played from its start; the play stops at the first fatal entry,
    and [done] tells whether the script was played to its end. *)
Inductive conforms : list step -> list entry -> bool -> Prop :=
| conforms_end : conforms [] [] true
| conforms_next s ss e es done :
    matches s e -> e_fatal e = false -> conforms ss es done ->
    conforms (s :: ss) (e :: es) done
| conforms_abort s ss e :
    matches s e -> e_fatal e = true -> conforms (s :: ss) [e] false.

(** [plays m w script P]: run from [w], [m] leaves [env] as it was, adds to
    the journal entries that conform to [script], and a value it returns
    satisfies [P]. *)
Definition plays {A} (m : M A) (w : world) (script : list step)
    (P : A -> Prop) : Prop :=
  env (final (m w)) = env w
  ∧ (∃ es, journal (final (m w)) = rev es ++ journal w
           ∧ conforms script es (completed (m w)))
  ∧ (∀ a w', m w = Done a w' -> P a).

(** The entries a run added, oldest first. *)
Definition added (before after : world) : list entry :=
  rev (take (length (journal after) - length (journal before)) (journal after)).

Module Script.

Definition under (e : fab_env) (c : command) : step :=
  {| s_cmd := c; s_warn := warn_only e; s_codes := ok_ret_codes e;
     s_code := None |}.

Definition secure (codes : list Z) (c : command) (code : option Z) : step :=
  {| s_cmd := c;
     s_warn := match codes with [] => true | _ => false end;
     s_codes := codes; s_code := code |}.

Definition clean (e : fab_env) : list step :=
  [under e (Rm true [StarSlash]); under e (Rm true [Lit ".svn"]);
   under e (Rm false [Star]); under e (LsGrepXargsRm "tar.gz")].

Definition pg_dump (e : fab_env) (db file : string) : command :=
  PgDump (db_password e) file db (db_host e) (db_port e) (db_user e)
    (nonempty (db_password e)).

Definition pg_restore (e : fab_env) (db backup : string) : command :=
  PgRestore (db_password e) db backup (db_host e) (db_port e) (db_user e)
    (nonempty (db_password e)).

Definition given (backup : option string) : bool :=
  match backup with Some b => nonempty b | None => false end.

(** Step 4: restore the backup given, or dump into [file]. *)
Definition stage (e : fab_env) (db : string) (backup : option string)
    (file : string) : list step :=
  match backup with
  | Some b =>
      if nonempty b then [secure [] (pg_restore e db b) None]
      else [under e (pg_dump e db file)]
  | None => [under e (pg_dump e db file)]
  end.

Definition staged (e : fab_env) (backup : option string) (file : string)
    : string :=
  match backup with
  | Some b => if nonempty b then b else Path.join (backup_dir e) file
  | None => Path.join (backup_dir e) file
  end.

Definition upgrade (e : fab_env) (db : string) (rc : Z) : step :=
  secure [] (Upgrade (odoo_user e) (odoo_launcher e) (odoo_conf e) db) (Some rc).

Definition extract (e : fab_env) (archive : string) : list step :=
  clean e ++ [under e (TarExtract (Path.join (backup_dir e) archive))].

Definition roll_back (e : fab_env) (sp db bk : string) : list step :=
  [secure [] (pg_restore e db bk) None] ++ clean e ++ extract e sp.

Definition drop (e : fab_env) (sp : string) : step :=
  under e (Rm false [Lit sp]).

Definition start (e : fab_env) : step :=
  under e (Service (odoo_service e) true).

Definition stop (e : fab_env) : step :=
  secure [0; 1] (Service (odoo_service e) false) None.

Definition savepoint (e : fab_env) (sp : string) : step :=
  under e (TarCreate sp None (sources_dir e)).

(** Steps 6 to 9, common to the two workflows. *)
Definition closing (e : fab_env) (db sp bk : string) (rc : Z) : list step :=
  [upgrade e db rc]
  ++ (if truthy rc then roll_back e sp db bk else [])
  ++ [drop e sp; start e].

Definition internal (e : fab_env) (version db : string)
    (backup : option string) (do_not_create_branch : bool)
    (sp file : string) (rc : Z) : list step :=
  (if do_not_create_branch then []
   else [under e (SvnCp (svn_repository e) version)])
  ++ [stop e; savepoint e sp]
  ++ stage e db backup file
  ++ clean e ++ [under e (SvnCo (svn_repository e) version)]
  ++ closing e db sp (staged e backup file) rc.

Definition archive_of (tag : string) : string := "odoo-" +:+ tag +:+ ".tag.gz".

Definition export (e : fab_env) (tag : string) (force : bool) : list step :=
  (if force then [under e (UnlessFile tag (Rm true [Lit tag]))] else [])
  ++ [under e (UnlessFile tag (SvnExport (svn_repository e) tag tag))].

Definition compress (e : fab_env) (tag : string) (force : bool) : list step :=
  (if force
   then [under e (UnlessFile (archive_of tag) (Rm false [Lit (archive_of tag)]))]
   else [])
  ++ [under e (UnlessFile (archive_of tag)
                 (TarCreate (archive_of tag) (Some tag) "."))].

Definition customer (e : fab_env) (tag db : string) (backup : option string)
    (force : bool) (sp file : string) (rc : Z) : list step :=
  export e tag force ++ compress e tag force
  ++ [under e (Put (archive_of tag) (backup_dir e))]
  ++ [stop e; savepoint e sp]
  ++ stage e db backup file
  ++ extract e (archive_of tag)
  ++ closing e db sp (staged e backup file) rc.

End Script.

(** What a journal shows. *)
Module Seen.

Definition is_upgrade (e : entry) : bool :=
  match e_cmd e with Upgrade _ _ _ _ => true | _ => false end.

Definition is_restore (e : entry) : bool :=
  match e_cmd e with PgRestore _ _ _ _ _ _ _ => true | _ => false end.

Definition is_dump (e : entry) : bool :=
  match e_cmd e with PgDump _ _ _ _ _ _ _ => true | _ => false end.

Definition is_stop (e : entry) : bool :=
  match e_cmd e with Service _ false => true | _ => false end.

Definition is_start (e : entry) : bool :=
  match e_cmd e with Service _ true => true | _ => false end.

Definition is_savepoint (e : entry) : bool :=
  match e_cmd e with TarCreate _ None _ => true | _ => false end.

Definition is_drop (e : entry) : bool :=
  match e_cmd e with Rm false [Lit _] => true | _ => false end.

Definition is_extract (e : entry) : bool :=
  match e_cmd e with TarExtract _ => true | _ => false end.

(** Commands that change the sources directory or read or change a
    database. *)
Definition touches (e : entry) : bool :=
  match e_cmd e with
  | Rm true _ | Rm false [Star] | LsGrepXargsRm _ | SvnCo _ _ | SvnUp
  | TarExtract _ | PgDump _ _ _ _ _ _ _ | PgRestore _ _ _ _ _ _ _
  | Upgrade _ _ _ _ => true
  | _ => false
  end.

Definition count (p : entry -> bool) (es : list entry) : nat :=
  length (List.filter p es).

(** The exit code of the upgrade step, when the journal has one. *)
Definition upgrade_code (es : list entry) : option Z :=
  match List.filter is_upgrade es with
  | e :: _ => Some (e_code e)
  | [] => None
  end.

(** The entries after the upgrade step. *)
Fixpoint after_upgrade (es : list entry) : list entry :=
  match es with
  | [] => []
  | e :: es' => if is_upgrade e then es' else after_upgrade es'
  end.

(** Rollback starts with the restore of the backup. *)
Definition rollback_ran (es : list entry) : bool :=
  existsb is_restore (after_upgrade es).

(** The entries before the savepoint is made. *)
Fixpoint before_savepoint (es : list entry) : list entry :=
  match es with
  | [] => []
  | e :: es' => if is_savepoint e then [] else e :: before_savepoint es'
  end.

End Seen.

(** ** Auxiliary notions for the proofs *)

Definition forget (s : step) : step :=
  {| s_cmd := s_cmd s; s_warn := s_warn s; s_codes := s_codes s;
     s_code := None |}.

(** The journal line [issue] writes for a command that exits with [code]. *)
Definition line (loc sd : bool) (e : fab_env) (c : command) (code : Z) : entry :=
  {| e_local := loc; e_sudo := sd; e_dir := if loc then lcwd e else cwd e;
     e_cmd := c; e_code := code;
     e_fatal := negb (accepts (warn_only e) (ok_ret_codes e) code) |}.

(** [agrees e e0]: [e] is [e0] but for the working directories. *)
Definition agrees (e e0 : fab_env) : Prop :=
  ∃ d l, e = with_cwd d (with_lcwd l e0).

(** [obeys m e0 script P]: [m] plays [script] from every world whose [env]
    agrees with [e0]. *)
Definition obeys {A} (m : M A) (e0 : fab_env) (script : list step)
    (P : A -> Prop) : Prop :=
  ∀ w, agrees (env w) e0 -> plays m w script P.

Section Steps.

Variable h : host.

(** Steps 6 to 9 of both tasks. *)
Definition closing (db sp bk : string) : M unit :=
  let! result := upgrade_database h db in
  (if truthy (return_code result) then rollback h sp db bk else ret tt);;
  drop_savepoint h sp;;
  start_service h.

(** Steps 2 to 9, with step 5 left open. *)
Definition attempt (replace : M unit) (db : string) (backup : option string)
    : M unit :=
  stop_service h;;
  let! savepoint := create_savepoint h in
  let! backup := dump_or_restore_database h db backup in
  replace;;
  closing db savepoint backup.

(** Where the commands of a function decorated with
    [smile_path('backup_dir')] run, and the place of a savepoint there. *)
Definition backup_place (e : fab_env) : list string :=
  Path.resolve (home h) (home h) (change_cwd (cwd e) (backup_dir e)).

Definition savepoint_place (e : fab_env) (sp : string) : list string :=
  Path.resolve (home h) (backup_place e) sp.

End Steps.

Definition attempt_script (e0 : fab_env) (s5 : list step) (db : string)
    (backup : option string) (sp file : string) (rc : Z) : list step :=
  [Script.stop e0] ++ [Script.savepoint e0 sp]
  ++ Script.stage e0 db backup file
  ++ s5 ++ Script.closing e0 db sp (Script.staged e0 backup file) rc.

(** ** The properties claimed of a run *)

Module Claim.

Import Seen.

(** The savepoints a journal makes and the ones it drops, by name. *)
Definition made (es : list entry) : list string :=
  omap (fun e => match e_cmd e with TarCreate a None _ => Some a | _ => None end) es.

Definition dropped (es : list entry) : list string :=
  omap (fun e => match e_cmd e with Rm false [Lit a] => Some a | _ => None end) es.

(** Which exit codes Fabric refuses, step by step: the service stop passes
    0 and 1, the restore and the upgrade pass everything, every other
    command is under the policy of [e0]. *)
Definition refused (e0 : fab_env) (e : entry) : bool :=
  if is_stop e then negb (accepts false [0; 1] (e_code e))
  else if is_restore e || is_upgrade e then false
  else negb (accepts (warn_only e0) (ok_ret_codes e0) (e_code e)).

(** The entries before the upgrade step. *)
Fixpoint before_upgrade (es : list entry) : list entry :=
  match es with
  | [] => []
  | e :: es' => if is_upgrade e then [] else e :: before_upgrade es'
  end.

(** As the specification words it: a step before the upgrade that exits
    with a non-zero code ends the run, and neither drop nor start runs. *)
Definition earlier_failure_aborts (w : world) (o : outcome unit) : Prop :=
  let es := added w (final o) in
  ∀ e, In e (before_upgrade es) -> e_code e ≠ 0 ->
       completed o = false ∧ count is_drop es = 0%nat ∧ count is_start es = 0%nat.

(** What the code does: rollback exactly after an upgrade that exits
    non-zero; a run without upgrade step was aborted and has neither drop
    nor start; the run completes exactly when no entry is fatal, a fatal
    entry is the last one, and [refused] tells which entries are fatal. *)
Definition rollback_policy (w : world) (o : outcome unit) : Prop :=
  let es := added w (final o) in
  match upgrade_code es with
  | Some rc => rollback_ran es = truthy rc
  | None =>
      completed o = false ∧ rollback_ran es = false
      ∧ count is_drop es = 0%nat ∧ count is_start es = 0%nat
  end
  ∧ completed o = negb (existsb e_fatal es)
  ∧ forallb (fun e => negb (e_fatal e)) (removelast es) = true
  ∧ forallb (fun e => Bool.eqb (e_fatal e) (refused (env w) e)) es = true.

(** A fatal entry of the rollback. *)
Definition rollback_aborted (es : list entry) : bool :=
  existsb (fun e => e_fatal e && touches e) (after_upgrade es).

(** Drop, then start, and nothing else of the two. *)
Definition in_order (es : list entry) : bool :=
  match List.map is_start (List.filter (fun e => is_drop e || is_start e) es) with
  | [] | [false] | [false; true] => true
  | _ => false
  end.

(** As the specification words it: a run that reaches the upgrade step
    then drops the savepoint it made, whose file is gone afterward, and
    starts the service, which runs afterward when the start succeeds. *)
Definition always_cleans_up (h : host) (w : world) (o : outcome unit) : Prop :=
  let es := added w (final o) in
  is_Some (upgrade_code es) ->
  ∃ sp, made es = [sp] ∧ dropped es = [sp]
        ∧ remote (final o) !! savepoint_place h (env w) sp = None
        ∧ count is_start es = 1%nat
        ∧ (∀ s, In s es -> is_start s = true -> e_code s = 0 ->
             odoo_service (env w) ∈ running (final o)).

(** What the code does.  The run completes exactly when no entry is fatal,
    and a run that does not reach the upgrade step has a fatal entry.
    When the journal has the upgrade step: neither drop nor start comes
    before it; drop and start come in this order and nothing else of the
    two; when a command of the rollback is fatal neither is issued;
    otherwise the drop is issued once, and the start once unless the drop
    is fatal.  A drop is of the savepoint made, and a drop that
    exits with 0 leaves no file of that savepoint at the end of the run; a
    start is of [env.odoo_service], and a start that exits with 0 leaves
    the service running. *)
Definition cleanup (h : host) (w : world) (o : outcome unit) : Prop :=
  let es := added w (final o) in
  completed o = negb (existsb e_fatal es)
  ∧ match upgrade_code es with
    | None => existsb e_fatal es = true
    | Some rc =>
        existsb (fun e => is_drop e || is_start e) (before_upgrade es) = false
        ∧ in_order es = true
        ∧ (if rollback_aborted es
           then truthy rc = true
                ∧ count is_drop es = 0%nat ∧ count is_start es = 0%nat
           else count is_drop es = 1%nat
                ∧ count is_start es
                  = if existsb (fun e => is_drop e && e_fatal e) es
                    then 0%nat else 1%nat)
        ∧ (∀ d, In d es -> is_drop d = true ->
             ∃ sp, made es = [sp] ∧ e_cmd d = Rm false [Lit sp]
                   ∧ (e_code d = 0 ->
                      remote (final o) !! savepoint_place h (env w) sp = None))
        ∧ (∀ s, In s es -> is_start s = true ->
             e_cmd s = Service (odoo_service (env w)) true
             ∧ (e_code s = 0 -> odoo_service (env w) ∈ running (final o)))
    end.

(** As the claim words it, for the versions written as a release number
    with or without a tag ([1.6.0], [1.6rc1]): one whose release number is
    below 1.6.1 is refused. *)
Definition refuses_below : Prop :=
  ∀ ns tag,
    LooseVersion.is_tag tag = true ->
    LooseVersion.below ns [1; 6; 1]%nat = true ->
    ∃ msg, import_fabfile (LooseVersion.dotted ns +:+ tag) = inl msg.

(** As the specification words it: a savepoint that was made is dropped
    exactly once, whatever the exit path. *)
Definition dropped_on_every_exit (w : world) (o : outcome unit) : Prop :=
  let es := added w (final o) in
  count is_savepoint es = 1%nat -> count is_drop es = 1%nat.

(** What the code does with the savepoint. *)
Definition savepoint_discipline (w : world) (o : outcome unit) : Prop :=
  let es := added w (final o) in
  (length (made es) <= 1)%nat
  ∧ (made es ≠ [] ->
     existsb touches (before_savepoint es) = false
     ∧ is_stop <$> last (before_savepoint es) = Some true
     ∧ dropped (before_savepoint es) = [])
  ∧ (dropped es = [] ∨ dropped es = made es)
  ∧ (completed o = true -> length (made es) = 1%nat ∧ dropped es = made es)
  ∧ (completed o = false ->
     dropped es = []
     ∨ existsb (fun e => e_fatal e && (is_drop e || is_start e)) es = true).

(** [tolerates codes w o]: the one command of the run passes exactly on the
    exit codes of [codes]. *)
Definition tolerates (codes : list Z) (w : world) (o : outcome unit) : Prop :=
  ∃ e, added w (final o) = [e] ∧ (completed o = true ↔ e_code e ∈ codes).

(** As the specification words it, for a backup that is supplied. *)
Definition restores_supplied (b : string) (w : world) (o : outcome string)
    : Prop :=
  (∃ w', o = Done b w')
  ∧ count is_dump (added w (final o)) = 0%nat
  ∧ count is_restore (added w (final o)) = 1%nat.

(** What [dump_or_restore_database] does with a backup it is given: one
    command, the restore of that backup, and the backup is returned. *)
Definition restored (db b : string) (w : world) (o : outcome string) : Prop :=
  (∃ w', o = Done b w')
  ∧ ∃ e, added w (final o) = [e] ∧ e_cmd e = Script.pg_restore (env w) db b.

(** The file name [dump_database] builds. *)
Definition dump_name (h : host) (db : string) (w : world) : string :=
  db +:+ "_" +:+ strftime h (length (journal w)) +:+ ".dump".

(** What it does without one: one command, the dump into a file named after
    the database and the time; the path of that file is returned unless the
    command was fatal; and a dump that exits with 0 has written the state
    of the database there. *)
Definition dumped (h : host) (db : string) (w : world) (o : outcome string)
    : Prop :=
  let file := dump_name h db w in
  ∃ e, added w (final o) = [e]
       ∧ e_cmd e = Script.pg_dump (env w) db file
       ∧ (if e_fatal e then completed o = false
          else ∃ w', o = Done (Path.join (backup_dir (env w)) file) w')
       ∧ (e_code e = 0 ->
          ∃ st, dbs w !! db = Some st
                ∧ remote (final o)
                    !! Path.resolve (home h) (backup_place h (env w)) file
                  = Some (File (Dump st))).

End Claim.

(** The entries before the first drop, and those from it on. *)
Fixpoint before_drop (es : list entry) : list entry :=
  match es with
  | [] => []
  | e :: es' => if Seen.is_drop e then [] else e :: before_drop es'
  end.

Fixpoint from_drop (es : list entry) : list entry :=
  match es with
  | [] => []
  | e :: es' => if Seen.is_drop e then es else from_drop es'
  end.

(** The end of a journal that has the upgrade step: the counts of
    [Claim.cleanup], and nothing but the start after the drop. *)
Definition closes (es : list entry) : Prop :=
  ∀ rc, Seen.upgrade_code es = Some rc ->
    existsb (fun e => Seen.is_drop e || Seen.is_start e) (Claim.before_upgrade es)
    = false
    ∧ Claim.in_order es = true
    ∧ (if Claim.rollback_aborted es
       then truthy rc = true
            ∧ Seen.count Seen.is_drop es = 0%nat
            ∧ Seen.count Seen.is_start es = 0%nat
       else Seen.count Seen.is_drop es = 1%nat
            ∧ Seen.count Seen.is_start es
              = if existsb (fun e => Seen.is_drop e && e_fatal e) es
                then 0%nat else 1%nat)
    ∧ existsb Seen.is_start (before_drop es) = false
    ∧ forallb Seen.is_start (tl (from_drop es)) = true
    ∧ (length (from_drop es) <= 2)%nat.

(** The content of a directory: what lies below it, by relative name. *)
Definition content_of (fs : fsys) (dir : list string) : fsys :=
  list_to_map (Fs.subtree fs dir).

(** ** A host to run on *)

Module Scenario.

(** A clock that shows the number of commands issued so far. *)
Definition clock (n : nat) : string :=
  "20150101_0000" +:+ NilEmpty.string_of_uint (Nat.to_uint (10 + n)).

(** A host that refuses nothing, with a repository whose branches and tags
    hold one file, and an upgrade that exits with [rc]. *)
Definition site (rc : Z) : host :=
  {| fault := fun _ => None;
     strftime := clock;
     svn_branch := fun v => [(["server.py"], File (Blob ("branch " +:+ v)))];
     svn_tag := fun t => [(["server.py"], File (Blob ("tag " +:+ t)))];
     odoo := fun _ st => (rc, st +:+ " upgraded");
     home := []; lhome := [] |}.

(** The same host, where the [n]-th command fails with exit code [code]. *)
Definition failing (n : nat) (code : positive) (rc : Z) : host :=
  {| fault := fun k => if (k =? n)%nat then Some code else None;
     strftime := clock;
     svn_branch := svn_branch (site rc);
     svn_tag := svn_tag (site rc);
     odoo := odoo (site rc);
     home := []; lhome := [] |}.

(** The same repository after the tags were moved. *)
Definition moved (rc : Z) : host :=
  {| fault := fun _ => None;
     strftime := clock;
     svn_branch := svn_branch (site rc);
     svn_tag := fun t => [(["server.py"], File (Blob ("tag " +:+ t +:+ ", moved")))];
     odoo := odoo (site rc);
     home := []; lhome := [] |}.

Definition server : fsys :=
  list_to_map
    [(["home"], Dir); (["home"; "postgres"], Dir);
     (["opt"], Dir); (["opt"; "openerp"], Dir);
     (["opt"; "openerp"; "server.py"], File (Blob "release 1.1"));
     (["opt"; "openerp"; "addons"], Dir);
     (["opt"; "openerp"; "addons"; "sale.py"], File (Blob "sale 1.1"))].

(** The server with two archives left in the sources directory and the
    metadata of a checkout. *)
Definition cluttered : fsys :=
  <[["opt"; "openerp"; "release.tar.gz"] := File (Blob "archive")]>
    (<[["opt"; "openerp"; "odoo-v3.tag.gz"] := File (Blob "archive")]>
       (<[["opt"; "openerp"; ".svn"] := Dir]>
          (<[["opt"; "openerp"; ".svn"; "entries"] := File (Blob "12")]> server))).

Definition workstation : fsys := list_to_map [(["tmp"], Dir)].

Definition start : world :=
  {| env := DEFAULTS "http://svn/odoo";
     remote := server;
     localfs := workstation;
     dbs := {["demo" := "data 1.1"]};
     running := {["openerp-server"]};
     journal := [] |}.

Definition start_cluttered : world :=
  {| env := DEFAULTS "http://svn/odoo";
     remote := cluttered;
     localfs := workstation;
     dbs := {["demo" := "data 1.1"]};
     running := {["openerp-server"]};
     journal := [] |}.

Definition sources : list string := ["opt"; "openerp"].

End Scenario.

(** ** The journal of a run, read as a story *)

(** [based e e0 cw lcw]: [e] is [e0] inside [cd cw] and [lcd lcw], under
    some policy. *)
Definition based (e e0 : fab_env) (cw lcw : string) : Prop :=
  ∃ b l, e = with_policy b l (with_cwd cw (with_lcwd lcw e0)).

Section Story.

Variable h : host.

(** What the host makes of a journal line when it is issued in [w]: the
    exit code and the world the command leaves, as in [issue]. *)
Definition effect (e : entry) (w : world) : Z * world :=
  let hm := if e_local e then lhome h else home h in
  let dir := Path.resolve hm hm (e_dir e) in
  match fault h (length (journal w)) with
  | Some code => (Z.pos code, w)
  | None =>
      if Fs.is_dir (get_fs (e_local e) w) dir
      then Sh.exec h (e_local e) dir (e_cmd e) w
      else match e_cmd e with
           | UnlessFile _ c' => Sh.exec h (e_local e) hm c' w
           | _ => (1, w)
           end
  end.

(** [story w es w']: issuing the lines [es] from [w], one after the other,
    gives the exit codes they show and leaves [w']. *)
Inductive story : world -> list entry -> world -> Prop :=
| story_end w : story w [] w
| story_line w e es w' :
    e_code e = (effect e w).1 ->
    story (record e (effect e w).2) es w' ->
    story w (e :: es) w'.

(** [traced m e0 cw lcw Q]: from a world based on [e0], [m] leaves [env] as
    it was; what it does to the world is the story of the lines it adds to
    the journal, and every line satisfies [Q]. *)
Definition traced {A} (m : M A) (e0 : fab_env) (cw lcw : string)
    (Q : entry -> Prop) : Prop :=
  ∀ w, based (env w) e0 cw lcw ->
    env (final (m w)) = env w
    ∧ ∃ es, Forall Q es ∧ story w es (final (m w)).

End Story.

(** How the two closing commands are issued from a task that runs in
    [cw]: the drop on the remote host in [env.backup_dir], and the start of
    [env.odoo_service]. *)
Definition closing_line (e0 : fab_env) (cw : string) (e : entry) : Prop :=
  (Seen.is_drop e = true ->
   e_local e = false ∧ e_dir e = change_cwd cw (backup_dir e0))
  ∧ (Seen.is_start e = true -> e_cmd e = Service (odoo_service e0) true).

(** ** How and where the commands are issued *)

(** How fabfile.py issues a command: the local ones are the guarded
    commands of [export_tag] and [compress_archive] and the transfer, which
    alone of them is given [use_sudo]; the others go through
    [sudo_or_run]. *)
Definition issued_as (e0 : fab_env) (e : entry) : Prop :=
  e_local e = match e_cmd e with UnlessFile _ _ | Put _ _ => true | _ => false end
  ∧ e_sudo e = match e_cmd e with UnlessFile _ _ => false | _ => use_sudo e0 end.



(** Commands that leave the services alone. *)
Fixpoint service_free (c : command) : bool :=
  match c with
  | Service _ _ => false
  | UnlessFile _ c' => service_free c'
  | _ => true
  end.

Definition plain_service (e : entry) : Prop :=
  service_free (e_cmd e) = true ∨ ∃ n s, e_cmd e = Service n s.

(** What a journal line tells of the service [name]: a [service] command
    for it that exits with 0 has started or stopped it. *)
Definition switch (name : string) (up : bool) (e : entry) : bool :=
  match e_cmd e with
  | Service n s => if String.eqb n name && (e_code e =? 0) then s else up
  | _ => up
  end.

(** The service was stopped: the stop command exited with 0. *)
Definition stopped (e : entry) : bool := Seen.is_stop e && (e_code e =? 0).

(** Commands that read or change no database but [db]. *)
Fixpoint only_db (db : string) (c : command) : bool :=
  match c with
  | PgRestore _ d _ _ _ _ _ | Upgrade _ _ _ d => String.eqb d db
  | UnlessFile _ c' => only_db db c'
  | _ => true
  end.

(** What an aborted run leaves of the service: it runs only if it ran
    before and no stop command exited with 0. *)
Definition service_after_abort (w : world) (o : outcome unit) : Prop :=
  completed o = false ->
  (odoo_service (env w) ∈ running (final o)
   ↔ odoo_service (env w) ∈ running w
     ∧ existsb stopped (added w (final o)) = false).




(** ** What the tasks leave alone, and what the cleaning removes *)

(** Commands that start or stop no service but [name]. *)
Fixpoint only_service (name : string) (c : command) : bool :=
  match c with
  | Service n _ => String.eqb n name
  | UnlessFile _ c' => only_service name c'
  | _ => true
  end.


(** What a run leaves alone: every database but [db] and every service but
    the one of [env]. *)
Definition spares (db : string) (w w' : world) : Prop :=
  (∀ d, d ≠ db -> dbs w' !! d = dbs w !! d)
  ∧ (∀ n, n ≠ odoo_service (env w) -> (n ∈ running w' ↔ n ∈ running w)).

(** The place of the sources directory for a function decorated with
    [smile_path('sources_dir')]. *)
Definition sources_place (h : host) (e : fab_env) : list string :=
  Path.resolve (home h) (home h) (change_cwd (cwd e) (sources_dir e)).

(** A name that [rm -Rf */], [rm -Rf .svn] and [rm -f *] can reach: one
    that [*] matches, or [.svn]. *)
Definition swept (n : string) : Prop := Path.hidden n = false ∨ n = ".svn".

(** ** Paths and files handed from one step to the next *)

(** A name the shell does not expand: its first component is not [~]. *)
Definition untilded (s : string) : Prop :=
  ∀ rest, Path.components s ≠ "~" :: rest.


(** The files a journal dumps [db] into and the backups it restores [db]
    from, in order. *)
Definition dumps_made (db : string) (es : list entry) : list string :=
  omap (fun e => match e_cmd e with
                 | PgDump _ f d _ _ _ _ => if String.eqb d db then Some f else None
                 | _ => None
                 end) es.

Definition backups_used (db : string) (es : list entry) : list string :=
  omap (fun e => match e_cmd e with
                 | PgRestore _ d b _ _ _ _ => if String.eqb d db then Some b else None
                 | _ => None
                 end) es.

(** Which backup a run restores: the one it was given, and then it dumps
    nothing; or else the file of the one dump it made, by the path
    [dump_database] returned. *)
Definition backup_flow (e0 : fab_env) (db : string) (backup : option string)
    (es : list entry) : Prop :=
  if Script.given backup
  then dumps_made db es = []
       ∧ Forall (fun b => Some b = backup) (backups_used db es)
  else (length (dumps_made db es) <= 1)%nat
       ∧ Forall (fun b => ∃ f, dumps_made db es = [f]
                               ∧ b = Path.join (backup_dir e0) f)
           (backups_used db es).

(** * Proofs

    ** Commands leave [env] and the journal alone, and [issue] adds one line *)

Lemma with_cwd_back d e : with_cwd (cwd e) (with_cwd d e) = e.
Proof. destruct e; reflexivity. Qed.

Lemma with_lcwd_back d e : with_lcwd (lcwd e) (with_lcwd d e) = e.
Proof. destruct e; reflexivity. Qed.

Lemma with_policy_back b l e :
  with_policy (warn_only e) (ok_ret_codes e) (with_policy b l e) = e.
Proof. destruct e; reflexivity. Qed.

Lemma exec_frame h loc dir c w :
  env (Sh.exec h loc dir c w).2 = env w
  ∧ journal (Sh.exec h loc dir c w).2 = journal w.
Proof.
  induction c; cbn [Sh.exec]; try (split; reflexivity).
  - destruct (Fs.is_file _ _); [split; reflexivity | exact IHc].
  - destruct (get_fs loc w !! _); split; reflexivity.
  - destruct (dbs w !! db); split; reflexivity.
  - destruct (get_fs loc w !! _) as [[|[]]|]; split; reflexivity.
  - destruct (dbs w !! db); split; reflexivity.
  - destruct start; [split; reflexivity|].
    destruct (bool_decide _); split; reflexivity.
  - destruct (localfs w !! _) as [[|]|]; try (split; reflexivity).
    destruct (last _); try (split; reflexivity).
    destruct (Fs.is_dir _ _); split; reflexivity.
Qed.

Section Rules.

Variable h : host.

(** [issue] in one equation: the command exits with some code, the world
    changes in neither [env] nor the journal, the line is written, and the
    run goes on or is aborted by the policy in force. *)
Lemma issue_cases loc sd c w :
  ∃ code w1, env w1 = env w ∧ journal w1 = journal w
    ∧ issue h loc sd c w =
        (if accepts (warn_only (env w)) (ok_ret_codes (env w)) code
         then Done {| return_code := code;
                      failed := negb (bool_decide (code ∈ ok_ret_codes (env w))) |}
                (record (line loc sd (env w) c code) w1)
         else Fatal (record (line loc sd (env w) c code) w1))
    ∧ (code = 0 -> guarded c = false ->
       Sh.exec h loc
         (Path.resolve (if loc then lhome h else home h)
            (if loc then lhome h else home h)
            (if loc then lcwd (env w) else cwd (env w))) c w = (0, w1)).
Proof.
  unfold issue.
  set (r := match fault h (length (journal w)) with Some _ => _ | None => _ end).
  exists r.1, r.2.
  assert (env r.2 = env w ∧ journal r.2 = journal w) as [He Hj].
  { subst r. destruct (fault h _); [split; reflexivity|].
    destruct (Fs.is_dir _ _); [apply exec_frame|].
    destruct c; try (split; reflexivity). apply exec_frame. }
  split; [exact He|]. split; [exact Hj|]. split.
  - unfold line, accepts.
    destruct (bool_decide (r.1 ∈ ok_ret_codes (env w))), (warn_only (env w));
      reflexivity.
  - subst r. destruct (fault h _); [discriminate|].
    destruct (Fs.is_dir _ _).
    + destruct (Sh.exec _ _ _ _ _) as [code w1]. cbn. intros -> _. reflexivity.
    + destruct c; cbn; discriminate.
Qed.

Lemma conforms_app_done s1 s2 es1 es2 d :
  conforms s1 es1 true -> conforms s2 es2 d -> conforms (s1 ++ s2) (es1 ++ es2) d.
Proof.
  intros H1 H2. remember true as b eqn:Hb.
  induction H1; simpl; [assumption | | discriminate].
  apply conforms_next; auto.
Qed.

Lemma conforms_app_abort s1 s2 es1 :
  conforms s1 es1 false -> conforms (s1 ++ s2) es1 false.
Proof.
  intros H1. remember false as b eqn:Hb.
  induction H1; simpl; [discriminate | | ].
  - apply conforms_next; auto.
  - apply conforms_abort; auto.
Qed.

(** *** Rules for [plays] *)

Lemma plays_ret {A} (a : A) w : plays (ret a) w [] (fun x => x = a).
Proof.
  split; [reflexivity|]. split.
  - exists []. split; [reflexivity | constructor].
  - intros a' w' E. injection E as -> _. reflexivity.
Qed.

Lemma plays_ask w : plays ask w [] (fun e => e = env w).
Proof.
  split; [reflexivity|]. split.
  - exists []. split; [reflexivity | constructor].
  - intros a' w' E. injection E as <- _. reflexivity.
Qed.

Lemma plays_time w :
  plays (time_strftime h) w [] (fun s => s = strftime h (length (journal w))).
Proof.
  split; [reflexivity|]. split.
  - exists []. split; [reflexivity | constructor].
  - intros a' w' E. injection E as <- _. reflexivity.
Qed.

Lemma plays_weaken {A} (m : M A) w s (P Q : A -> Prop) :
  plays m w s P -> (∀ a, P a -> Q a) -> plays m w s Q.
Proof. intros (He & Hes & HP) HPQ. repeat split; eauto. Qed.

Lemma plays_script {A} (m : M A) w s s' (P : A -> Prop) :
  plays m w s P -> s = s' -> plays m w s' P.
Proof. intros H <-. exact H. Qed.

Lemma plays_bind {A B} (m : M A) (k : A -> M B) w s1 s2 P Q :
  plays m w s1 P ->
  (∀ a w', m w = Done a w' -> P a -> env w' = env w -> plays (k a) w' s2 Q) ->
  plays (bind m k) w (s1 ++ s2) Q.
Proof.
  intros (He & (es1 & Hj1 & Hc1) & HP) Hk. unfold plays, bind.
  destruct (m w) as [a w'|w'] eqn:E; cbn in *.
  - destruct (Hk a w' eq_refl (HP a w' eq_refl) He) as (He2 & (es2 & Hj2 & Hc2) & HQ).
    split; [congruence|]. split; [|exact HQ].
    exists (es1 ++ es2). split.
    + rewrite Hj2, Hj1, rev_app_distr, <- app_assoc. reflexivity.
    + apply conforms_app_done; assumption.
  - split; [exact He|]. split; [|discriminate].
    exists es1. split; [exact Hj1|]. apply conforms_app_abort; assumption.
Qed.

(** The same, when the script of what follows depends on something the run
    decides. *)
Lemma plays_bind_some {A B X} (x0 : X) (m : M A) (k : A -> M B) w s1
    (S : X -> list step) P Q :
  plays m w s1 P ->
  (∀ a w', m w = Done a w' -> P a -> env w' = env w ->
     ∃ x, plays (k a) w' (S x) Q) ->
  ∃ x, plays (bind m k) w (s1 ++ S x) Q.
Proof.
  intros Hm Hk.
  destruct (m w) as [a w'|w'] eqn:E.
  - destruct Hm as (He & Hes & HP).
    destruct (Hk a w' eq_refl (HP a w' E) ltac:(rewrite E in He; exact He)) as [x Hx].
    exists x. apply plays_bind with (P := P).
    + repeat split; assumption.
    + intros a1 w1 E1 _ _. rewrite E in E1. injection E1 as <- <-. exact Hx.
  - exists x0. apply plays_bind with (P := P); [exact Hm|].
    intros a1 w1 E1. rewrite E in E1. discriminate.
Qed.

Lemma plays_at {A} (m m' : M A) w s (P : A -> Prop) :
  m w = m' w -> plays m' w s P -> plays m w s P.
Proof. unfold plays. intros ->. auto. Qed.

Lemma plays_issue loc sd c w :
  ∃ rc, plays (issue h loc sd c) w
          [{| s_cmd := c; s_warn := warn_only (env w);
              s_codes := ok_ret_codes (env w); s_code := Some rc |}]
          (fun r => return_code r = rc).
Proof.
  destruct (issue_cases loc sd c w) as (code & w1 & He & Hj & E & _).
  exists code. unfold plays. rewrite E.
  destruct (accepts _ _ code) eqn:Hacc; cbn.
  - split; [exact He|]. split.
    + exists [line loc sd (env w) c code]. split; [cbn; congruence|].
      apply conforms_next; [|cbn; rewrite Hacc; reflexivity|constructor].
      repeat split.
    + intros a w' Eq. injection Eq as <- _. reflexivity.
  - split; [exact He|]. split; [|discriminate].
    exists [line loc sd (env w) c code]. split; [cbn; congruence|].
    apply conforms_abort; [|cbn; rewrite Hacc; reflexivity].
    repeat split.
Qed.

Lemma matches_forget s e : matches s e -> matches (forget s) e.
Proof. intros (H1 & H2 & _). repeat split; assumption. Qed.

Lemma conforms_forget s es d :
  conforms s es d -> conforms (List.map forget s) es d.
Proof.
  induction 1; simpl.
  - constructor.
  - apply conforms_next; auto using matches_forget.
  - apply conforms_abort; auto using matches_forget.
Qed.

Lemma plays_sudo_or_run_code c w :
  ∃ rc, plays (sudo_or_run h c) w
          [{| s_cmd := c; s_warn := warn_only (env w);
              s_codes := ok_ret_codes (env w); s_code := Some rc |}]
          (fun r => return_code r = rc).
Proof.
  destruct (use_sudo (env w)) eqn:U.
  - destruct (plays_issue false true c w) as [rc H]. exists rc.
    eapply plays_at; [|exact H].
    unfold sudo_or_run, bind, ask. rewrite U. reflexivity.
  - destruct (plays_issue false false c w) as [rc H]. exists rc.
    eapply plays_at; [|exact H].
    unfold sudo_or_run, bind, ask. rewrite U. reflexivity.
Qed.

Lemma plays_forget {A} (m : M A) w s P :
  plays m w s P -> plays m w (List.map forget s) (fun _ => True).
Proof.
  intros (He & (es & Hj & Hc) & _). split; [exact He|]. split; [|trivial].
  exists es. split; [exact Hj|]. apply conforms_forget. exact Hc.
Qed.

Lemma plays_sudo_or_run c w :
  plays (sudo_or_run h c) w [Script.under (env w) c] (fun _ => True).
Proof.
  destruct (plays_sudo_or_run_code c w) as [rc H].
  exact (plays_forget _ _ _ _ H).
Qed.

Lemma plays_local c w :
  plays (local h c) w [Script.under (env w) c] (fun _ => True).
Proof.
  destruct (plays_issue true false c w) as [rc H].
  exact (plays_forget _ _ _ _ H).
Qed.

Lemma plays_put a d b w :
  plays (put h a d b) w [Script.under (env w) (Put a d)] (fun _ => True).
Proof.
  destruct (plays_issue true b (Put a d) w) as [rc H].
  exact (plays_forget _ _ _ _ H).
Qed.

Lemma plays_smile_path {A} (dir : fab_env -> string) (loc : bool) (m : M A) w s P :
  plays m (set_env ((if loc then with_lcwd else with_cwd)
                      (change_cwd (if loc then lcwd (env w) else cwd (env w))
                         (dir (env w))) (env w)) w) s P ->
  plays (smile_path dir loc m) w s P.
Proof.
  intros (He & (es & Hj & Hc) & HP). unfold plays, smile_path.
  destruct (m _) as [a w'|w'] eqn:E; cbn in *.
  - split; [|split].
    + rewrite He. destruct loc; [apply with_lcwd_back | apply with_cwd_back].
    + exists es. split; assumption.
    + intros a' w'' Eq. injection Eq as <- _. eapply HP. reflexivity.
  - split; [|split; [|discriminate]].
    + rewrite He. destruct loc; [apply with_lcwd_back | apply with_cwd_back].
    + exists es. split; assumption.
Qed.

Lemma plays_smile_secure {A} (codes : list Z) (m : M A) w s P :
  plays m (set_env (with_policy (match codes with [] => true | _ => false end)
                      codes (env w)) w) s P ->
  plays (smile_secure codes m) w s P.
Proof.
  intros (He & (es & Hj & Hc) & HP). unfold plays, smile_secure.
  destruct (m _) as [a w'|w'] eqn:E; cbn in *.
  - split; [|split].
    + rewrite He. apply with_policy_back.
    + exists es. split; assumption.
    + intros a' w'' Eq. injection Eq as <- _. eapply HP. reflexivity.
  - split; [|split; [|discriminate]].
    + rewrite He. apply with_policy_back.
    + exists es. split; assumption.
Qed.

(** *** Rules for [obeys] *)

Lemma agrees_refl e : agrees e e.
Proof. exists (cwd e), (lcwd e). destruct e; reflexivity. Qed.

Lemma agrees_dir (loc : bool) d e e0 :
  agrees e e0 -> agrees ((if loc then with_lcwd else with_cwd) d e) e0.
Proof.
  intros (d' & l' & ->).
  destruct loc; [exists d', d | exists d, l']; reflexivity.
Qed.

Lemma agrees_policy b l e e0 :
  agrees e e0 -> agrees (with_policy b l e) (with_policy b l e0).
Proof. intros (d' & l' & ->). exists d', l'. reflexivity. Qed.

Lemma obeys_ret {A} (a : A) e0 : obeys (ret a) e0 [] (fun x => x = a).
Proof. intros w _. apply plays_ret. Qed.

Lemma obeys_ask e0 : obeys ask e0 [] (fun e => agrees e e0).
Proof.
  intros w Hag. eapply plays_weaken; [apply plays_ask|].
  intros a ->. exact Hag.
Qed.

Lemma obeys_time e0 : obeys (time_strftime h) e0 [] (fun _ => True).
Proof. intros w _. eapply plays_weaken; [apply plays_time|]. trivial. Qed.

Lemma obeys_bind {A B} (m : M A) (k : A -> M B) e0 s1 s2 P Q :
  obeys m e0 s1 P -> (∀ a, P a -> obeys (k a) e0 s2 Q) ->
  obeys (bind m k) e0 (s1 ++ s2) Q.
Proof.
  intros Hm Hk w Hag. eapply plays_bind; [apply Hm; exact Hag|].
  intros a w' _ Pa He. apply Hk; [exact Pa|]. rewrite He. exact Hag.
Qed.

Lemma obeys_weaken {A} (m : M A) e0 s (P Q : A -> Prop) :
  obeys m e0 s P -> (∀ a, P a -> Q a) -> obeys m e0 s Q.
Proof. intros H HPQ w Hag. eapply plays_weaken; eauto. Qed.

Lemma obeys_script {A} (m : M A) e0 s s' (P : A -> Prop) :
  obeys m e0 s P -> s = s' -> obeys m e0 s' P.
Proof. intros H <-. exact H. Qed.

Lemma obeys_smile_path {A} dir loc (m : M A) e0 s P :
  obeys m e0 s P -> obeys (smile_path dir loc m) e0 s P.
Proof.
  intros Hm w Hag. apply plays_smile_path. apply Hm.
  cbn. apply agrees_dir. exact Hag.
Qed.

Lemma obeys_smile_secure {A} codes (m : M A) e0 s P :
  obeys m (with_policy (match codes with [] => true | _ => false end) codes e0) s P ->
  obeys (smile_secure codes m) e0 s P.
Proof.
  intros Hm w Hag. apply plays_smile_secure. apply Hm.
  cbn. apply agrees_policy. exact Hag.
Qed.

Lemma under_agrees e e0 c : agrees e e0 -> Script.under e c = Script.under e0 c.
Proof. intros (d & l & ->). reflexivity. Qed.

Lemma obeys_sudo_or_run c e0 :
  obeys (sudo_or_run h c) e0 [Script.under e0 c] (fun _ => True).
Proof.
  intros w Hag. rewrite <- (under_agrees _ _ c Hag). apply plays_sudo_or_run.
Qed.

Lemma obeys_local c e0 :
  obeys (local h c) e0 [Script.under e0 c] (fun _ => True).
Proof.
  intros w Hag. rewrite <- (under_agrees _ _ c Hag). apply plays_local.
Qed.

Lemma obeys_put a d b e0 :
  obeys (put h a d b) e0 [Script.under e0 (Put a d)] (fun _ => True).
Proof.
  intros w Hag. rewrite <- (under_agrees _ _ _ Hag). apply plays_put.
Qed.

(** One command, then the rest. *)
Lemma obeys_then {A B} (m : M A) (k : A -> M B) e0 x rest P Q :
  obeys m e0 [x] P -> (∀ a, P a -> obeys (k a) e0 rest Q) ->
  obeys (bind m k) e0 (x :: rest) Q.
Proof. intros Hm Hk. exact (obeys_bind m k e0 [x] rest P Q Hm Hk). Qed.

(** Something that issues no command, then the rest. *)
Lemma obeys_pure {A B} (m : M A) (k : A -> M B) e0 s P Q :
  obeys m e0 [] P -> (∀ a, P a -> obeys (k a) e0 s Q) ->
  obeys (bind m k) e0 s Q.
Proof. intros Hm Hk. exact (obeys_bind m k e0 [] s P Q Hm Hk). Qed.

Lemma obeys_assoc {A B C} (m : M A) (k1 : A -> M B) (k2 : B -> M C) e0 s P :
  obeys (bind m (fun a => bind (k1 a) k2)) e0 s P ->
  obeys (bind (bind m k1) k2) e0 s P.
Proof.
  intros H w Hag. eapply plays_at; [|apply H; exact Hag].
  unfold bind. destruct (m w); reflexivity.
Qed.

Ltac told :=
  match goal with
  | H : agrees ?a _ |- _ => is_var a; destruct H as (? & ? & ->); cbn
  end.

Ltac play :=
  lazymatch goal with
  | |- obeys (smile_path _ _ _) _ _ _ => apply obeys_smile_path; play
  | |- obeys (smile_secure _ _) _ _ _ => apply obeys_smile_secure; play
  | |- obeys (bind ask _) _ _ _ =>
      eapply obeys_pure; [apply obeys_ask | intros ? ?; cbv beta in *; told; play]
  | |- obeys (bind (time_strftime _) _) _ _ _ =>
      eapply obeys_pure; [apply obeys_time | intros ? _; play]
  | |- obeys (bind (sudo_or_run _ _) _) _ (_ :: _) _ =>
      eapply obeys_then; [apply obeys_sudo_or_run | intros ? _; play]
  | |- obeys (bind (local _ _) _) _ (_ :: _) _ =>
      eapply obeys_then; [apply obeys_local | intros ? _; play]
  | |- obeys (bind (put _ _ _ _) _) _ (_ :: _) _ =>
      eapply obeys_then; [apply obeys_put | intros ? _; play]
  | |- obeys (bind (if ?b then _ else _) _) _ _ _ => destruct b; cbn [app]; play
  | |- obeys (bind (bind _ _) _) _ _ _ => apply obeys_assoc; play
  | |- obeys (bind (ret _) _) _ _ _ =>
      eapply obeys_pure; [apply obeys_ret | intros ? _; play]
  | |- obeys (ret _) _ [] _ =>
      eapply obeys_weaken; [apply obeys_ret | try (intros; trivial; fail)]
  | |- _ => idtac
  end.

(** *** The script of each function of fabfile.py *)

Lemma obeys_clean e0 :
  obeys (_clean_sources_dir h) e0 (Script.clean e0) (fun _ => True).
Proof. unfold _clean_sources_dir, Script.clean. play. Qed.

Lemma obeys_create_branch v e0 :
  obeys (create_branch h v) e0 [Script.under e0 (SvnCp (svn_repository e0) v)]
    (fun _ => True).
Proof. unfold create_branch. play. Qed.

Lemma obeys_checkout v e0 :
  obeys (checkout_branch h v) e0
    (Script.clean e0 ++ [Script.under e0 (SvnCo (svn_repository e0) v)])
    (fun _ => True).
Proof.
  unfold checkout_branch. apply obeys_smile_path.
  eapply obeys_bind; [apply obeys_clean | intros ? _; play].
Qed.

Lemma obeys_uncompress a e0 :
  obeys (uncompress_archive h a) e0 (Script.extract e0 a) (fun _ => True).
Proof.
  unfold uncompress_archive, Script.extract. apply obeys_smile_path.
  eapply obeys_bind; [apply obeys_clean | intros ? _; play].
Qed.

Lemma obeys_restore db b e0 :
  obeys (restore_database h db b) e0
    [Script.secure [] (Script.pg_restore e0 db b) None] (fun _ => True).
Proof. unfold restore_database. play. Qed.

Lemma obeys_stop e0 : obeys (stop_service h) e0 [Script.stop e0] (fun _ => True).
Proof. unfold stop_service, Script.stop. play. Qed.

Lemma obeys_start e0 : obeys (start_service h) e0 [Script.start e0] (fun _ => True).
Proof. unfold start_service, Script.start. play. Qed.

Lemma obeys_drop sp e0 :
  obeys (drop_savepoint h sp) e0 [Script.drop e0 sp] (fun _ => True).
Proof. unfold drop_savepoint, Script.drop. play. Qed.

Lemma obeys_export tag force e0 :
  obeys (export_tag h tag force) e0 (Script.export e0 tag force) (fun _ => True).
Proof. unfold export_tag, Script.export. play. Qed.

Lemma obeys_compress tag force e0 :
  obeys (compress_archive h tag force) e0 (Script.compress e0 tag force)
    (fun a => a = Script.archive_of tag).
Proof. unfold compress_archive, Script.compress. play. Qed.

Lemma obeys_put_archive a e0 :
  obeys (put_archive h a) e0 [Script.under e0 (Put a (backup_dir e0))]
    (fun _ => True).
Proof. unfold put_archive. play. Qed.

Lemma nonempty_append a b : nonempty b = true -> nonempty (a +:+ b) = true.
Proof. destruct a; [trivial|reflexivity]. Qed.

Lemma nonempty_join a b : nonempty b = true -> nonempty (Path.join a b) = true.
Proof.
  intros Hb. unfold Path.join.
  destruct (Path.is_absolute b); [exact Hb|].
  destruct (_ || _); repeat apply nonempty_append; assumption.
Qed.

Lemma bind_time {B} (k : string -> M B) w :
  bind (time_strftime h) k w = k (strftime h (length (journal w))) w.
Proof. reflexivity. Qed.

Lemma plays_savepoint w e0 :
  agrees (env w) e0 ->
  ∃ sp, plays (create_savepoint h) w [Script.savepoint e0 sp] (fun a => a = sp).
Proof.
  intros Hag.
  exists ("savepoint_" +:+ strftime h (length (journal w)) +:+ ".tag.gz").
  unfold create_savepoint. apply plays_smile_path.
  eapply plays_at; [apply bind_time|]. cbn [journal set_env].
  assert (obeys
    (let! e := ask in
     sudo_or_run h (TarCreate ("savepoint_" +:+ strftime h (length (journal w)) +:+ ".tag.gz")
                      None (sources_dir e));;
     ret ("savepoint_" +:+ strftime h (length (journal w)) +:+ ".tag.gz"))
    e0 [Script.savepoint e0 ("savepoint_" +:+ strftime h (length (journal w)) +:+ ".tag.gz")]
    (fun a => a = "savepoint_" +:+ strftime h (length (journal w)) +:+ ".tag.gz")) as H
    by (unfold Script.savepoint; play).
  apply H. cbn. apply agrees_dir with (loc := false). exact Hag.
Qed.

Lemma plays_dump db w e0 :
  agrees (env w) e0 ->
  ∃ file, plays (dump_database h db) w
            [Script.under e0 (Script.pg_dump e0 db file)]
            (fun a => a = Path.join (backup_dir e0) file ∧ nonempty a = true).
Proof.
  intros Hag.
  exists (db +:+ "_" +:+ strftime h (length (journal w)) +:+ ".dump").
  unfold dump_database. apply plays_smile_path.
  eapply plays_at; [apply bind_time|]. cbn [journal set_env].
  set (file := db +:+ "_" +:+ strftime h (length (journal w)) +:+ ".dump").
  assert (obeys
    (let! e := ask in
     sudo_or_run h (PgDump (db_password e) file db (db_host e) (db_port e)
                      (db_user e) (nonempty (db_password e)));;
     ret (Path.join (backup_dir e) file))
    e0 [Script.under e0 (Script.pg_dump e0 db file)]
    (fun a => a = Path.join (backup_dir e0) file ∧ nonempty a = true)) as H.
  { unfold Script.pg_dump. play. intros ? ->. split; [reflexivity|].
    apply nonempty_join. subst file. repeat apply nonempty_append. reflexivity. }
  apply H. cbn. apply agrees_dir with (loc := false). exact Hag.
Qed.

Lemma plays_stage db backup w e0 :
  agrees (env w) e0 ->
  ∃ file, plays (dump_or_restore_database h db backup) w
            (Script.stage e0 db backup file)
            (fun a => a = Script.staged e0 backup file ∧ nonempty a = true).
Proof.
  intros Hag. unfold dump_or_restore_database, Script.stage, Script.staged.
  destruct backup as [b|]; [destruct (nonempty b) eqn:Hb|].
  - exists "".
    assert (obeys (restore_database h db b;; ret b) e0
              [Script.secure [] (Script.pg_restore e0 db b) None]
              (fun a => a = b ∧ nonempty a = true)) as H.
    { eapply obeys_script.
      - eapply obeys_bind; [apply obeys_restore|].
        intros ? _. eapply obeys_weaken; [apply obeys_ret|].
        intros ? ->. split; [reflexivity | exact Hb].
      - reflexivity. }
    apply H. exact Hag.
  - apply plays_dump. exact Hag.
  - apply plays_dump. exact Hag.
Qed.

Lemma plays_upgrade db w e0 :
  agrees (env w) e0 ->
  ∃ rc, plays (upgrade_database h db) w [Script.upgrade e0 db rc]
          (fun r => return_code r = rc).
Proof.
  intros (d & l & Hag). unfold upgrade_database.
  match goal with
  | |- ∃ rc, plays (smile_secure _ (smile_path _ _ (bind ask ?k))) _ _ _ =>
      set (body := k)
  end.
  set (w1 := set_env (with_cwd (change_cwd (cwd (with_policy true [] (env w)))
                                  (sources_dir (with_policy true [] (env w))))
                        (with_policy true [] (env w))) w).
  destruct (plays_sudo_or_run_code
              (Upgrade (odoo_user (env w1)) (odoo_launcher (env w1))
                 (odoo_conf (env w1)) db) w1) as [rc H].
  exists rc. apply plays_smile_secure, plays_smile_path.
  eapply plays_at; [|eapply plays_script; [exact H|]].
  - reflexivity.
  - subst w1. cbn. rewrite Hag. reflexivity.
Qed.

Lemma obeys_rollback sp db bk e0 :
  nonempty bk = true ->
  obeys (rollback h sp db bk) e0 (Script.roll_back e0 sp db bk) (fun _ => True).
Proof.
  intros Hb. unfold rollback, Script.roll_back, dump_or_restore_database.
  rewrite Hb. apply obeys_smile_path. apply obeys_assoc.
  eapply obeys_bind; [apply obeys_restore|]. intros ? _.
  eapply obeys_pure; [apply obeys_ret|]. intros ? _.
  eapply obeys_bind; [apply obeys_clean|]. intros ? _.
  apply obeys_uncompress.
Qed.

Lemma plays_closing db sp bk w e0 :
  agrees (env w) e0 -> nonempty bk = true ->
  ∃ rc, plays (closing h db sp bk) w (Script.closing e0 db sp bk rc) (fun _ => True).
Proof.
  intros Hag Hb. destruct (plays_upgrade db w e0 Hag) as [rc Hup].
  exists rc. unfold closing, Script.closing.
  eapply plays_bind; [exact Hup|].
  intros r w' _ Hr He. cbv beta in Hr. rewrite Hr.
  assert (obeys
    ((if truthy rc then rollback h sp db bk else ret tt);;
     drop_savepoint h sp;; start_service h) e0
    ((if truthy rc then Script.roll_back e0 sp db bk else [])
     ++ [Script.drop e0 sp; Script.start e0]) (fun _ => True)) as H.
  { eapply obeys_bind.
    - destruct (truthy rc); [apply obeys_rollback; exact Hb|].
      eapply obeys_weaken; [apply obeys_ret|]. trivial.
    - intros ? _. eapply obeys_then; [apply obeys_drop|]. intros ? _.
      apply obeys_start. }
  apply H. rewrite He. exact Hag.
Qed.

Lemma agrees_at w w' e0 : env w' = env w -> agrees (env w) e0 -> agrees (env w') e0.
Proof. intros ->. trivial. Qed.

Lemma plays_attempt replace s5 db backup w e0 :
  agrees (env w) e0 ->
  obeys replace e0 s5 (fun _ => True) ->
  ∃ sp file rc,
    plays (attempt h replace db backup) w
      (attempt_script e0 s5 db backup sp file rc) (fun _ => True).
Proof.
  intros Hag Hrep. unfold attempt, attempt_script.
  cut (∃ x : string * string * Z,
         plays (attempt h replace db backup) w
           ([Script.stop e0]
            ++ (fun x : string * string * Z =>
                  [Script.savepoint e0 x.1.1]
                  ++ Script.stage e0 db backup x.1.2
                  ++ s5 ++ Script.closing e0 db x.1.1
                            (Script.staged e0 backup x.1.2) x.2) x)
           (fun _ => True)).
  { intros [[[sp file] rc] H]. exists sp, file, rc. exact H. }
  apply (plays_bind_some ("", "", 0)) with (P := fun _ => True);
    [apply obeys_stop; exact Hag|].
  intros _ w1 _ _ He1. pose proof (agrees_at _ _ _ He1 Hag) as Hag1.
  destruct (plays_savepoint w1 e0 Hag1) as [sp Hsp].
  cut (∃ y : string * Z,
         plays (let! savepoint := create_savepoint h in
                let! backup := dump_or_restore_database h db backup in
                replace;; closing h db savepoint backup) w1
           ([Script.savepoint e0 sp]
            ++ (fun y : string * Z =>
                  Script.stage e0 db backup y.1
                  ++ s5 ++ Script.closing e0 db sp
                            (Script.staged e0 backup y.1) y.2) y)
           (fun _ => True)).
  { intros [[file rc] H]. exists (sp, file, rc). exact H. }
  apply (plays_bind_some ("", 0)) with (P := fun a => a = sp); [exact Hsp|].
  intros a w2 _ -> He2. pose proof (agrees_at _ _ _ He2 Hag1) as Hag2.
  destruct (plays_stage db backup w2 e0 Hag2) as [file Hst].
  cut (∃ rc : Z,
         plays (let! backup := dump_or_restore_database h db backup in
                replace;; closing h db sp backup) w2
           (Script.stage e0 db backup file
            ++ (fun rc : Z =>
                  s5 ++ Script.closing e0 db sp (Script.staged e0 backup file) rc) rc)
           (fun _ => True)).
  { intros [rc H]. exists (file, rc). exact H. }
  eapply (plays_bind_some 0); [exact Hst|].
  intros bk w3 _ [-> Hne] He3. pose proof (agrees_at _ _ _ He3 Hag2) as Hag3.
  apply (plays_bind_some 0) with (P := fun _ => True); [apply Hrep; exact Hag3|].
  intros _ w4 _ _ He4. pose proof (agrees_at _ _ _ He4 Hag3) as Hag4.
  apply plays_closing; assumption.
Qed.

(** The journal of a run of [deploy_for_internal_testing] is the script
    [Script.internal], played until it ends or a command is fatal. *)
Lemma internal_script version db backup nocreate w :
  ∃ sp file rc,
    plays (deploy_for_internal_testing h version db backup nocreate) w
      (Script.internal (env w) version db backup nocreate sp file rc)
      (fun _ => True).
Proof.
  pose proof (agrees_refl (env w)) as Hag. set (e0 := env w) in *.
  cut (∃ x : string * string * Z,
         plays (deploy_for_internal_testing h version db backup nocreate) w
           ((if nocreate then [] else [Script.under e0 (SvnCp (svn_repository e0) version)])
            ++ (fun x : string * string * Z =>
                  attempt_script e0
                    (Script.clean e0 ++ [Script.under e0 (SvnCo (svn_repository e0) version)])
                    db backup x.1.1 x.1.2 x.2) x)
           (fun _ => True)).
  { intros [[[sp file] rc] H]. exists sp, file, rc.
    eapply plays_script; [exact H|].
    unfold Script.internal, attempt_script. cbn [fst snd].
    rewrite <- ?app_assoc. reflexivity. }
  apply (plays_bind_some ("", "", 0)) with (P := fun _ => True).
  - destruct nocreate; cbn [negb].
    + eapply plays_weaken; [apply plays_ret|]. trivial.
    + apply obeys_create_branch. exact Hag.
  - intros _ w1 _ _ He1. pose proof (agrees_at _ _ _ He1 Hag) as Hag1.
    destruct (plays_attempt (checkout_branch h version)
                (Script.clean e0 ++ [Script.under e0 (SvnCo (svn_repository e0) version)])
                db backup w1 e0 Hag1 (obeys_checkout version e0))
      as (sp & file & rc & H).
    exists (sp, file, rc). exact H.
Qed.

(** The same for [deploy_for_customer_testing] and [Script.customer]. *)
Lemma customer_script tag db backup force w :
  ∃ sp file rc,
    plays (deploy_for_customer_testing h tag db backup force) w
      (Script.customer (env w) tag db backup force sp file rc)
      (fun _ => True).
Proof.
  pose proof (agrees_refl (env w)) as Hag. set (e0 := env w) in *.
  cut (∃ x : string * string * Z,
         plays (deploy_for_customer_testing h tag db backup force) w
           (Script.export e0 tag force
            ++ (fun x : string * string * Z =>
                  Script.compress e0 tag force
                  ++ [Script.under e0 (Put (Script.archive_of tag) (backup_dir e0))]
                  ++ attempt_script e0 (Script.extract e0 (Script.archive_of tag))
                       db backup x.1.1 x.1.2 x.2) x)
           (fun _ => True)).
  { intros [[[sp file] rc] H]. exists sp, file, rc.
    eapply plays_script; [exact H|].
    unfold Script.customer, attempt_script. cbn [fst snd].
    rewrite <- ?app_assoc. reflexivity. }
  apply (plays_bind_some ("", "", 0)) with (P := fun _ => True);
    [apply obeys_export; exact Hag|].
  intros _ w1 _ _ He1. pose proof (agrees_at _ _ _ He1 Hag) as Hag1.
  apply (plays_bind_some ("", "", 0)) with (P := fun a => a = Script.archive_of tag);
    [apply obeys_compress; exact Hag1|].
  intros a w2 _ -> He2. pose proof (agrees_at _ _ _ He2 Hag1) as Hag2.
  apply (plays_bind_some ("", "", 0)) with (P := fun _ => True);
    [apply obeys_put_archive; exact Hag2|].
  intros _ w3 _ _ He3. pose proof (agrees_at _ _ _ He3 Hag2) as Hag3.
  destruct (plays_attempt (uncompress_archive h (Script.archive_of tag))
              (Script.extract e0 (Script.archive_of tag))
              db backup w3 e0 Hag3 (obeys_uncompress _ e0))
    as (sp & file & rc & H).
  exists (sp, file, rc). exact H.
Qed.
End Rules.

(** ** From a script to the journal of a run *)

Lemma added_app w w' es :
  journal w' = rev es ++ journal w -> added w w' = es.
Proof.
  intros H. unfold added. rewrite H.
  rewrite length_app, Nat.add_sub.
  rewrite take_app_length. apply rev_involutive.
Qed.

Lemma conforms_nil_inv es d : conforms [] es d -> es = [] ∧ d = true.
Proof. inversion 1; auto. Qed.

Lemma conforms_cons_inv s ss es d :
  conforms (s :: ss) es d ->
  ∃ e, matches s e
       ∧ ((e_fatal e = true ∧ es = [e] ∧ d = false)
          ∨ (e_fatal e = false ∧ ∃ es', es = e :: es' ∧ conforms ss es' d)).
Proof.
  inversion 1; subst; eexists; (split; [eassumption|]); [right|left]; eauto.
Qed.

(** Going through a script line by line: each line was the last one, and
    fatal, or was passed. *)
Ltac tidy H :=
  cbn in H; rewrite ?orb_true_r, ?orb_false_r in H; cbn in H.

Ltac unroll H leaf :=
  first
    [ apply conforms_nil_inv in H; destruct H as [-> ->]; leaf
    | apply conforms_cons_inv in H;
      let e := fresh "e" in
      let Hm := fresh "Hm" in
      let Hf := fresh "Hf" in
      let es' := fresh "es" in
      let H' := fresh "Hc" in
      let ecmd := fresh "ecmd" in
      let ecode := fresh "ecode" in
      let efatal := fresh "efatal" in
      let Hcmd := fresh "Hcmd" in
      let Hfat := fresh "Hfat" in
      let Hcode := fresh "Hcode" in
      destruct H as (e & Hm & [(Hf & -> & ->) | (Hf & es' & -> & H')]);
      destruct e as [? ? ? ecmd ecode efatal];
      destruct Hm as (Hcmd & Hfat & Hcode);
      tidy Hcmd; tidy Hfat; tidy Hcode; cbn in Hf;
      subst ecmd; try subst ecode; rewrite Hf in Hfat; subst efatal;
      [ first [ discriminate Hfat | leaf ]
      | first [ discriminate Hfat | unroll H' leaf ] ] ].

Ltac leaf_policy :=
  cbn;
  repeat match goal with
         | H : _ = negb (accepts _ _ _) |- _ => rewrite <- H; clear H
         | H : _ = negb (bool_decide _) |- _ => rewrite <- H; clear H
         end;
  repeat match goal with
         | H : truthy _ = _ |- _ => rewrite H
         end;
  cbn; repeat split; try reflexivity.

Ltac leaf_savepoint :=
  cbn; repeat split;
  first [ lia | reflexivity | discriminate | congruence
        | left; reflexivity | right; reflexivity | intros _; repeat split; reflexivity
        | idtac ].

Ltac by_cases Hc :=
  unfold Script.internal, Script.customer, Script.export, Script.compress,
    Script.stage, Script.closing, Script.roll_back, Script.extract,
    Script.clean in Hc;
  repeat match type of Hc with
         | context [if ?b then _ else _] => destruct b eqn:?
         | context [match ?b with Some _ => _ | None => _ end] => destruct b
         end;
  cbn in Hc.

Section Journals.

Variable h : host.

Lemma internal_policy version db backup nocreate w :
  Claim.rollback_policy w (deploy_for_internal_testing h version db backup nocreate w).
Proof.
  destruct (internal_script h version db backup nocreate w)
    as (sp & file & rc & _ & (es & Hj & Hc) & _).
  unfold Claim.rollback_policy.
  rewrite (added_app _ _ _ Hj).
  generalize dependent (completed (deploy_for_internal_testing h version db backup nocreate w)).
  intros d Hc. clear Hj.
  by_cases Hc; unroll Hc leaf_policy.
Qed.

Lemma customer_policy tag db backup force w :
  Claim.rollback_policy w (deploy_for_customer_testing h tag db backup force w).
Proof.
  destruct (customer_script h tag db backup force w)
    as (sp & file & rc & _ & (es & Hj & Hc) & _).
  unfold Claim.rollback_policy.
  rewrite (added_app _ _ _ Hj).
  generalize dependent (completed (deploy_for_customer_testing h tag db backup force w)).
  intros d Hc. clear Hj.
  by_cases Hc; unroll Hc leaf_policy.
Qed.

Lemma internal_savepoint version db backup nocreate w :
  Claim.savepoint_discipline w (deploy_for_internal_testing h version db backup nocreate w).
Proof.
  destruct (internal_script h version db backup nocreate w)
    as (sp & file & rc & _ & (es & Hj & Hc) & _).
  unfold Claim.savepoint_discipline.
  rewrite (added_app _ _ _ Hj).
  generalize dependent (completed (deploy_for_internal_testing h version db backup nocreate w)).
  intros d Hc. clear Hj.
  by_cases Hc; unroll Hc leaf_savepoint.
Qed.

Lemma customer_savepoint tag db backup force w :
  Claim.savepoint_discipline w (deploy_for_customer_testing h tag db backup force w).
Proof.
  destruct (customer_script h tag db backup force w)
    as (sp & file & rc & _ & (es & Hj & Hc) & _).
  unfold Claim.savepoint_discipline.
  rewrite (added_app _ _ _ Hj).
  generalize dependent (completed (deploy_for_customer_testing h tag db backup force w)).
  intros d Hc. clear Hj.
  by_cases Hc; unroll Hc leaf_savepoint.
Qed.
End Journals.

(** ** What the last steps leave behind *)

Section Closing.

Variable h : host.

Lemma bind_done {A B} (m : M A) (k : A -> M B) w b wf :
  bind m k w = Done b wf -> ∃ a w', m w = Done a w' ∧ k a w' = Done b wf.
Proof.
  unfold bind. destruct (m w) as [a w'|w']; [|discriminate].
  intros H. exists a, w'. split; [reflexivity | exact H].
Qed.

Lemma issue_done loc sd c w r w' :
  strict (env w) -> guarded c = false -> issue h loc sd c w = Done r w' ->
  ∃ w1,
    Sh.exec h loc
      (Path.resolve (if loc then lhome h else home h)
         (if loc then lhome h else home h)
         (if loc then lcwd (env w) else cwd (env w))) c w = (0, w1)
    ∧ w' = record (line loc sd (env w) c 0) w1
    ∧ return_code r = 0.
Proof.
  intros [Hw Hc] Hg. unfold issue. rewrite Hw, Hc.
  destruct (fault h _) as [p|].
  { cbn. rewrite bool_decide_eq_false_2; [discriminate|].
    intros Hin. apply list_elem_of_singleton in Hin. discriminate. }
  destruct (Fs.is_dir _ _).
  2:{ destruct c; try discriminate Hg; cbn;
        (rewrite bool_decide_eq_false_2; [discriminate|]);
        intros Hin; apply list_elem_of_singleton in Hin; discriminate. }
  destruct (Sh.exec _ _ _ _ _) as [code w1] eqn:E. cbn.
  destruct (bool_decide (code ∈ [0])) eqn:Hcode; cbn; [|discriminate].
  apply bool_decide_eq_true_1, list_elem_of_singleton in Hcode. subst code.
  intros [= <- <-]. exists w1. unfold line, accepts. rewrite Hw, Hc. cbn.
  repeat split.
Qed.

Lemma sudo_or_run_done c w r w' :
  strict (env w) -> guarded c = false -> sudo_or_run h c w = Done r w' ->
  ∃ w1,
    Sh.exec h false (Path.resolve (home h) (home h) (cwd (env w))) c w = (0, w1)
    ∧ w' = record (line false (use_sudo (env w)) (env w) c 0) w1
    ∧ return_code r = 0.
Proof.
  intros Hs Hg. unfold sudo_or_run, bind, ask, sudo, run.
  destruct (use_sudo (env w)); intros H; exact (issue_done _ _ _ _ _ _ Hs Hg H).
Qed.

Lemma rm_file_gone p fs :
  (Sh.rm false [p] fs).1 = 0 -> (Sh.rm false [p] fs).2 !! p = None.
Proof.
  unfold Sh.rm, Sh.rm_one. cbn.
  destruct (fs !! p) as [[|c]|] eqn:E; cbn.
  - discriminate.
  - intros _. apply lookup_delete_eq.
  - intros _. exact E.
Qed.

End Closing.

(** ** Functions that issue one command *)

Arguments added : simpl never.

Section Single.

Variable h : host.

Lemma added_one w w' e : journal w' = e :: journal w -> added w w' = [e].
Proof. intros H. apply (added_app w w' [e]). exact H. Qed.

Lemma accepts_all codes code : accepts true codes code = true.
Proof. unfold accepts. apply orb_true_r. Qed.

Lemma sudo_or_run_cases c w :
  ∃ code w1, env w1 = env w ∧ journal w1 = journal w
    ∧ sudo_or_run h c w =
        (if accepts (warn_only (env w)) (ok_ret_codes (env w)) code
         then Done {| return_code := code;
                      failed := negb (bool_decide (code ∈ ok_ret_codes (env w))) |}
                (record (line false (use_sudo (env w)) (env w) c code) w1)
         else Fatal (record (line false (use_sudo (env w)) (env w) c code) w1))
    ∧ (code = 0 -> guarded c = false ->
       Sh.exec h false (Path.resolve (home h) (home h) (cwd (env w))) c w
       = (0, w1)).
Proof.
  unfold sudo_or_run, bind, ask, sudo, run.
  destruct (use_sudo (env w)); apply issue_cases.
Qed.

Ltac single :=
  match goal with
  | |- context [sudo_or_run h ?c ?w0] =>
      let code := fresh "code" in
      let w1 := fresh "w1" in
      let He := fresh "He" in
      let Hj := fresh "Hj" in
      let E := fresh "E" in
      let Hx := fresh "Hx" in
      destruct (sudo_or_run_cases c w0) as (code & w1 & He & Hj & E & Hx);
      rewrite E; clear E; cbn in He, Hj, Hx |- *
  end.

Lemma restore_database_run db b w :
  ∃ w', restore_database h db b w = Done tt w'
        ∧ ∃ e, added w w' = [e] ∧ e_cmd e = Script.pg_restore (env w) db b
               ∧ e_fatal e = false.
Proof.
  unfold restore_database, smile_secure, smile_path, bind, ask. single.
  rewrite accepts_all. cbn.
  eexists. split; [reflexivity|]. eexists.
  split; [apply added_one; cbn; rewrite Hj; reflexivity|].
  split; [reflexivity|]. cbn. rewrite accepts_all. reflexivity.
Qed.

Lemma stop_service_run w :
  ∃ e, added w (final (stop_service h w)) = [e]
       ∧ e_cmd e = Service (odoo_service (env w)) false
       ∧ completed (stop_service h w) = accepts false [0; 1] (e_code e).
Proof.
  unfold stop_service, smile_secure, bind, ask. single.
  destruct (accepts false [0; 1] code) eqn:Hacc; cbn;
    eexists; (split; [apply added_one; cbn; rewrite Hj; reflexivity|]);
    cbn; rewrite ?Hacc; split; reflexivity.
Qed.

Lemma dump_database_run db w : Claim.dumped h db w (dump_database h db w).
Proof.
  unfold Claim.dumped, dump_database, smile_path, bind, time_strftime, ask.
  cbn [journal set_env]. fold (Claim.dump_name h db w).
  set (file := Claim.dump_name h db w). single.
  fold (backup_place h (env w)) in Hx.
  assert (code = 0 ->
          ∃ st, dbs w !! db = Some st
                ∧ remote w1 !! Path.resolve (home h) (backup_place h (env w)) file
                  = Some (File (Dump st))) as Hdump.
  { intros Hc. specialize (Hx Hc eq_refl).
    destruct (dbs w !! db) as [st|]; [|discriminate].
    exists st. split; [reflexivity|]. injection Hx as <-. cbn.
    apply lookup_insert_eq. }
  destruct (accepts _ _ code) eqn:Hacc; cbn;
    eexists; (split; [apply added_one; cbn; rewrite Hj; reflexivity|]);
    cbn; rewrite ?Hacc; cbn;
    (split; [reflexivity|]);
    (split; [first [reflexivity | eexists; reflexivity]|]);
    exact Hdump.
Qed.
End Single.

(** When the host refuses the command, the exit code is the one it gives. *)
Lemma issue_fault h loc sd c w code :
  fault h (length (journal w)) = Some code ->
  issue h loc sd c w =
    (if accepts (warn_only (env w)) (ok_ret_codes (env w)) (Z.pos code)
     then Done {| return_code := Z.pos code;
                  failed := negb (bool_decide (Z.pos code ∈ ok_ret_codes (env w))) |}
            (record (line loc sd (env w) c (Z.pos code)) w)
     else Fatal (record (line loc sd (env w) c (Z.pos code)) w)).
Proof.
  intros Hf. unfold issue. rewrite Hf. cbn [fst snd]. unfold line, accepts.
  destruct (bool_decide _), (warn_only (env w)); reflexivity.
Qed.

Lemma sudo_or_run_fault h c w code :
  fault h (length (journal w)) = Some code ->
  sudo_or_run h c w =
    (if accepts (warn_only (env w)) (ok_ret_codes (env w)) (Z.pos code)
     then Done {| return_code := Z.pos code;
                  failed := negb (bool_decide (Z.pos code ∈ ok_ret_codes (env w))) |}
            (record (line false (use_sudo (env w)) (env w) c (Z.pos code)) w)
     else Fatal (record (line false (use_sudo (env w)) (env w) c (Z.pos code)) w)).
Proof.
  intros Hf. unfold sudo_or_run, bind, ask, sudo, run.
  destruct (use_sudo (env w)); apply issue_fault; exact Hf.
Qed.

Lemma accepts_stop code :
  accepts false [0; 1] (Z.pos code) = bool_decide (code = 1%positive).
Proof.
  unfold accepts. rewrite orb_false_r.
  destruct (decide (code = 1%positive)) as [->|Hne].
  - reflexivity.
  - rewrite (bool_decide_eq_false_2 (code = 1%positive)) by exact Hne.
    apply bool_decide_eq_false_2. intros Hin.
    apply list_elem_of_In in Hin. cbn in Hin.
    destruct Hin as [H|[H|[]]]; [discriminate H | injection H as H; congruence].
Qed.

Lemma stop_service_fault h w code :
  fault h (length (journal w)) = Some code ->
  completed (stop_service h w) = bool_decide (code = 1%positive)
  ∧ List.map e_code (added w (final (stop_service h w))) = [Z.pos code].
Proof.
  intros Hf. unfold stop_service, smile_secure, bind, ask.
  match goal with
  | |- context [sudo_or_run h ?c ?w0] =>
      rewrite (sudo_or_run_fault h c w0 code Hf)
  end.
  cbn [env set_env warn_only ok_ret_codes with_policy].
  rewrite accepts_stop.
  destruct (bool_decide (code = 1%positive)); cbn [completed final];
    (split; [reflexivity|]); erewrite added_one by (cbn; reflexivity); reflexivity.
Qed.

Lemma restore_database_fault h db b w code :
  fault h (length (journal w)) = Some code ->
  completed (restore_database h db b w) = true
  ∧ List.map e_code (added w (final (restore_database h db b w))) = [Z.pos code].
Proof.
  intros Hf. unfold restore_database, smile_secure, smile_path, bind, ask.
  match goal with
  | |- context [sudo_or_run h ?c ?w0] =>
      rewrite (sudo_or_run_fault h c w0 code Hf)
  end.
  cbn [env set_env warn_only ok_ret_codes with_policy with_cwd].
  rewrite accepts_all. cbn [completed final].
  split; [reflexivity|]. erewrite added_one by (cbn; reflexivity). reflexivity.
Qed.

(** ** The version gate *)

Module VersionFacts.
Import LooseVersion.

Lemma append_cons c (a b : string) : String c a +:+ b = String c (a +:+ b).
Proof. reflexivity. Qed.

Lemma append_assoc (a b c : string) : (a +:+ b) +:+ c = a +:+ (b +:+ c).
Proof.
  induction a as [|x a IH]; [reflexivity|].
  rewrite !append_cons, IH. reflexivity.
Qed.

Lemma append_empty (a : string) : a +:+ "" = a.
Proof.
  induction a as [|x a IH]; [reflexivity|].
  rewrite append_cons, IH. reflexivity.
Qed.

Lemma scan_run d : ∀ run rest,
  scan (NilEmpty.string_of_uint d +:+ rest) (Some (Digit, run))
  = scan rest (Some (Digit, run +:+ NilEmpty.string_of_uint d)).
Proof.
  induction d; intros run rest; cbn [NilEmpty.string_of_uint];
    [rewrite append_empty; reflexivity | ..];
    (rewrite append_cons; cbn [scan]; change (classify _) with Digit;
     cbn [same_class]; rewrite IHd, append_assoc; reflexivity).
Qed.

Lemma scan_number n rest :
  scan (digits n +:+ rest) None = scan rest (Some (Digit, digits n)).
Proof.
  unfold digits.
  assert (Nat.to_uint n ≠ Decimal.Nil) as Hn.
  { rewrite <- (Unsigned.of_to n) at 1. rewrite Unsigned.to_of.
    apply unorm_nonnil. }
  destruct (Nat.to_uint n) as [|d|d|d|d|d|d|d|d|d|d]; [congruence|..];
    cbn [NilEmpty.string_of_uint]; rewrite append_cons; cbn [scan];
    change (classify _) with Digit; cbn iota;
    apply (scan_run d (String _ "")).
Qed.

Lemma number_component n : to_component Digit (digits n) = Int n.
Proof.
  unfold to_component, digits. rewrite NilEmpty.usu, Unsigned.of_to. reflexivity.
Qed.

Lemma parse_dotted ns : parse (dotted ns) = List.map Int ns.
Proof.
  unfold parse, dotted.
  induction ns as [|n ns IH]; [reflexivity|].
  destruct ns as [|m ns].
  - cbn [List.map String.concat].
    rewrite <- (append_empty (digits n)), scan_number. cbn [scan flush].
    rewrite number_component. reflexivity.
  - cbn [List.map String.concat] in *.
    rewrite scan_number, append_cons. cbn [scan].
    change (classify ".") with Dot. cbn iota. cbn [flush].
    rewrite number_component. cbn [app]. f_equal. exact IH.
Qed.

Lemma cmp_numbers ns : ∀ ms,
  match cmp (List.map Int ns) (List.map Int ms) with
  | Lt => true
  | _ => false
  end = below ns ms.
Proof.
  induction ns as [|n ns IH]; intros [|m ms];
    cbn [cmp List.map cmp_component below]; try reflexivity.
  destruct (Nat.compare_spec n m) as [->|Hlt|Hgt].
  - rewrite IH, Nat.ltb_irrefl, Nat.eqb_refl. reflexivity.
  - apply Nat.ltb_lt in Hlt. rewrite Hlt. reflexivity.
  - assert ((n <? m)%nat = false) as -> by (apply Nat.ltb_ge; lia).
    assert ((n =? m)%nat = false) as -> by (apply Nat.eqb_neq; lia).
    reflexivity.
Qed.

Lemma lt_dotted ns : lt (dotted ns) min_version = below ns [1; 6; 1]%nat.
Proof.
  unfold lt. rewrite parse_dotted.
  change (parse min_version) with (List.map Int [1; 6; 1]%nat).
  apply cmp_numbers.
Qed.
End VersionFacts.

(** ** Rules for [traced] *)

Lemma set_env_same w : set_env (env w) w = w.
Proof. destruct w; reflexivity. Qed.

Lemma set_env_twice e e' w : set_env e (set_env e' w) = set_env e w.
Proof. reflexivity. Qed.

Lemma exec_set_env h loc dir c e w :
  Sh.exec h loc dir c (set_env e w)
  = ((Sh.exec h loc dir c w).1, set_env e (Sh.exec h loc dir c w).2).
Proof.
  induction c; cbn [Sh.exec]; try reflexivity.
  - destruct loc; cbn; destruct (Fs.is_file _ _); first [reflexivity | exact IHc].
  - destruct loc; cbn; destruct (_ !! _); reflexivity.
  - cbn. destruct (dbs w !! db); destruct loc; reflexivity.
  - destruct loc; cbn; destruct (_ !! _) as [[|[]]|]; reflexivity.
  - cbn. destruct (dbs w !! db); reflexivity.
  - destruct start; [reflexivity|]. cbn.
    destruct (bool_decide _); reflexivity.
  - cbn. destruct (localfs w !! _) as [[|]|]; try reflexivity.
    destruct (last _); try reflexivity.
    destruct (Fs.is_dir _ _); reflexivity.
Qed.

Section TracedRules.

Variable h : host.

Lemma effect_set_env e x w :
  effect h x (set_env e w) = ((effect h x w).1, set_env e (effect h x w).2).
Proof.
  unfold effect. cbn [journal set_env].
  destruct (fault h _); [reflexivity|].
  replace (get_fs (e_local x) (set_env e w)) with (get_fs (e_local x) w)
    by (destruct (e_local x); reflexivity).
  destruct (Fs.is_dir _ _); [apply exec_set_env|].
  destruct (e_cmd x); try reflexivity. apply exec_set_env.
Qed.

Lemma effect_frame x w :
  env (effect h x w).2 = env w ∧ journal (effect h x w).2 = journal w.
Proof.
  unfold effect. destruct (fault h _); [split; reflexivity|].
  destruct (Fs.is_dir _ _); [apply exec_frame|].
  destruct (e_cmd x); try (split; reflexivity). apply exec_frame.
Qed.

Lemma story_set_env e w es w' :
  story h w es w' -> story h (set_env e w) es (set_env e w').
Proof.
  induction 1 as [w | w x es w' Hc _ IH].
  - constructor.
  - apply story_line.
    + rewrite effect_set_env. exact Hc.
    + rewrite effect_set_env. exact IH.
Qed.

Lemma story_app w es1 w1 es2 w2 :
  story h w es1 w1 -> story h w1 es2 w2 -> story h w (es1 ++ es2) w2.
Proof.
  induction 1; intros H2; [exact H2|].
  cbn. apply story_line; auto.
Qed.

Lemma story_env w es w' : story h w es w' -> env w' = env w.
Proof.
  induction 1 as [|w x es w' _ _ IH]; [reflexivity|].
  rewrite IH. cbn. apply effect_frame.
Qed.

Lemma story_journal w es w' :
  story h w es w' -> journal w' = rev es ++ journal w.
Proof.
  induction 1 as [|w x es w' _ _ IH]; [reflexivity|].
  rewrite IH. cbn. rewrite (proj2 (effect_frame x w)).
  rewrite <- app_assoc. reflexivity.
Qed.

Lemma story_added w es w' : story h w es w' -> added w w' = es.
Proof. intros H. apply added_app. apply (story_journal _ _ _ H). Qed.

Lemma based_at w w' e0 cw lcw :
  env w' = env w -> based (env w) e0 cw lcw -> based (env w') e0 cw lcw.
Proof. intros ->. trivial. Qed.

Lemma traced_ret {A} (a : A) e0 cw lcw Q : traced h (ret a) e0 cw lcw Q.
Proof.
  intros w _. split; [reflexivity|]. exists []. split; constructor.
Qed.

Lemma traced_bind {A B} (m : M A) (k : A -> M B) e0 cw lcw Q :
  traced h m e0 cw lcw Q -> (∀ a, traced h (k a) e0 cw lcw Q) ->
  traced h (bind m k) e0 cw lcw Q.
Proof.
  intros Hm Hk w Hw. destruct (Hm w Hw) as (He & es & HQ & Hs).
  unfold bind. destruct (m w) as [a w1|w1]; cbn in He, Hs.
  - destruct (Hk a w1 (based_at _ _ _ _ _ He Hw)) as (He2 & es2 & HQ2 & Hs2).
    split; [congruence|]. exists (es ++ es2).
    split; [apply Forall_app; auto | eapply story_app; eauto].
  - split; [exact He|]. exists es. auto.
Qed.

(** [ask] hands over an [env] based on [e0]. *)
Lemma traced_ask {B} (k : fab_env -> M B) e0 cw lcw Q :
  (∀ e, based e e0 cw lcw -> traced h (k e) e0 cw lcw Q) ->
  traced h (bind ask k) e0 cw lcw Q.
Proof. intros Hk w Hw. unfold bind, ask. apply (Hk (env w) Hw w Hw). Qed.

Lemma traced_time {B} (k : string -> M B) e0 cw lcw Q :
  (∀ s, traced h (k s) e0 cw lcw Q) ->
  traced h (bind (time_strftime h) k) e0 cw lcw Q.
Proof. intros Hk w Hw. unfold bind, time_strftime. apply (Hk _ w Hw). Qed.

Lemma traced_issue loc sd c e0 cw lcw (Q : entry -> Prop) :
  (∀ code f, Q {| e_local := loc; e_sudo := sd;
                  e_dir := if loc then lcw else cw;
                  e_cmd := c; e_code := code; e_fatal := f |}) ->
  traced h (issue h loc sd c) e0 cw lcw Q.
Proof.
  intros HQ w (b & l & Hw). unfold issue.
  set (r := match fault h (length (journal w)) with Some _ => _ | None => _ end).
  set (x := {| e_local := loc; e_sudo := sd;
               e_dir := if loc then lcwd (env w) else cwd (env w);
               e_cmd := c; e_code := r.1;
               e_fatal := negb (bool_decide (r.1 ∈ ok_ret_codes (env w)))
                          && negb (warn_only (env w)) |}).
  assert (r = effect h x w) as Hr by reflexivity.
  assert (final (if e_fatal x then Fatal (record x r.2)
                 else Done {| return_code := r.1;
                              failed := negb (bool_decide (r.1 ∈ ok_ret_codes (env w))) |}
                        (record x r.2)) = record x r.2) as Hf
    by (destruct (e_fatal x); reflexivity).
  change (env (final (if e_fatal x then Fatal (record x r.2)
                 else Done {| return_code := r.1;
                              failed := negb (bool_decide (r.1 ∈ ok_ret_codes (env w))) |}
                        (record x r.2))) = env w
          ∧ ∃ es, Forall Q es
                  ∧ story h w es
                      (final (if e_fatal x then Fatal (record x r.2)
                       else Done {| return_code := r.1;
                              failed := negb (bool_decide (r.1 ∈ ok_ret_codes (env w))) |}
                        (record x r.2)))).
  rewrite Hf. split.
  - cbn. rewrite Hr. apply effect_frame.
  - exists [x]. split.
    + constructor; [|constructor]. subst x. rewrite Hw. cbn.
      destruct loc; apply HQ.
    + apply story_line; [rewrite <- Hr; reflexivity|].
      rewrite <- Hr. constructor.
Qed.

Lemma traced_sudo_or_run c e0 cw lcw (Q : entry -> Prop) :
  (∀ code f, Q {| e_local := false; e_sudo := use_sudo e0; e_dir := cw;
                  e_cmd := c; e_code := code; e_fatal := f |}) ->
  traced h (sudo_or_run h c) e0 cw lcw Q.
Proof.
  intros HQ. unfold sudo_or_run. apply traced_ask. intros e (b & l & ->). cbn.
  destruct (use_sudo e0) eqn:Hs; apply traced_issue; exact HQ.
Qed.

Lemma traced_smile_secure {A} codes (m : M A) e0 cw lcw Q :
  traced h m e0 cw lcw Q -> traced h (smile_secure codes m) e0 cw lcw Q.
Proof.
  intros Hm w (b & l & Hw). unfold smile_secure.
  set (w0 := set_env _ w).
  assert (based (env w0) e0 cw lcw) as H0.
  { subst w0. cbn. rewrite Hw. eexists _, _. reflexivity. }
  destruct (Hm w0 H0) as (He & es & HQ & Hs).
  assert (final (match m w0 with
                 | Done a w' =>
                     Done a (set_env (with_policy (warn_only (env w))
                                        (ok_ret_codes (env w)) (env w')) w')
                 | Fatal w' =>
                     Fatal (set_env (with_policy (warn_only (env w))
                                       (ok_ret_codes (env w)) (env w')) w')
                 end)
          = set_env (env w) (final (m w0))) as Hf.
  { destruct (m w0) as [a w'|w']; cbn in He |- *; rewrite He; subst w0; cbn;
      rewrite with_policy_back; reflexivity. }
  rewrite Hf. split; [reflexivity|]. exists es. split; [exact HQ|].
  apply (story_set_env (env w)) in Hs. subst w0.
  rewrite set_env_twice, set_env_same in Hs. exact Hs.
Qed.

Lemma traced_smile_path {A} (dir : fab_env -> string) (loc : bool) (m : M A)
    e0 cw lcw Q :
  (∀ b l d d', dir (with_policy b l (with_cwd d (with_lcwd d' e0))) = dir e0) ->
  traced h m e0 (if loc then cw else change_cwd cw (dir e0))
    (if loc then change_cwd lcw (dir e0) else lcw) Q ->
  traced h (smile_path dir loc m) e0 cw lcw Q.
Proof.
  intros Hd Hm w (b & l & Hw). unfold smile_path.
  set (w0 := set_env _ w).
  assert (based (env w0) e0 (if loc then cw else change_cwd cw (dir e0))
            (if loc then change_cwd lcw (dir e0) else lcw)) as H0.
  { subst w0. cbn. rewrite Hw, Hd. cbn. exists b, l. destruct loc; reflexivity. }
  destruct (Hm w0 H0) as (He & es & HQ & Hs).
  assert (final (match m w0 with
                 | Done a w' =>
                     Done a (set_env ((if loc then with_lcwd else with_cwd)
                               (if loc then lcwd (env w) else cwd (env w)) (env w')) w')
                 | Fatal w' =>
                     Fatal (set_env ((if loc then with_lcwd else with_cwd)
                               (if loc then lcwd (env w) else cwd (env w)) (env w')) w')
                 end)
          = set_env (env w) (final (m w0))) as Hf.
  { destruct (m w0) as [a w'|w']; cbn in He |- *; rewrite He; subst w0; cbn;
      destruct loc; rewrite ?with_cwd_back, ?with_lcwd_back; reflexivity. }
  rewrite Hf. split; [reflexivity|]. exists es. split; [exact HQ|].
  apply (story_set_env (env w)) in Hs. subst w0.
  rewrite set_env_twice, set_env_same in Hs. exact Hs.
Qed.

Lemma traced_if {A} (b : bool) (m1 m2 : M A) e0 cw lcw Q :
  traced h m1 e0 cw lcw Q -> traced h m2 e0 cw lcw Q ->
  traced h (if b then m1 else m2) e0 cw lcw Q.
Proof. destruct b; auto. Qed.

End TracedRules.

Lemma change_cwd_absolute c p : Path.is_absolute p = true -> change_cwd c p = p.
Proof. intros H. unfold change_cwd. rewrite H. cbn. rewrite andb_false_r. reflexivity. Qed.

Ltac trace norm ob :=
  lazymatch goal with
  | |- traced _ (smile_path _ _ _) _ _ _ _ =>
      apply traced_smile_path; [reflexivity | cbv iota; norm; trace norm ob]
  | |- traced _ (smile_secure _ _) _ _ _ _ =>
      apply traced_smile_secure; trace norm ob
  | |- traced _ (bind ask _) _ _ _ _ =>
      apply traced_ask;
      let e := fresh "e" in
      let b := fresh "b" in
      let l := fresh "l" in
      intros e (b & l & ->);
      cbn [svn_repository backup_dir sources_dir tag_dir odoo_user odoo_launcher
           odoo_conf odoo_service use_sudo db_host db_port db_user db_password
           with_policy with_cwd with_lcwd];
      trace norm ob
  | |- traced _ (bind (time_strftime _) _) _ _ _ _ =>
      apply traced_time; intros ?; trace norm ob
  | |- traced _ (bind _ _) _ _ _ _ =>
      apply traced_bind; [trace norm ob | intros ?; trace norm ob]
  | |- traced _ (if _ then _ else _) _ _ _ _ =>
      apply traced_if; trace norm ob
  | |- traced _ (match ?b with Some _ => _ | None => _ end) _ _ _ _ =>
      destruct b; trace norm ob
  | |- traced _ (ret _) _ _ _ _ => apply traced_ret
  | |- traced _ (sudo_or_run _ _) _ _ _ _ =>
      apply traced_sudo_or_run; intros ? ?; ob
  | |- traced _ (local _ _) _ _ _ _ =>
      apply traced_issue; intros ? ?; ob
  | |- traced _ (put _ _ _ _) _ _ _ _ =>
      apply traced_issue; intros ? ?; ob
  | |- _ => idtac
  end.

Ltac open_tasks :=
  unfold deploy_for_internal_testing, deploy_for_customer_testing, rollback,
    dump_or_restore_database, create_branch, checkout_branch, update_branch,
    _clean_tag_dir, export_tag, compress_archive, put_archive,
    uncompress_archive, dump_database, restore_database, upgrade_database,
    start_service, stop_service, create_savepoint, drop_savepoint,
    _clean_sources_dir.


Section Start.
Variable h : host.
Lemma based_start w : based (env w) (env w) (cwd (env w)) (lcwd (env w)).
Proof. exists (warn_only (env w)), (ok_ret_codes (env w)). destruct (env w); reflexivity. Qed.

Lemma traced_added {A} (m : M A) w Q :
  traced h m (env w) (cwd (env w)) (lcwd (env w)) Q ->
  Forall Q (added w (final (m w))) ∧ story h w (added w (final (m w))) (final (m w)).
Proof.
  intros H. destruct (H w (based_start w)) as (_ & es & HQ & Hs).
  rewrite (story_added _ _ _ _ Hs). auto.
Qed.

End Start.

(** ** Versions with a tag *)

Module TagFacts.
Import LooseVersion VersionFacts.

Lemma scan_tag_head rest : ∀ k run,
  (k = Lower ∨ k = Other) ->
  ∃ s tl, scan rest (Some (k, run)) = Str s :: tl.
Proof.
  induction rest as [|c rest IH]; intros k run Hk.
  - exists run, []. destruct Hk as [-> | ->]; reflexivity.
  - cbn [scan]. destruct (classify c) eqn:Ec.
    + destruct Hk as [-> | ->]; cbn [same_class to_component]; eauto.
    + destruct Hk as [-> | ->]; cbn [same_class to_component]; eauto.
    + cbn [flush app]. destruct Hk as [-> | ->]; cbn [to_component]; eauto.
    + destruct Hk as [-> | ->]; cbn [same_class to_component]; eauto.
Qed.

Lemma parse_tagged ns c rest :
  opens_tag c = true ->
  ∃ s tl, parse (dotted ns +:+ String c rest) = List.map Int ns ++ Str s :: tl.
Proof.
  intros Hc. unfold opens_tag in Hc. unfold parse, dotted.
  assert (∃ k, classify c = k ∧ (k = Lower ∨ k = Other)) as (k & Ek & Hk).
  { destruct (classify c); try discriminate; eauto. }
  induction ns as [|n ns IH].
  - cbn [List.map String.concat app]. change ("" +:+ String c rest) with (String c rest).
    cbn [scan]. rewrite Ek.
    destruct Hk as [-> | ->]; apply scan_tag_head; auto.
  - destruct ns as [|m ns].
    + cbn [List.map String.concat app]. rewrite scan_number. cbn [scan]. rewrite Ek.
      destruct (scan_tag_head rest k (String c "") Hk) as (s & tl & E).
      exists s, tl. rewrite <- E, <- (number_component n).
      destruct Hk as [-> | ->]; reflexivity.
    + cbn [List.map String.concat] in *.
      rewrite !append_assoc, scan_number, append_cons. cbn [scan].
      change (classify ".") with Dot. cbn iota. cbn [flush].
      rewrite number_component. cbn [app].
      destruct IH as (s & tl & E). exists s, tl. f_equal. exact E.
Qed.

Lemma cmp_tagged s tl ns : ∀ ms,
  match cmp (List.map Int ns ++ Str s :: tl) (List.map Int ms) with
  | Lt => true
  | _ => false
  end = behind ns ms.
Proof.
  induction ns as [|n ns IH]; intros [|m ms];
    cbn [cmp List.map cmp_component behind app]; try reflexivity.
  destruct (Nat.compare_spec n m) as [->|Hlt|Hgt].
  - rewrite IH, Nat.ltb_irrefl, Nat.eqb_refl. reflexivity.
  - apply Nat.ltb_lt in Hlt. rewrite Hlt. reflexivity.
  - assert ((n <? m)%nat = false) as -> by (apply Nat.ltb_ge; lia).
    assert ((n =? m)%nat = false) as -> by (apply Nat.eqb_neq; lia).
    reflexivity.
Qed.

Lemma lt_tagged ns c rest :
  opens_tag c = true ->
  lt (dotted ns +:+ String c rest) min_version = behind ns [1; 6; 1]%nat.
Proof.
  intros Hc. unfold lt. destruct (parse_tagged ns c rest Hc) as (s & tl & ->).
  change (parse min_version) with (List.map Int [1; 6; 1]%nat).
  apply cmp_tagged.
Qed.

End TagFacts.

Lemma import_dotted ns :
  import_fabfile (LooseVersion.dotted ns)
  = if LooseVersion.below ns [1; 6; 1]%nat
    then inl ("Fabric version not supported: " +:+ LooseVersion.dotted ns
              +:+ " < 1.6.1")
    else inr {| internal_testing := deploy_for_internal_testing;
                customer_testing := deploy_for_customer_testing |}.
Proof.
  unfold import_fabfile. rewrite VersionFacts.lt_dotted.
  destruct (LooseVersion.below _ _); reflexivity.
Qed.

Lemma import_tagged ns c rest :
  LooseVersion.opens_tag c = true ->
  import_fabfile (LooseVersion.dotted ns +:+ String c rest)
  = if LooseVersion.behind ns [1; 6; 1]%nat
    then inl ("Fabric version not supported: "
              +:+ (LooseVersion.dotted ns +:+ String c rest) +:+ " < 1.6.1")
    else inr {| internal_testing := deploy_for_internal_testing;
                customer_testing := deploy_for_customer_testing |}.
Proof.
  intros Hc. unfold import_fabfile. rewrite (TagFacts.lt_tagged _ _ _ Hc).
  destruct (LooseVersion.behind _ _); reflexivity.
Qed.

(** Claim C10 as it is worded fails for a pre-release: Fabric 1.6rc1 is
    lower than 1.6.1, and the import goes through; [LooseVersion] compares
    the tag [rc] with the number 1, and Python 2 orders a string after
    every number. *)
Lemma prerelease_passes_the_gate : ¬ Claim.refuses_below.
Proof.
  intros H. destruct (H [1; 6]%nat "rc1" eq_refl eq_refl) as [msg Hm].
  rewrite (import_tagged [1; 6]%nat "r" "c1" eq_refl) in Hm.
  discriminate Hm.
Qed.

(** Claim C10, amended.  Importing fabfile.py under a final release of
    Fabric, a release number [ns], raises [ImportError] exactly when [ns]
    is below 1.6.1, and defines the two tasks otherwise.  Under a version
    with a tag after the release number, the import raises exactly when the
    release number is smaller than 1.6.1 at the first place where the two
    differ; the pre-releases of 1.6 and of 1.6.1 are let through. *)
Theorem version_gate :
  (∀ ns,
     import_fabfile (LooseVersion.dotted ns)
     = if LooseVersion.below ns [1; 6; 1]%nat
       then inl ("Fabric version not supported: " +:+ LooseVersion.dotted ns
                 +:+ " < 1.6.1")
       else inr {| internal_testing := deploy_for_internal_testing;
                   customer_testing := deploy_for_customer_testing |})
  ∧ (∀ ns c rest,
       LooseVersion.opens_tag c = true ->
       let version := LooseVersion.dotted ns +:+ String c rest in
       import_fabfile version
       = if LooseVersion.behind ns [1; 6; 1]%nat
         then inl ("Fabric version not supported: " +:+ version +:+ " < 1.6.1")
         else inr {| internal_testing := deploy_for_internal_testing;
                     customer_testing := deploy_for_customer_testing |}).
Proof.
  split; [exact import_dotted | exact import_tagged].
Qed.

(** Fabric 1.6.0 and 1.6.0rc2 are refused; Fabric 1.10.2 is not, nor are
    1.6rc1 and 1.6.1a1. *)
Lemma version_gate_witness :
  import_fabfile "1.6.0"
  = inl "Fabric version not supported: 1.6.0 < 1.6.1"
  ∧ import_fabfile "1.10.2"
    = inr {| internal_testing := deploy_for_internal_testing;
             customer_testing := deploy_for_customer_testing |}
  ∧ import_fabfile "1.6.0rc2"
    = inl "Fabric version not supported: 1.6.0rc2 < 1.6.1"
  ∧ import_fabfile "1.6rc1"
    = inr {| internal_testing := deploy_for_internal_testing;
             customer_testing := deploy_for_customer_testing |}
  ∧ import_fabfile "1.6.1a1"
    = inr {| internal_testing := deploy_for_internal_testing;
             customer_testing := deploy_for_customer_testing |}.
Proof.
  split; [|split; [|split; [|split]]].
  - exact (proj1 version_gate [1; 6; 0]%nat).
  - exact (proj1 version_gate [1; 10; 2]%nat).
  - exact (proj2 version_gate [1; 6; 0]%nat "r"%char "c2" eq_refl).
  - exact (proj2 version_gate [1; 6]%nat "r"%char "c1" eq_refl).
  - exact (proj2 version_gate [1; 6; 1]%nat "a"%char "1" eq_refl).
Defined.

(** ** The end of a run *)

Ltac leaf_closes :=
  cbn;
  let H := fresh "H" in
  intros ? H;
  first [ discriminate H
        | injection H as <-; repeat split; first [reflexivity | assumption | lia] ].

Section Ends.

Variable h : host.

Lemma internal_ends version db backup nocreate w :
  closes (added w (final (deploy_for_internal_testing h version db backup nocreate w))).
Proof.
  destruct (internal_script h version db backup nocreate w)
    as (sp & file & rc & _ & (es & Hj & Hc) & _).
  rewrite (added_app _ _ _ Hj). unfold closes.
  generalize dependent (completed (deploy_for_internal_testing h version db backup nocreate w)).
  intros d Hc. clear Hj.
  by_cases Hc; unroll Hc leaf_closes.
Qed.

Lemma customer_ends tag db backup force w :
  closes (added w (final (deploy_for_customer_testing h tag db backup force w))).
Proof.
  destruct (customer_script h tag db backup force w)
    as (sp & file & rc & _ & (es & Hj & Hc) & _).
  rewrite (added_app _ _ _ Hj). unfold closes.
  generalize dependent (completed (deploy_for_customer_testing h tag db backup force w)).
  intros d Hc. clear Hj.
  by_cases Hc; unroll Hc leaf_closes.
Qed.

Ltac closing_ob :=
  unfold closing_line; cbn; split;
  let Hq := fresh "Hq" in
  intros Hq; first [discriminate Hq | split; reflexivity | reflexivity].

Lemma internal_closing_lines version db backup nocreate e0 cw lcw :
  traced h (deploy_for_internal_testing h version db backup nocreate) e0 cw lcw
    (closing_line e0 cw).
Proof. open_tasks. trace idtac closing_ob. Qed.

Lemma customer_closing_lines tag db backup force e0 cw lcw :
  traced h (deploy_for_customer_testing h tag db backup force) e0 cw lcw
    (closing_line e0 cw).
Proof. open_tasks. trace idtac closing_ob. Qed.

(** *** Where drop and start stand in the journal *)

Lemma drop_not_start e : Seen.is_drop e = true -> Seen.is_start e = false.
Proof.
  unfold Seen.is_drop, Seen.is_start. destruct (e_cmd e); try discriminate.
  reflexivity.
Qed.

Lemma drop_command e : Seen.is_drop e = true -> ∃ a, e_cmd e = Rm false [Lit a].
Proof.
  unfold Seen.is_drop. destruct (e_cmd e) as [r ws| | | | | | | | | | | | |];
    try discriminate.
  destruct r; [discriminate|].
  destruct ws as [|[a| |] [|]]; try discriminate. eauto.
Qed.

Lemma start_command e : Seen.is_start e = true -> ∃ n, e_cmd e = Service n true.
Proof.
  unfold Seen.is_start. destruct (e_cmd e); try discriminate.
  destruct start; [eauto | discriminate].
Qed.

Lemma before_from_drop es : es = before_drop es ++ from_drop es.
Proof.
  induction es as [|e es IH]; [reflexivity|]. cbn.
  destruct (Seen.is_drop e); [reflexivity|]. cbn. f_equal. exact IH.
Qed.

Lemma from_drop_head es d rest :
  from_drop es = d :: rest -> Seen.is_drop d = true.
Proof.
  induction es as [|e es IH]; [discriminate|]. cbn.
  destruct (Seen.is_drop e) eqn:E; [|exact IH].
  intros [= <- _]. exact E.
Qed.

Lemma forallb_In {A} (p : A -> bool) l x :
  forallb p l = true -> In x l -> p x = true.
Proof. intros H. apply (proj1 (forallb_forall p l) H). Qed.

Lemma existsb_In {A} (p : A -> bool) l x :
  existsb p l = false -> In x l -> p x = false.
Proof.
  intros H Hin. destruct (p x) eqn:E; [|reflexivity].
  rewrite <- H. symmetry. apply existsb_exists. eauto.
Qed.

Lemma drop_position es d :
  In d es -> Seen.is_drop d = true ->
  forallb Seen.is_start (tl (from_drop es)) = true ->
  ∃ rest, es = before_drop es ++ d :: rest ∧ forallb Seen.is_start rest = true.
Proof.
  intros Hin Hd. induction es as [|e es IH]; [destruct Hin|].
  cbn. destruct (Seen.is_drop e) eqn:E; cbn.
  - intros Hall. destruct Hin as [-> | Hin]; [eauto|].
    pose proof (forallb_In _ _ _ Hall Hin) as Hs.
    rewrite (drop_not_start _ Hd) in Hs. discriminate.
  - intros Hall. destruct Hin as [-> | Hin]; [congruence|].
    destruct (IH Hin Hall) as (rest & E' & Hr). exists rest.
    split; [f_equal; exact E' | exact Hr].
Qed.

Lemma start_position es s :
  In s es -> Seen.is_start s = true ->
  existsb Seen.is_start (before_drop es) = false ->
  (length (from_drop es) <= 2)%nat ->
  ∃ d, es = (before_drop es ++ [d]) ++ [s].
Proof.
  intros Hin Hs Hb Hlen.
  rewrite (before_from_drop es) in Hin. apply in_app_or in Hin.
  destruct Hin as [Hin | Hin].
  { rewrite (existsb_In _ _ _ Hb Hin) in Hs. discriminate. }
  destruct (from_drop es) as [|d rest] eqn:E; [destruct Hin|].
  pose proof (from_drop_head _ _ _ E) as Hd.
  destruct Hin as [-> | Hin].
  { rewrite (drop_not_start _ Hd) in Hs. discriminate. }
  destruct rest as [|s' [|]]; [destruct Hin | | cbn in Hlen; lia].
  destruct Hin as [-> | []].
  exists d. rewrite <- app_assoc. cbn. rewrite <- E. apply before_from_drop.
Qed.

Lemma In_dropped es d a :
  In d es -> e_cmd d = Rm false [Lit a] -> In a (Claim.dropped es).
Proof.
  intros Hin Hc. unfold Claim.dropped.
  apply list_elem_of_In, list_elem_of_omap. exists d.
  split; [apply list_elem_of_In; exact Hin|]. rewrite Hc. reflexivity.
Qed.

Lemma the_one_made es a :
  (length (Claim.made es) <= 1)%nat ->
  Claim.dropped es = [] ∨ Claim.dropped es = Claim.made es ->
  In a (Claim.dropped es) -> Claim.made es = [a].
Proof.
  intros Hlen [E | E] Hin; [rewrite E in Hin; destruct Hin|].
  rewrite E in Hin. destruct (Claim.made es) as [|b [|]];
    [destruct Hin | | cbn in Hlen; lia].
  destruct Hin as [-> | []]. reflexivity.
Qed.

(** *** What drop and start leave *)

Lemma story_split w es1 : ∀ es2 w',
  story h w (es1 ++ es2) w' -> ∃ w1, story h w es1 w1 ∧ story h w1 es2 w'.
Proof.
  revert w. induction es1 as [|e es1 IH]; intros w es2 w' H.
  - exists w. split; [constructor | exact H].
  - inversion H as [|? ? ? ? Hc Hs]; subst.
    destruct (IH _ _ _ Hs) as (w1 & H1 & H2).
    exists w1. split; [apply story_line; assumption | exact H2].
Qed.

Lemma service_keeps_remote e w n b :
  e_cmd e = Service n b -> remote (effect h e w).2 = remote w.
Proof.
  intros E. unfold effect. destruct (fault h _); [reflexivity|].
  rewrite E. destruct (Fs.is_dir _ _); [|reflexivity].
  destruct b; cbn; [reflexivity|].
  destruct (bool_decide _); reflexivity.
Qed.

Lemma starts_keep_remote w es w' :
  story h w es w' -> forallb Seen.is_start es = true -> remote w' = remote w.
Proof.
  induction 1 as [|w e es w' _ _ IH]; [reflexivity|].
  cbn. intros Hall. apply andb_prop in Hall as [He Hall].
  rewrite (IH Hall). cbn.
  destruct (start_command _ He) as (n & E). apply (service_keeps_remote _ _ _ _ E).
Qed.

Lemma drop_gone w d rest w' a :
  story h w (d :: rest) w' ->
  e_cmd d = Rm false [Lit a] -> e_local d = false -> e_code d = 0 ->
  forallb Seen.is_start rest = true ->
  remote w'
    !! Path.resolve (home h) (Path.resolve (home h) (home h) (e_dir d)) a
  = None.
Proof.
  intros H Hcmd Hloc Hcode Hall.
  inversion H as [|? ? ? ? Hc Hs]; subst.
  rewrite (starts_keep_remote _ _ _ Hs Hall). cbn [remote record].
  rewrite Hcode in Hc. revert Hc. unfold effect. rewrite Hloc, Hcmd.
  destruct (fault h _); [discriminate|].
  destruct (Fs.is_dir _ _); [|discriminate].
  cbn. intros Hc. apply rm_file_gone. symmetry. exact Hc.
Qed.

Lemma start_runs w s w' n :
  story h w [s] w' -> e_cmd s = Service n true -> e_code s = 0 ->
  n ∈ running w'.
Proof.
  intros H Hcmd Hcode.
  inversion H as [|? ? ? ? Hc Hs]; subst. inversion Hs; subst.
  rewrite Hcode in Hc. revert Hc. unfold effect. rewrite Hcmd.
  destruct (fault h _); [discriminate|].
  destruct (Fs.is_dir _ _); [|discriminate].
  cbn. intros _. apply elem_of_union. left. apply elem_of_singleton. reflexivity.
Qed.

(** *** The cleanup of a run, from its journal and its story *)

Lemma cleanup_of_story w (o : outcome unit) :
  Claim.rollback_policy w o ->
  Claim.savepoint_discipline w o ->
  closes (added w (final o)) ->
  Forall (closing_line (env w) (cwd (env w))) (added w (final o)) ->
  story h w (added w (final o)) (final o) ->
  Claim.cleanup h w o.
Proof.
  unfold Claim.rollback_policy, Claim.savepoint_discipline, Claim.cleanup.
  set (es := added w (final o)).
  intros (Hup & Hdone & _) (Hlen & _ & Hdm & _) Hcl HQ Hst.
  split; [exact Hdone|].
  destruct (Seen.upgrade_code es) as [rc|] eqn:Eu.
  2:{ destruct Hup as (Hc & _). rewrite Hc in Hdone.
      destruct (existsb e_fatal es); [reflexivity | discriminate]. }
  destruct (Hcl rc Eu) as (Hbef & Hord & Hbr & Hb & Ht & Hl).
  split; [exact Hbef|]. split; [exact Hord|]. split; [exact Hbr|]. split.
  - intros d Hin Hd.
    destruct (drop_command _ Hd) as (a & Hcmd).
    exists a. split; [|split; [exact Hcmd|]].
    { apply (the_one_made _ _ Hlen Hdm). apply (In_dropped _ _ _ Hin Hcmd). }
    intros Hcode.
    destruct (proj1 (proj1 (List.Forall_forall _ _) HQ d Hin) Hd) as (Hloc & Hdir).
    destruct (drop_position _ _ Hin Hd Ht) as (rest & E & Hall).
    rewrite E in Hst. apply story_split in Hst as (w1 & _ & Hst).
    pose proof (drop_gone _ _ _ _ _ Hst Hcmd Hloc Hcode Hall) as Hg.
    rewrite Hdir in Hg. exact Hg.
  - intros s Hin Hs.
    pose proof (proj2 (proj1 (List.Forall_forall _ _) HQ s Hin) Hs) as Hcmd.
    split; [exact Hcmd|]. intros Hcode.
    destruct (start_position _ _ Hin Hs Hb Hl) as (d & E).
    rewrite E in Hst. apply story_split in Hst as (w1 & _ & Hst).
    apply (start_runs _ _ _ _ Hst Hcmd Hcode).
Qed.

End Ends.

(** ** The claims *)

Import Scenario.

(** The command lines of the scripts, as fabfile.py writes them. *)
Example savepoint_text :
  Render.command (s_cmd (Script.savepoint (env start) "savepoint_X.tag.gz"))
  = "tar -zcvf savepoint_X.tag.gz /opt/openerp --exclude-vcs".
Proof. reflexivity. Qed.

Example unpack_text :
  List.map (fun s => Render.command (s_cmd s))
    (Script.extract (env start) "savepoint_X.tag.gz")
  = ["rm -Rf */"; "rm -Rf .svn"; "rm -f *"; "ls | grep tar.gz | xargs rm -f";
     "tar -zxvf /home/postgres/savepoint_X.tag.gz"].
Proof. reflexivity. Qed.

Example export_text :
  List.map (fun s => Render.command (s_cmd s))
    (Script.export (env start) "v3" true ++ Script.compress (env start) "v3" true)
  = ["[ -f v3 ] || rm -Rf v3";
     "[ -f v3 ] || svn export http://svn/odoo/tags/v3 v3";
     "[ -f odoo-v3.tag.gz ] || rm -f odoo-v3.tag.gz";
     "[ -f odoo-v3.tag.gz ] || tar -zcvf odoo-v3.tag.gz -C v3 . --exclude-vcs"].
Proof. reflexivity. Qed.

Example dump_text :
  Render.command (Script.pg_dump (env start) "demo" "demo_20150101_000010.dump")
  = "pg_dump -f demo_20150101_000010.dump -F c -O demo --host=localhost --port=5432 --username=openerp".
Proof. reflexivity. Qed.

(** Claim C1, at an input where it fails.  [deploy_for_internal_testing] on
    a server whose sources directory holds release 1.1, with an upgrade
    that exits with 1: the run completes, the rollback has run and the
    database is back at the state the backup captured, but the sources
    directory does not hold what the savepoint captured.  [create_savepoint]
    names the tree by its full path, so the members of the archive are
    [opt/openerp/...]; [uncompress_archive] unpacks them inside the sources
    directory; the old tree ends one level down, at
    [/opt/openerp/opt/openerp]. *)
Theorem rollback_restores_one_level_down :
  let o := deploy_for_internal_testing (site 1) "1.2" "demo" None true start in
  completed o = true
  ∧ Seen.upgrade_code (added start (final o)) = Some 1
  ∧ Seen.rollback_ran (added start (final o)) = true
  ∧ dbs (final o) !! "demo" = Some "data 1.1"
  ∧ content_of (remote (final o)) sources ≠ content_of (remote start) sources
  ∧ remote (final o) !! (sources ++ ["server.py"]) = None
  ∧ content_of (remote (final o)) (sources ++ sources)
    = content_of (remote start) sources.
Proof.
  cbv zeta. repeat split; try (vm_compute; reflexivity).
  intros H. apply (f_equal (fun m : fsys => m !! ["server.py"])) in H.
  vm_compute in H. discriminate H.
Qed.

(** Claim C6, at an input where it fails.  [export_tag t False] twice: the
    first call exports the tag into a directory; [[ -f t ]] holds for a
    regular file only, so on the second call the guard does not hold and
    [svn export] is run again, onto the directory that exists; it exits
    with 1 and Fabric aborts.  The second call does not skip the export. *)
Theorem second_export_is_attempted :
  let first := export_tag (site 0) "v3" false start in
  let second := export_tag (site 0) "v3" false (final first) in
  completed first = true
  ∧ Fs.is_dir (localfs (final first)) ["tmp"; "v3"] = true
  ∧ Fs.is_file (localfs (final first)) ["tmp"; "v3"] = false
  ∧ completed second = false
  ∧ List.map (fun e => (e_cmd e, e_code e, e_fatal e))
      (added (final first) (final second))
    = [(UnlessFile "v3" (SvnExport "http://svn/odoo" "v3" "v3"), 1, true)].
Proof. cbv zeta. repeat split; vm_compute; reflexivity. Qed.

(** Claim C7, at an input where it fails.  The tag is exported and packed;
    packing it again without [force_export_tag] returns the same name and
    changes nothing.  Then the tag is moved in the repository, and exported
    and packed again with [force_export_tag].  The forced export fetches the new tree, but
    [[ -f archive ] || rm -f archive] removes nothing when the archive is
    there, and the pack is skipped: the call returns the same name and the
    archive still holds the old tree. *)
Theorem forced_archive_is_stale :
  let made := compress_archive (site 0) "v3" false
                (final (export_tag (site 0) "v3" false start)) in
  let again := compress_archive (site 0) "v3" false (final made) in
  let exported := export_tag (moved 0) "v3" true (final made) in
  let forced := compress_archive (moved 0) "v3" true (final exported) in
  completed made = true ∧ completed exported = true
  ∧ (∃ w, again = Done "odoo-v3.tag.gz" w)
  ∧ localfs (final again) = localfs (final made)
  ∧ (∃ w, forced = Done "odoo-v3.tag.gz" w)
  ∧ localfs (final exported) !! ["tmp"; "v3"; "server.py"]
    = Some (File (Blob "tag v3, moved"))
  ∧ localfs (final forced) !! ["tmp"; "odoo-v3.tag.gz"]
    = localfs (final made) !! ["tmp"; "odoo-v3.tag.gz"]
  ∧ localfs (final forced) !! ["tmp"; "odoo-v3.tag.gz"]
    = Some (File (Tar [(["server.py"], File (Blob "tag v3")); ([], Dir)]))
  ∧ List.map (fun e => (e_cmd e, e_code e))
      (added (final exported) (final forced))
    = [(UnlessFile "odoo-v3.tag.gz" (Rm false [Lit "odoo-v3.tag.gz"]), 0);
       (UnlessFile "odoo-v3.tag.gz" (TarCreate "odoo-v3.tag.gz" (Some "v3") "."), 0)].
Proof.
  cbv zeta. repeat split; try (vm_compute; reflexivity);
    eexists; vm_compute; reflexivity.
Qed.

(** Claim C8, at an input where it fails.  [_clean_sources_dir] in a sources
    directory that holds two archives: both are regular files with visible
    names, so [rm -f *] removes them (and [ls | grep tar.gz | xargs rm -f]
    would remove the one named [*.tar.gz]); the directory is empty
    afterwards. *)
Theorem clean_removes_archives :
  let o := _clean_sources_dir (site 0) start_cluttered in
  Sh.grep "tar.gz" "release.tar.gz" = true
  ∧ Fs.is_file (remote start_cluttered) (sources ++ ["release.tar.gz"]) = true
  ∧ Fs.is_file (remote start_cluttered) (sources ++ ["odoo-v3.tag.gz"]) = true
  ∧ completed o = true
  ∧ remote (final o) !! (sources ++ ["release.tar.gz"]) = None
  ∧ remote (final o) !! (sources ++ ["odoo-v3.tag.gz"]) = None
  ∧ Fs.entries (remote (final o)) sources = [].
Proof. cbv zeta. repeat split; vm_compute; reflexivity. Qed.

(** Claim C2 as the specification words it fails: with a backup supplied
    that the host does not have, [pg_restore] exits with 1 in step 4, and
    the run goes on to the upgrade, the drop and the start. *)
Lemma restore_failure_does_not_abort :
  ¬ Claim.earlier_failure_aborts start
      (deploy_for_internal_testing (site 0) "1.2" "demo"
         (Some "/home/postgres/old.dump") true start).
Proof.
  unfold Claim.earlier_failure_aborts. intros H.
  set (o := deploy_for_internal_testing _ _ _ _ _ _) in H.
  assert (∃ e, In e (Claim.before_upgrade (added start (final o))) ∧ e_code e = 1)
    as (e & Hin & Hcode).
  { vm_compute. eexists. split; [right; right; left; reflexivity | reflexivity]. }
  destruct (H e Hin) as (Hdone & _); [rewrite Hcode; discriminate|].
  vm_compute in Hdone. discriminate Hdone.
Qed.

(** Claim C4 as the specification words it fails: when the unpacking of the
    savepoint fails during rollback, Fabric aborts and the savepoint that
    was made is not dropped. *)
Lemma aborted_rollback_keeps_savepoint :
  ¬ Claim.dropped_on_every_exit start
      (deploy_for_internal_testing (failing 18 2 1) "1.2" "demo" None true start).
Proof.
  unfold Claim.dropped_on_every_exit. intros H.
  assert (Seen.count Seen.is_savepoint
            (added start
               (final (deploy_for_internal_testing (failing 18 2 1) "1.2" "demo"
                         None true start))) = 1%nat) as H1
    by (vm_compute; reflexivity).
  apply H in H1. vm_compute in H1. discriminate H1.
Qed.

(** Claim C5 as the specification words it fails for the empty string:
    [if backup:] does not hold, and the database is dumped. *)
Lemma empty_backup_is_dumped :
  ¬ Claim.restores_supplied "" start
      (dump_or_restore_database (site 0) "demo" (Some "") start).
Proof.
  intros (_ & Hdump & _). vm_compute in Hdump. discriminate Hdump.
Qed.

(** Claim C9 as the specification words it fails for [restore_database]:
    its list of accepted codes is empty, and an exit code 1 passes. *)
Lemma restore_passes_unlisted_code :
  ¬ Claim.tolerates [] start
      (restore_database (site 0) "demo" "/home/postgres/none.dump" start).
Proof.
  intros (e & _ & Hiff).
  assert (completed (restore_database (site 0) "demo" "/home/postgres/none.dump" start) = true)
    as Hdone by (vm_compute; reflexivity).
  apply Hiff in Hdone. inversion Hdone.
Qed.

(** Claim C2, amended.  In both tasks, on every host and from every world:
    the rollback runs exactly when the upgrade step exits with a non-zero
    code; a run that did not reach the upgrade step was aborted and issued
    neither drop nor start; a fatal entry is the last entry of the journal,
    and the run completes exactly when there is none; an entry is fatal
    exactly when Fabric refuses its exit code: the service stop passes 0
    and 1, the restore and the upgrade pass every code, every other command
    is under the policy of [env] (by default, only 0 passes). *)
Theorem rollback_policy_of_tasks (h : host) (w : world) :
  (∀ version db backup do_not_create_branch,
     Claim.rollback_policy w
       (deploy_for_internal_testing h version db backup do_not_create_branch w))
  ∧ (∀ tag db backup force_export_tag,
       Claim.rollback_policy w
         (deploy_for_customer_testing h tag db backup force_export_tag w)).
Proof.
  split; intros; [apply internal_policy | apply customer_policy].
Qed.

(** The policy on two runs: an upgrade that fails, and a restore that
    fails. *)
Lemma rollback_policy_witness :
  Claim.rollback_policy start
    (deploy_for_internal_testing (site 1) "1.2" "demo" None true start)
  ∧ Claim.rollback_policy start
      (deploy_for_customer_testing (site 0) "v3" "demo"
         (Some "/home/postgres/old.dump") false start).
Proof.
  split.
  - exact (proj1 (rollback_policy_of_tasks (site 1) start) "1.2" "demo" None true).
  - exact (proj2 (rollback_policy_of_tasks (site 0) start) "v3" "demo"
             (Some "/home/postgres/old.dump") false).
Defined.

(** Claim C3 as the specification words it fails: when the unpacking of the
    savepoint fails during the rollback, the run has reached the upgrade
    step, and Fabric aborts it before the drop and the start. *)
Lemma aborted_rollback_skips_cleanup :
  ¬ Claim.always_cleans_up (failing 18 2 1) start
      (deploy_for_internal_testing (failing 18 2 1) "1.2" "demo" None true start).
Proof.
  unfold Claim.always_cleans_up. intros H.
  destruct H as (sp & _ & Hd & _).
  { exists 1. vm_compute. reflexivity. }
  vm_compute in Hd. discriminate Hd.
Qed.

(** Claim C3, amended.  In both tasks, on every host, from every world and
    under every policy of [env]: the run completes exactly when no command
    is fatal, and reaches the upgrade step unless a command is fatal
    before.  After the upgrade step, and not before, the drop of the
    savepoint and the start of the service are issued in this order, once
    each, except that a fatal command of the rollback ends the run with
    neither of them and a fatal drop ends it without the start.  A drop is of the savepoint the run
    made, and when it exits with 0 the file of the savepoint is gone at the
    end of the run; a start is of [env.odoo_service], and when it exits
    with 0 the service is running at the end of the run. *)
Theorem cleanup_after_upgrade (h : host) (w : world) :
  (∀ version db backup do_not_create_branch,
     Claim.cleanup h w
       (deploy_for_internal_testing h version db backup do_not_create_branch w))
  ∧ (∀ tag db backup force_export_tag,
       Claim.cleanup h w
         (deploy_for_customer_testing h tag db backup force_export_tag w)).
Proof.
  split; intros.
  - apply cleanup_of_story.
    + apply internal_policy.
    + apply internal_savepoint.
    + apply internal_ends.
    + apply (traced_added h _ w _ (internal_closing_lines h _ _ _ _ _ _ _)).
    + apply (traced_added h _ w _ (internal_closing_lines h _ _ _ _ _ _ _)).
  - apply cleanup_of_story.
    + apply customer_policy.
    + apply customer_savepoint.
    + apply customer_ends.
    + apply (traced_added h _ w _ (customer_closing_lines h _ _ _ _ _ _ _)).
    + apply (traced_added h _ w _ (customer_closing_lines h _ _ _ _ _ _ _)).
Qed.

(** Three runs: one that is rolled back and one whose upgrade succeeds,
    which both reach the upgrade step and complete, with the savepoint gone
    and the service running; and the run whose rollback is aborted. *)
Lemma cleanup_witness :
  let rolled := deploy_for_internal_testing (site 1) "1.2" "demo" None true start in
  let passed := deploy_for_customer_testing (site 0) "v3" "demo" None false start in
  let aborted :=
    deploy_for_internal_testing (failing 18 2 1) "1.2" "demo" None true start in
  (Claim.cleanup (site 1) start rolled
   ∧ Seen.upgrade_code (added start (final rolled)) = Some 1
   ∧ Seen.rollback_ran (added start (final rolled)) = true
   ∧ completed rolled = true
   ∧ Claim.made (added start (final rolled)) = ["savepoint_20150101_000011.tag.gz"]
   ∧ remote (final rolled) !! ["home"; "postgres"; "savepoint_20150101_000011.tag.gz"]
     = None
   ∧ bool_decide ("openerp-server" ∈ running (final rolled)) = true)
  ∧ (Claim.cleanup (site 0) start passed
     ∧ Seen.upgrade_code (added start (final passed)) = Some 0
     ∧ Seen.rollback_ran (added start (final passed)) = false
     ∧ completed passed = true
     ∧ Seen.count Seen.is_drop (added start (final passed)) = 1%nat
     ∧ Seen.count Seen.is_start (added start (final passed)) = 1%nat
     ∧ bool_decide ("openerp-server" ∈ running (final passed)) = true)
  ∧ (Claim.cleanup (failing 18 2 1) start aborted
     ∧ Seen.upgrade_code (added start (final aborted)) = Some 1
     ∧ Claim.rollback_aborted (added start (final aborted)) = true
     ∧ completed aborted = false
     ∧ Seen.count Seen.is_drop (added start (final aborted)) = 0%nat
     ∧ Seen.count Seen.is_start (added start (final aborted)) = 0%nat).
Proof.
  cbv zeta. split; [|split].
  - split.
    + exact (proj1 (cleanup_after_upgrade (site 1) start) "1.2" "demo" None true).
    + repeat split; vm_compute; reflexivity.
  - split.
    + exact (proj2 (cleanup_after_upgrade (site 0) start) "v3" "demo" None false).
    + repeat split; vm_compute; reflexivity.
  - split.
    + exact (proj1 (cleanup_after_upgrade (failing 18 2 1) start)
               "1.2" "demo" None true).
    + repeat split; vm_compute; reflexivity.
Defined.

(** Claim C4, amended.  In both tasks, on every host and from every world:
    at most one savepoint is made; it is made right after the service stop,
    before any command that touches the sources directory or a database,
    and before any drop; a drop is of the savepoint made, and there is at
    most one; a run that completes has made one savepoint and dropped it; a
    run that was aborted has dropped nothing, unless the fatal command is
    the drop itself or the start. *)
Theorem savepoint_discipline_of_tasks (h : host) (w : world) :
  (∀ version db backup do_not_create_branch,
     Claim.savepoint_discipline w
       (deploy_for_internal_testing h version db backup do_not_create_branch w))
  ∧ (∀ tag db backup force_export_tag,
       Claim.savepoint_discipline w
         (deploy_for_customer_testing h tag db backup force_export_tag w)).
Proof.
  split; intros; [apply internal_savepoint | apply customer_savepoint].
Qed.

(** The discipline on a run aborted inside the rollback and on a run that
    completes. *)
Lemma savepoint_discipline_witness :
  Claim.savepoint_discipline start
    (deploy_for_internal_testing (failing 18 2 1) "1.2" "demo" None true start)
  ∧ Claim.savepoint_discipline start
      (deploy_for_customer_testing (site 0) "v3" "demo" None false start).
Proof.
  split.
  - exact (proj1 (savepoint_discipline_of_tasks (failing 18 2 1) start)
             "1.2" "demo" None true).
  - exact (proj2 (savepoint_discipline_of_tasks (site 0) start)
             "v3" "demo" None false).
Defined.

(** Claim C5, amended.  With a backup that is a non-empty string,
    [dump_or_restore_database] issues one command, the restore of that
    backup, and returns the backup, whatever the restore exits with.  With
    [None] or the empty string it issues one command, the dump into
    [<db_name>_<time>.dump], and returns the path of that file in the
    backup directory unless the dump was fatal; a dump that exits with 0
    has written the state of the database. *)
Theorem dump_or_restore_database_spec (h : host) (db_name : string)
    (backup : option string) (w : world) :
  let o := dump_or_restore_database h db_name backup w in
  match backup with
  | Some b =>
      if nonempty b then Claim.restored db_name b w o
      else Claim.dumped h db_name w o
  | None => Claim.dumped h db_name w o
  end.
Proof.
  cbv zeta. unfold dump_or_restore_database.
  destruct backup as [b|]; [destruct (nonempty b)|];
    try apply dump_database_run.
  destruct (restore_database_run h db_name b w) as (w' & E & e & Ha & Hc & _).
  unfold Claim.restored, bind, ret. rewrite E. cbn [final].
  split; [eexists; reflexivity|]. exists e. split; assumption.
Qed.

(** With a backup, and without. *)
Lemma dump_or_restore_database_witness :
  Claim.restored "demo" "/home/postgres/old.dump" start
    (dump_or_restore_database (site 0) "demo" (Some "/home/postgres/old.dump") start)
  ∧ Claim.dumped (site 0) "demo" start
      (dump_or_restore_database (site 0) "demo" None start).
Proof.
  split.
  - exact (dump_or_restore_database_spec (site 0) "demo"
             (Some "/home/postgres/old.dump") start).
  - exact (dump_or_restore_database_spec (site 0) "demo" None start).
Defined.

Lemma accepts_listed codes code :
  accepts false codes code = true ↔ code ∈ codes.
Proof.
  unfold accepts. rewrite orb_false_r. split.
  - apply bool_decide_eq_true_1.
  - apply bool_decide_eq_true_2.
Qed.

(** Claim C9, amended.  [stop_service] completes exactly when the command
    exits with 0 or 1; [restore_database] runs warn-only with an empty
    list of accepted codes and completes whatever the command exits with;
    and the host can make the command exit with any positive code. *)
Theorem tolerance_of_stop_and_restore (h : host) (w : world) :
  Claim.tolerates [0; 1] w (stop_service h w)
  ∧ (∀ db_name backup,
       let o := restore_database h db_name backup w in
       completed o = true
       ∧ ∃ e, added w (final o) = [e]
              ∧ e_cmd e = Script.pg_restore (env w) db_name backup
              ∧ e_fatal e = false)
  ∧ (∀ code, fault h (length (journal w)) = Some code ->
       (completed (stop_service h w) = bool_decide (code = 1%positive)
        ∧ List.map e_code (added w (final (stop_service h w))) = [Z.pos code])
       ∧ ∀ db_name backup,
           completed (restore_database h db_name backup w) = true
           ∧ List.map e_code
               (added w (final (restore_database h db_name backup w)))
             = [Z.pos code]).
Proof.
  split; [|split].
  - destruct (stop_service_run h w) as (e & Ha & _ & Hd).
    exists e. split; [exact Ha|]. rewrite Hd. apply accepts_listed.
  - intros db b. cbv zeta.
    destruct (restore_database_run h db b w) as (w' & E & e & Ha & Hc & Hf).
    rewrite E. cbn [final completed]. split; [reflexivity|].
    exists e. auto.
  - intros code Hf. split.
    + apply stop_service_fault. exact Hf.
    + intros db b. apply restore_database_fault. exact Hf.
Qed.

(** On a host whose first command exits with 2: the stop is fatal, the
    restore is not. *)
Lemma tolerance_witness :
  Claim.tolerates [0; 1] start (stop_service (failing 0 2 0) start)
  ∧ completed (stop_service (failing 0 2 0) start) = false
  ∧ completed (restore_database (failing 0 2 0) "demo" "/home/postgres/old.dump" start)
    = true
  ∧ List.map e_code
      (added start
         (final (restore_database (failing 0 2 0) "demo" "/home/postgres/old.dump"
                   start)))
    = [2].
Proof.
  split; [|split].
  - exact (proj1 (tolerance_of_stop_and_restore (failing 0 2 0) start)).
  - exact (proj1 (proj1 (proj2 (proj2 (tolerance_of_stop_and_restore
                                         (failing 0 2 0) start))
                           2%positive eq_refl))).
  - exact (proj2 (proj2 (proj2 (tolerance_of_stop_and_restore (failing 0 2 0) start))
                    2%positive eq_refl) "demo" "/home/postgres/old.dump").
Defined.

(** * Further properties of the code *)

(** ** How and where the commands are issued *)

Section Where.
Variable h : host.

Lemma internal_issued version db backup nocreate e0 cw lcw :
  traced h (deploy_for_internal_testing h version db backup nocreate) e0 cw lcw
    (issued_as e0).
Proof.
  open_tasks. trace idtac ltac:(split; reflexivity).
Qed.

Lemma customer_issued tag db backup force e0 cw lcw :
  traced h (deploy_for_customer_testing h tag db backup force) e0 cw lcw
    (issued_as e0).
Proof.
  open_tasks. trace idtac ltac:(split; reflexivity).
Qed.

Lemma exec_running loc dir c w :
  service_free c = true -> running (Sh.exec h loc dir c w).2 = running w.
Proof.
  induction c; cbn [Sh.exec service_free]; intros Hc; try discriminate; try reflexivity.
  - destruct (Fs.is_file _ _); [reflexivity | auto].
  - destruct (get_fs loc w !! _); reflexivity.
  - destruct (dbs w !! db); reflexivity.
  - destruct (get_fs loc w !! _) as [[|[]]|]; reflexivity.
  - destruct (dbs w !! db); reflexivity.
  - destruct (localfs w !! _) as [[|]|]; try reflexivity.
    destruct (last _); try reflexivity.
    destruct (Fs.is_dir _ _); reflexivity.
Qed.

Lemma effect_running name e w :
  plain_service e -> e_code e = (effect h e w).1 ->
  bool_decide (name ∈ running (effect h e w).2)
  = switch name (bool_decide (name ∈ running w)) e.
Proof.
  intros HQ Hc. unfold switch. unfold effect in *.
  destruct (fault h _) as [code|].
  { cbn in *. rewrite Hc. destruct (e_cmd e); try reflexivity.
    rewrite andb_false_r. reflexivity. }
  destruct HQ as [Hfree | (n & s & Hs)].
  { destruct (Fs.is_dir _ _).
    - rewrite (exec_running _ _ _ _ Hfree).
      destruct (e_cmd e); try reflexivity. discriminate.
    - destruct (e_cmd e) as [| |p c'| | | | | | | | | | |]; try reflexivity;
        [|discriminate].
      rewrite (exec_running _ _ c' _ Hfree). reflexivity. }
  rewrite Hs in *.
  destruct (Fs.is_dir _ _).
  2:{ cbn in *. rewrite Hc. rewrite andb_false_r. reflexivity. }
  cbn [Sh.exec] in *. destruct s.
  - cbn in *. rewrite Hc. cbn. rewrite andb_true_r.
    destruct (String.eqb_spec n name) as [->|Hn].
    + apply bool_decide_eq_true, elem_of_union. left. apply elem_of_singleton. reflexivity.
    + apply bool_decide_ext. rewrite elem_of_union, elem_of_singleton. intuition congruence.
  - destruct (bool_decide (n ∈ running w)) eqn:Hin; cbn in *; rewrite Hc; cbn.
    + rewrite andb_true_r. apply bool_decide_eq_true in Hin.
      destruct (String.eqb_spec n name) as [->|Hn].
      * apply bool_decide_eq_false. rewrite elem_of_difference, elem_of_singleton.
        intuition congruence.
      * apply bool_decide_ext. rewrite elem_of_difference, elem_of_singleton.
        intuition congruence.
    + rewrite andb_false_r. reflexivity.
Qed.

Lemma story_running name w es w' :
  story h w es w' -> Forall plain_service es ->
  bool_decide (name ∈ running w')
  = fold_left (switch name) es (bool_decide (name ∈ running w)).
Proof.
  induction 1 as [|w e es w' Hc _ IH]; intros HQ; [reflexivity|].
  inversion HQ as [|? ? He Hes]; subst. cbn [fold_left].
  rewrite IH by assumption. cbn [running record].
  rewrite (effect_running name e w He Hc). reflexivity.
Qed.

Lemma exec_localfs dir c w : localfs (Sh.exec h false dir c w).2 = localfs w.
Proof.
  induction c as [r ws|pat|p c IHc|a ch m|a|r v|r v| |r t tg|pw f db hst port u np
                  |pw db b hst port u np|u l cf db|name up|a rd];
    cbn [Sh.exec]; try reflexivity.
  - destruct (Fs.is_file _ _); [reflexivity | auto].
  - destruct (_ !! _); reflexivity.
  - destruct (dbs w !! db); reflexivity.
  - destruct (_ !! _) as [[|[]]|]; reflexivity.
  - destruct (dbs w !! db); reflexivity.
  - destruct up; [reflexivity|]. destruct (bool_decide _); reflexivity.
  - destruct (localfs w !! _) as [[|]|]; try reflexivity.
    destruct (last _); try reflexivity.
    destruct (Fs.is_dir _ _); reflexivity.
Qed.

Lemma story_localfs w es w' :
  story h w es w' -> Forall (fun e => e_local e = false) es ->
  localfs w' = localfs w.
Proof.
  induction 1 as [|w e es w' Hc _ IH]; intros HQ; [reflexivity|].
  inversion HQ as [|? ? He Hes]; subst.
  rewrite IH by assumption. cbn [localfs record]. unfold effect.
  destruct (fault h _); [reflexivity|]. rewrite He.
  destruct (Fs.is_dir _ _); [apply exec_localfs|].
  destruct (e_cmd e); try reflexivity. apply exec_localfs.
Qed.

Lemma exec_dbs db loc dir c w d :
  only_db db c = true -> d ≠ db ->
  dbs (Sh.exec h loc dir c w).2 !! d = dbs w !! d.
Proof.
  induction c as [r ws|pat|p c IHc|a ch m|a|r v|r v| |r t tg|pw f d0 hst port u np
                  |pw d0 b hst port u np|u l cf d0|name up|a rd];
    cbn [Sh.exec only_db]; intros Hc Hd; try reflexivity.
  - destruct (Fs.is_file _ _); [reflexivity | auto].
  - destruct (get_fs loc w !! _); reflexivity.
  - destruct (dbs w !! _); reflexivity.
  - apply String.eqb_eq in Hc. subst.
    destruct (get_fs loc w !! _) as [[|[]]|]; try reflexivity.
    cbn. apply lookup_insert_ne. congruence.
  - apply String.eqb_eq in Hc. subst.
    destruct (dbs w !! _); [|reflexivity]. cbn. apply lookup_insert_ne. congruence.
  - destruct up; [reflexivity|]. destruct (bool_decide _); reflexivity.
  - destruct (localfs w !! _) as [[|]|]; try reflexivity.
    destruct (last _); try reflexivity.
    destruct (Fs.is_dir _ _); reflexivity.
Qed.

Lemma story_dbs db w es w' d :
  story h w es w' -> Forall (fun e => only_db db (e_cmd e) = true) es ->
  d ≠ db -> dbs w' !! d = dbs w !! d.
Proof.
  induction 1 as [|w e es w' Hc _ IH]; intros HQ Hd; [reflexivity|].
  inversion HQ as [|? ? He Hes]; subst.
  rewrite IH by assumption. cbn [dbs record]. unfold effect.
  destruct (fault h _); [reflexivity|].
  destruct (Fs.is_dir _ _); [apply (exec_dbs db); assumption|].
  destruct (e_cmd e); try reflexivity. apply (exec_dbs db); assumption.
Qed.



Lemma internal_kept version db backup nocreate e0 cw lcw :
  traced h (deploy_for_internal_testing h version db backup nocreate) e0 cw lcw
    (fun e => (plain_service e ∧ only_db db (e_cmd e) = true)
              ∧ e_local e = false ∧ e_sudo e = use_sudo e0).
Proof.
  open_tasks.
  trace idtac ltac:(cbn; rewrite ?String.eqb_refl; repeat split; first [left; reflexivity | right; eauto]).
Qed.

Lemma customer_kept tag db backup force e0 cw lcw :
  traced h (deploy_for_customer_testing h tag db backup force) e0 cw lcw
    (fun e => plain_service e ∧ only_db db (e_cmd e) = true).
Proof.
  open_tasks.
  trace idtac ltac:(cbn; rewrite ?String.eqb_refl; repeat split; first [left; reflexivity | right; eauto]).
Qed.

End Where.

(** ** The service after an aborted run *)

Lemma refused_nonzero l c :
  true = negb (accepts false l c) -> 0 ∈ l -> (c =? 0) = false.
Proof.
  unfold accepts. rewrite orb_false_r. intros H Hl.
  destruct (Z.eqb_spec c 0) as [->|]; [|reflexivity].
  rewrite bool_decide_eq_true_2 in H by assumption. discriminate.
Qed.

Lemma passed_zero c : false = negb (accepts false [0] c) -> (c =? 0) = true.
Proof.
  unfold accepts. rewrite orb_false_r. intros H.
  destruct (bool_decide (c ∈ [0])) eqn:E; [|discriminate].
  apply bool_decide_eq_true in E. apply list_elem_of_singleton in E. subst. reflexivity.
Qed.

Ltac leaf_service Hw Hok :=
  try discriminate;
  intros _;
  rewrite ?Hw, ?Hok in *;
  repeat match goal with
         | H : true = negb (accepts false ?l ?c) |- _ =>
             apply refused_nonzero in H;
             [ | first [ apply list_elem_of_here | apply list_elem_of_further, list_elem_of_here ] ]
         | H : false = negb (accepts false [0] ?c) |- _ => apply passed_zero in H
         end;
  cbn; rewrite ?String.eqb_refl; cbn;
  repeat match goal with
         | H : (_ =? 0) = _ |- _ => rewrite H
         end;
  cbn;
  repeat match goal with
         | |- context [?c =? 0] => destruct (c =? 0)
         end;
  cbn; rewrite ?andb_true_r, ?andb_false_r; reflexivity.

Section Switches.
Variable h : host.

Lemma internal_switch version db backup nocreate w b :
  strict (env w) ->
  completed (deploy_for_internal_testing h version db backup nocreate w) = false ->
  fold_left (switch (odoo_service (env w)))
    (added w (final (deploy_for_internal_testing h version db backup nocreate w))) b
  = b && negb (existsb stopped
                 (added w (final (deploy_for_internal_testing h version db backup nocreate w)))).
Proof.
  intros [Hw Hok].
  destruct (internal_script h version db backup nocreate w)
    as (sp & file & rc & _ & (es & Hj & Hc) & _).
  rewrite (added_app _ _ _ Hj).
  generalize dependent (completed (deploy_for_internal_testing h version db backup nocreate w)).
  intros d Hc. clear Hj.
  by_cases Hc; unroll Hc ltac:(leaf_service Hw Hok).
Qed.

End Switches.

Section Aborted.
Variable h : host.

Lemma customer_switch tag db backup force w b :
  strict (env w) ->
  completed (deploy_for_customer_testing h tag db backup force w) = false ->
  fold_left (switch (odoo_service (env w)))
    (added w (final (deploy_for_customer_testing h tag db backup force w))) b
  = b && negb (existsb stopped
                 (added w (final (deploy_for_customer_testing h tag db backup force w)))).
Proof.
  intros [Hw Hok].
  destruct (customer_script h tag db backup force w)
    as (sp & file & rc & _ & (es & Hj & Hc) & _).
  rewrite (added_app _ _ _ Hj).
  generalize dependent (completed (deploy_for_customer_testing h tag db backup force w)).
  intros d Hc. clear Hj.
  by_cases Hc; unroll Hc ltac:(leaf_service Hw Hok).
Qed.

Lemma service_of_switch (w : world) (o : outcome unit) :
  story h w (added w (final o)) (final o) ->
  Forall plain_service (added w (final o)) ->
  (completed o = false ->
   ∀ b, fold_left (switch (odoo_service (env w))) (added w (final o)) b
        = b && negb (existsb stopped (added w (final o)))) ->
  service_after_abort w o.
Proof.
  intros Hs HQ Hsw Hd.
  pose proof (story_running h (odoo_service (env w)) _ _ _ Hs HQ) as Hr.
  rewrite (Hsw Hd) in Hr.
  destruct (existsb stopped _); cbn in Hr.
  - rewrite andb_false_r in Hr. apply bool_decide_eq_false in Hr.
    split; [tauto | intros [_ [=]]].
  - rewrite andb_true_r in Hr.
    split.
    + intros Hin. split; [|reflexivity].
      pose proof (bool_decide_eq_true_2 _ Hin) as Hb. rewrite Hr in Hb.
      exact (bool_decide_eq_true_1 _ Hb).
    + intros [Hin _]. pose proof (bool_decide_eq_true_2 _ Hin) as Hb.
      rewrite <- Hr in Hb. exact (bool_decide_eq_true_1 _ Hb).
Qed.

(** Under Fabric's default policy an aborted run does not bring the service
    back: at its end the service runs exactly when it ran before and no
    stop command of the run exited with 0. *)
Theorem aborted_run_leaves_service (w : world) :
  strict (env w) ->
  (∀ version db backup do_not_create_branch,
     service_after_abort w
       (deploy_for_internal_testing h version db backup do_not_create_branch w))
  ∧ (∀ tag db backup force_export_tag,
       service_after_abort w
         (deploy_for_customer_testing h tag db backup force_export_tag w)).
Proof.
  intros Hs. split; intros.
  - destruct (traced_added h _ w _ (internal_kept h version db backup
                do_not_create_branch (env w) _ _)) as [HQ Hst].
    apply service_of_switch; [exact Hst | | ].
    + eapply Forall_impl; [exact HQ|]. cbn. tauto.
    + intros Hd b. apply internal_switch; assumption.
  - destruct (traced_added h _ w _ (customer_kept h tag db backup
                force_export_tag (env w) _ _)) as [HQ Hst].
    apply service_of_switch; [exact Hst | | ].
    + eapply Forall_impl; [exact HQ|]. cbn. tauto.
    + intros Hd b. apply customer_switch; assumption.
Qed.

End Aborted.

(** ** Where the commands run *)

Section Placed.
Variable h : host.


(** [deploy_for_internal_testing] issues remote commands only, each with
    [sudo] exactly when [env.use_sudo]; in [deploy_for_customer_testing] the
    guarded commands and the transfer are local, the guarded ones never
    with [sudo] and the transfer with [use_sudo=env.use_sudo]. *)
Theorem commands_issued_by_use_sudo (w : world) :
  (∀ version db backup do_not_create_branch,
     Forall (fun e => e_local e = false ∧ e_sudo e = use_sudo (env w))
       (added w (final (deploy_for_internal_testing h version db backup
                          do_not_create_branch w))))
  ∧ (∀ tag db backup force_export_tag,
       Forall (issued_as (env w))
         (added w (final (deploy_for_customer_testing h tag db backup
                            force_export_tag w)))).
Proof.
  split; intros.
  - eapply Forall_impl;
      [apply (traced_added h _ w _ (internal_kept h version db backup
                do_not_create_branch (env w) _ _))|].
    cbn. tauto.
  - apply (traced_added h _ w _ (customer_issued h _ _ _ _ _ _ _)).
Qed.

End Placed.

Section Nesting.
Variable h : host.




(** [upgrade_database] never aborts: under [smile_secure()] it runs
    warn-only with an empty list of accepted codes, so it returns the
    result of its one command whatever the exit code, and Fabric marks the
    result as failed even for the exit code 0; [env] is put back. *)
Theorem upgrade_database_reports (db : string) (w : world) :
  ∃ r w', upgrade_database h db w = Done r w'
    ∧ failed r = true
    ∧ env w' = env w
    ∧ ∃ e, added w w' = [e]
           ∧ e_cmd e = Upgrade (odoo_user (env w)) (odoo_launcher (env w))
                         (odoo_conf (env w)) db
           ∧ e_dir e = change_cwd (cwd (env w)) (sources_dir (env w))
           ∧ e_code e = return_code r
           ∧ e_fatal e = false.
Proof.
  unfold upgrade_database, smile_secure, smile_path, bind, ask.
  match goal with
  | |- context [sudo_or_run h ?c ?w0] =>
      destruct (sudo_or_run_cases h c w0) as (code & w1 & He & Hj & E & _);
      rewrite E; clear E; cbn in He, Hj |- *
  end.
  rewrite accepts_all. cbn.
  eexists _, _. split; [reflexivity|]. cbn. split; [reflexivity|].
  split.
  { rewrite He. destruct (env w); reflexivity. }
  eexists. split; [apply added_one; cbn; rewrite Hj; reflexivity|].
  cbn. rewrite accepts_all. repeat split; reflexivity.
Qed.

End Nesting.

(** A run whose savepoint fails, after the service was stopped: the
    service stays down. *)
Lemma aborted_run_witness :
  strict (env start)
  ∧ completed (deploy_for_internal_testing (failing 1 2 0) "1.2" "demo" None true start)
    = false
  ∧ "openerp-server" ∈ running start
  ∧ "openerp-server" ∉
      running (final (deploy_for_internal_testing (failing 1 2 0) "1.2" "demo" None
                        true start)).
Proof.
  split; [split; reflexivity|]. split; [vm_compute; reflexivity|].
  split; [vm_compute; reflexivity|].
  intros Hin.
  apply (proj1 (aborted_run_leaves_service (failing 1 2 0) start (conj eq_refl eq_refl))
           "1.2" "demo" None true) in Hin; [|vm_compute; reflexivity].
  destruct Hin as [_ Hin]. vm_compute in Hin. discriminate Hin.
Defined.



(** ** [env] after a task *)

(** The body of a task leaves the merged [env] as it found it: the context
    managers of [smile_path] and [smile_secure] put the working directories
    and the policy back, also when Fabric aborts the run. *)
Theorem tasks_restore_env (h : host) (w : world) :
  (∀ version db backup do_not_create_branch,
     env (final (deploy_for_internal_testing h version db backup
                   do_not_create_branch w)) = env w)
  ∧ (∀ tag db backup force_export_tag,
       env (final (deploy_for_customer_testing h tag db backup
                     force_export_tag w)) = env w).
Proof.
  split; intros.
  - apply (internal_issued h version db backup do_not_create_branch (env w)
             (cwd (env w)) (lcwd (env w)) w (based_start w)).
  - apply (customer_issued h tag db backup force_export_tag (env w)
             (cwd (env w)) (lcwd (env w)) w (based_start w)).
Qed.

(** ** Removing files *)

Lemma strip_prefix_spec p : ∀ q r, Path.strip_prefix p q = Some r ↔ q = p ++ r.
Proof.
  induction p as [|a p IH]; intros q r; cbn.
  - split; [intros [= ->]; reflexivity | intros ->; reflexivity].
  - destruct q as [|b q].
    + split; [discriminate | discriminate].
    + destruct (String.eqb_spec a b) as [->|Hab].
      * rewrite IH. split; [intros ->; reflexivity | intros [= ->]; reflexivity].
      * split; [discriminate | intros [= -> _]; contradiction].
Qed.

Lemma elem_of_entries fs dir n x :
  (n, x) ∈ Fs.entries fs dir ↔ fs !! (dir ++ [n]) = Some x.
Proof.
  unfold Fs.entries. rewrite list_elem_of_omap. split.
  - intros ([q y] & Hin & Hm). cbn in Hm.
    destruct (Path.strip_prefix dir q) as [[|m [|]]|] eqn:E; try discriminate.
    injection Hm as -> ->. apply strip_prefix_spec in E. subst q.
    apply elem_of_map_to_list in Hin. exact Hin.
  - intros H. exists (dir ++ [n], x). split.
    + apply elem_of_map_to_list. exact H.
    + cbn. rewrite (proj2 (strip_prefix_spec dir (dir ++ [n]) [n]) eq_refl).
      reflexivity.
Qed.

Lemma elem_of_visible fs dir n x :
  (n, x) ∈ Fs.visible fs dir
  ↔ fs !! (dir ++ [n]) = Some x ∧ Path.hidden n = false.
Proof.
  unfold Fs.visible. rewrite list_elem_of_In, filter_In, <- list_elem_of_In. cbn.
  rewrite elem_of_entries, negb_true_iff. tauto.
Qed.

(** *** [rm] *)

Lemma rm_one_flag r st p : st.2 = true -> (Sh.rm_one r st p).2 = true.
Proof.
  unfold Sh.rm_one. intros H.
  destruct (st.1 !! p) as [[|]|]; [destruct r| |]; cbn; auto.
Qed.

Lemma rm_one_shrinks r st p q x :
  (Sh.rm_one r st p).1 !! q = Some x -> st.1 !! q = Some x.
Proof.
  unfold Sh.rm_one.
  destruct (st.1 !! p) as [[|]|] eqn:E; [destruct r| |]; cbn; auto.
  - unfold Fs.remove_tree. rewrite map_lookup_filter_Some. tauto.
  - rewrite lookup_delete_Some. tauto.
Qed.

Lemma rm_one_frame r st p q :
  ¬ p `prefix_of` q -> (Sh.rm_one r st p).1 !! q = st.1 !! q.
Proof.
  intros Hp. unfold Sh.rm_one.
  destruct (st.1 !! p) as [[|]|] eqn:E; [destruct r| |]; cbn; auto.
  - unfold Fs.remove_tree.
    destruct (st.1 !! q) as [y|] eqn:Eq.
    + apply map_lookup_filter_Some. split; [exact Eq | exact Hp].
    + apply map_lookup_filter_None. left. exact Eq.
  - apply lookup_delete_ne. intros ->. apply Hp. reflexivity.
Qed.

Lemma rm_one_gone r st p :
  (Sh.rm_one r st p).2 = false -> (Sh.rm_one r st p).1 !! p = None.
Proof.
  unfold Sh.rm_one.
  destruct (st.1 !! p) as [[|]|] eqn:E; [destruct r| |]; cbn; auto.
  - intros _. unfold Fs.remove_tree. apply map_lookup_filter_None.
    right. intros y _ Hn. apply Hn. reflexivity.
  - discriminate.
  - intros _. apply lookup_delete_eq.
Qed.


Lemma rm_fold_shrinks r targets : ∀ st q x,
  (fold_left (Sh.rm_one r) targets st).1 !! q = Some x -> st.1 !! q = Some x.
Proof.
  induction targets as [|p ts IH]; intros st q x; cbn; [auto|].
  intros H. apply IH in H. eapply rm_one_shrinks. exact H.
Qed.

Lemma rm_fold_frame r targets q : ∀ st,
  Forall (fun p => ¬ p `prefix_of` q) targets ->
  (fold_left (Sh.rm_one r) targets st).1 !! q = st.1 !! q.
Proof.
  induction targets as [|p ts IH]; intros st H; cbn; [reflexivity|].
  inversion H as [|? ? Hp Hts]; subst.
  rewrite IH by assumption. apply rm_one_frame. exact Hp.
Qed.

Lemma rm_fold_flag r targets : ∀ st,
  st.2 = true -> (fold_left (Sh.rm_one r) targets st).2 = true.
Proof.
  induction targets as [|p ts IH]; intros st H; cbn; [exact H|].
  apply IH. apply rm_one_flag. exact H.
Qed.

Lemma rm_fold_gone r targets : ∀ st p,
  (fold_left (Sh.rm_one r) targets st).2 = false -> p ∈ targets ->
  (fold_left (Sh.rm_one r) targets st).1 !! p = None.
Proof.
  induction targets as [|t ts IH]; intros st p Hf Hin; cbn in *.
  - inversion Hin.
  - apply elem_of_cons in Hin. destruct Hin as [->|Hin]; [|auto].
    destruct ((fold_left (Sh.rm_one r) ts (Sh.rm_one r st t)).1 !! t) eqn:E;
      [|reflexivity].
    apply rm_fold_shrinks in E.
    rewrite rm_one_gone in E; [discriminate|].
    destruct (Sh.rm_one r st t).2 eqn:E2; [|reflexivity].
    rewrite rm_fold_flag in Hf by exact E2. discriminate.
Qed.

Lemma rm_shrinks r targets fs q x :
  (Sh.rm r targets fs).2 !! q = Some x -> fs !! q = Some x.
Proof. unfold Sh.rm. cbn. apply rm_fold_shrinks. Qed.

Lemma rm_frame r targets fs q :
  Forall (fun p => ¬ p `prefix_of` q) targets ->
  (Sh.rm r targets fs).2 !! q = fs !! q.
Proof. unfold Sh.rm. cbn. intros H. rewrite rm_fold_frame by exact H. reflexivity. Qed.

Lemma rm_gone r targets fs p :
  (Sh.rm r targets fs).1 = 0 -> p ∈ targets -> (Sh.rm r targets fs).2 !! p = None.
Proof.
  unfold Sh.rm. cbn. intros H Hin. apply rm_fold_gone; [|exact Hin].
  destruct (fold_left _ _ _).2; [discriminate | reflexivity].
Qed.


(** ** [_clean_sources_dir] *)

Section Clean.
Variable h : host.

Lemma expand_star_in fs hm dir n x :
  (n, x) ∈ Fs.visible fs dir -> dir ++ [n] ∈ Sh.expand fs hm dir Star.
Proof.
  intros H. unfold Sh.expand. destruct (Fs.visible fs dir) as [|e es] eqn:E.
  - inversion H.
  - apply list_elem_of_In, in_map_iff. exists (n, x).
    split; [reflexivity | apply list_elem_of_In; exact H].
Qed.

Lemma expand_swept fs hm dir wd p :
  match wd with Lit s => s = ".svn" | _ => True end ->
  p ∈ Sh.expand fs hm dir wd -> ∃ m, p = dir ++ [m] ∧ swept m.
Proof.
  intros Hw Hin. destruct wd as [s| |]; unfold Sh.expand in Hin.
  - subst s. apply list_elem_of_singleton in Hin. subst p.
    exists ".svn". split; [reflexivity | right; reflexivity].
  - destruct (Fs.visible fs dir) as [|e es] eqn:E.
    + apply list_elem_of_singleton in Hin. subst p. exists "*".
      split; [reflexivity | left; reflexivity].
    + apply list_elem_of_In, in_map_iff in Hin. destruct Hin as ([m y] & <- & Hin).
      exists m. split; [reflexivity|]. left.
      rewrite <- E in Hin. apply list_elem_of_In, elem_of_visible in Hin. tauto.
  - destruct (List.filter _ (Fs.visible fs dir)) as [|e es] eqn:E.
    + apply list_elem_of_singleton in Hin. subst p. exists "*".
      split; [reflexivity | left; reflexivity].
    + apply list_elem_of_In, in_map_iff in Hin. destruct Hin as ([m y] & <- & Hin).
      exists m. split; [reflexivity|]. left.
      rewrite <- E in Hin. apply filter_In in Hin.
      destruct Hin as [Hin _]. apply list_elem_of_In, elem_of_visible in Hin. tauto.
Qed.

Lemma spared_frame r targets fs (dir q : list string) :
  (∀ p, p ∈ targets -> ∃ m, p = dir ++ [m] ∧ swept m) ->
  (∀ n, (dir ++ [n]) `prefix_of` q -> ¬ swept n) ->
  (Sh.rm r targets fs).2 !! q = fs !! q.
Proof.
  intros Ht Hq. apply rm_frame. apply Forall_forall. intros p Hp Hpre.
  destruct (Ht p Hp) as (m & -> & Hm). exact (Hq m Hpre Hm).
Qed.

(** One [rm] of [_clean_sources_dir] that passed Fabric's default policy. *)
Lemma rm_step r ws w res w' :
  strict (env w) -> sudo_or_run h (Rm r ws) w = Done res w' ->
  let dir := Path.resolve (home h) (home h) (cwd (env w)) in
  let R := Sh.rm r (List.concat (List.map (Sh.expand (remote w) (home h) dir) ws))
             (remote w) in
  R.1 = 0 ∧ remote w' = R.2 ∧ env w' = env w ∧ localfs w' = localfs w
  ∧ dbs w' = dbs w ∧ running w' = running w.
Proof.
  intros Hs E. apply (sudo_or_run_done h) in E; [|exact Hs|reflexivity].
  destruct E as (w1 & X & -> & _). cbn [Sh.exec get_fs] in X.
  injection X as X1 X2. subst w1. cbn. repeat split; try reflexivity; assumption.
Qed.

Lemma xargs_step pat w res w' :
  strict (env w) -> sudo_or_run h (LsGrepXargsRm pat) w = Done res w' ->
  let dir := Path.resolve (home h) (home h) (cwd (env w)) in
  let R := Sh.rm false
             (List.map (fun n => dir ++ [n])
                (List.filter (Sh.grep pat) (List.map fst (Fs.visible (remote w) dir))))
             (remote w) in
  remote w' = R.2 ∧ env w' = env w ∧ localfs w' = localfs w
  ∧ dbs w' = dbs w ∧ running w' = running w.
Proof.
  intros Hs E. apply (sudo_or_run_done h) in E; [|exact Hs|reflexivity].
  destruct E as (w1 & X & -> & _). cbn [Sh.exec get_fs] in X.
  injection X as X1 X2. subst w1. cbn. repeat split; try reflexivity; assumption.
Qed.

Lemma strict_at w w' : env w' = env w -> strict (env w) -> strict (env w').
Proof. intros ->. trivial. Qed.

(** [_clean_sources_dir], when it returns under Fabric's default policy:
    the sources directory has no visible entry left and no [.svn]; every
    place that is not below a visible entry of the directory or below its
    [.svn] is as it was (the hidden entries other than [.svn] stay); the
    local files, the databases and the services are untouched. *)
Theorem clean_sources_dir_effect (w w' : world) :
  strict (env w) -> _clean_sources_dir h w = Done tt w' ->
  let dir := sources_place h (env w) in
  Fs.visible (remote w') dir = []
  ∧ remote w' !! (dir ++ [".svn"]) = None
  ∧ (∀ q, (∀ n, (dir ++ [n]) `prefix_of` q -> ¬ swept n) ->
          remote w' !! q = remote w !! q)
  ∧ localfs w' = localfs w ∧ dbs w' = dbs w ∧ running w' = running w.
Proof.
  intros Hs E. cbv zeta. unfold _clean_sources_dir, smile_path in E.
  set (w0 := set_env _ w) in E.
  assert (strict (env w0)) as Hs0 by (destruct Hs; split; assumption).
  assert (Path.resolve (home h) (home h) (cwd (env w0)) = sources_place h (env w))
    as Hdir by reflexivity.
  assert (remote w0 = remote w ∧ localfs w0 = localfs w ∧ dbs w0 = dbs w
          ∧ running w0 = running w) as (Hr0 & Hl0 & Hd0 & Hn0) by auto.
  set (dir := sources_place h (env w)) in *. clearbody w0 dir.
  match type of E with
  | match ?m w0 with _ => _ end = _ => destruct (m w0) as [[] wf|wf] eqn:E0
  end; [|discriminate].
  injection E as <-. cbn [remote localfs dbs running set_env].
  apply bind_done in E0. destruct E0 as (r1 & w1 & E1 & E0).
  apply rm_step in E1; [|exact Hs0]. cbv zeta in E1. rewrite Hdir in E1.
  destruct E1 as (_ & R1 & He1 & L1 & D1 & N1).
  apply bind_done in E0. destruct E0 as (r2 & w2 & E2 & E0).
  apply rm_step in E2; [|exact (strict_at _ _ He1 Hs0)]. cbv zeta in E2.
  rewrite He1, Hdir in E2. destruct E2 as (C2 & R2 & He2 & L2 & D2 & N2).
  apply bind_done in E0. destruct E0 as (r3 & w3 & E3 & E0).
  assert (env w2 = env w0) as He20 by congruence.
  apply rm_step in E3; [|exact (strict_at _ _ He20 Hs0)]. cbv zeta in E3.
  rewrite He20, Hdir in E3. destruct E3 as (C3 & R3 & He3 & L3 & D3 & N3).
  apply bind_done in E0. destruct E0 as (r4 & w4 & E4 & E0).
  assert (env w3 = env w0) as He30 by congruence.
  apply xargs_step in E4; [|exact (strict_at _ _ He30 Hs0)]. cbv zeta in E4.
  rewrite He30, Hdir in E4. destruct E4 as (R4 & He4 & L4 & D4 & N4).
  injection E0 as <-.
  cbn [List.map List.concat] in R1, R2, R3, C2, C3. rewrite app_nil_r in *.
  split; [|split; [|split; [|repeat split; congruence]]].
  - destruct (Fs.visible (remote w4) dir) as [|[n x] l] eqn:Ev; [reflexivity|].
    exfalso.
    assert ((n, x) ∈ Fs.visible (remote w4) dir) as Hin
      by (rewrite Ev; apply list_elem_of_here).
    apply elem_of_visible in Hin. destruct Hin as [Hx Hh].
    rewrite R4 in Hx. apply rm_shrinks in Hx.
    assert ((n, x) ∈ Fs.visible (remote w2) dir) as Hv.
    { apply elem_of_visible. split; [|exact Hh].
      rewrite R3 in Hx. apply rm_shrinks in Hx. exact Hx. }
    rewrite R3 in Hx. rewrite rm_gone in Hx; [discriminate | exact C3 |].
    eapply expand_star_in. exact Hv.
  - destruct (remote w4 !! (dir ++ [".svn"])) as [x|] eqn:Ex; [|reflexivity].
    exfalso. rewrite R4 in Ex. apply rm_shrinks in Ex.
    rewrite R3 in Ex. apply rm_shrinks in Ex.
    rewrite R2 in Ex. rewrite rm_gone in Ex; [discriminate | exact C2 |].
    apply list_elem_of_here.
  - intros q Hq. rewrite R4, (spared_frame _ _ _ dir q); [| |exact Hq].
    2:{ intros p Hp. apply list_elem_of_In, in_map_iff in Hp.
        destruct Hp as (m & <- & Hm).
        exists m. split; [reflexivity|]. left.
        apply filter_In in Hm. destruct Hm as [Hm _].
        apply in_map_iff in Hm.
        destruct Hm as ([m' y] & <- & Hm).
        apply list_elem_of_In, elem_of_visible in Hm. tauto. }
    rewrite R3, (spared_frame _ _ _ dir q); [| |exact Hq].
    2:{ intros p Hp. eapply expand_swept; [|exact Hp]. exact I. }
    rewrite R2, (spared_frame _ _ _ dir q); [| |exact Hq].
    2:{ intros p Hp. eapply (expand_swept _ _ _ (Lit ".svn")); [reflexivity|exact Hp]. }
    rewrite R1, (spared_frame _ _ _ dir q); [| |exact Hq].
    2:{ intros p Hp. eapply expand_swept; [|exact Hp]. exact I. }
    congruence.
Qed.

End Clean.

(** ** What the tasks leave alone *)

Section Frame.
Variable h : host.

Lemma switch_other name es : ∀ b,
  Forall (fun e => only_service name (e_cmd e) = true) es ->
  ∀ n, n ≠ name -> fold_left (switch n) es b = b.
Proof.
  induction es as [|e es IH]; intros b H n Hn; [reflexivity|].
  inversion H as [|? ? He Hes]; subst. cbn [fold_left].
  rewrite IH by assumption. unfold switch.
  destruct (e_cmd e); try reflexivity. cbn in He.
  apply String.eqb_eq in He. subst.
  destruct (String.eqb_spec name n); [congruence | reflexivity].
Qed.

Lemma internal_scoped version db backup nocreate e0 cw lcw :
  traced h (deploy_for_internal_testing h version db backup nocreate) e0 cw lcw
    (fun e => only_service (odoo_service e0) (e_cmd e) = true).
Proof. open_tasks. trace idtac ltac:(cbn; rewrite ?String.eqb_refl; reflexivity). Qed.

Lemma customer_scoped tag db backup force e0 cw lcw :
  traced h (deploy_for_customer_testing h tag db backup force) e0 cw lcw
    (fun e => only_service (odoo_service e0) (e_cmd e) = true).
Proof. open_tasks. trace idtac ltac:(cbn; rewrite ?String.eqb_refl; reflexivity). Qed.

End Frame.

Section Frame2.
Variable h : host.

Lemma spares_of_story db w (o : outcome unit) :
  story h w (added w (final o)) (final o) ->
  Forall (fun e => plain_service e ∧ only_db db (e_cmd e) = true)
    (added w (final o)) ->
  Forall (fun e => only_service (odoo_service (env w)) (e_cmd e) = true)
    (added w (final o)) ->
  spares db w (final o).
Proof.
  intros Hs HQ Hsc. split.
  - intros d Hd. apply (story_dbs h db _ _ _ _ Hs); [|exact Hd].
    eapply Forall_impl; [exact HQ|]. cbn. tauto.
  - intros n Hn.
    assert (Forall plain_service (added w (final o))) as Hp
      by (eapply Forall_impl; [exact HQ|]; cbn; tauto).
    pose proof (story_running h n _ _ _ Hs Hp) as Hr.
    rewrite (switch_other _ _ _ Hsc n Hn) in Hr.
    split; intros Hin.
    + pose proof (bool_decide_eq_true_2 _ Hin) as Hb. rewrite Hr in Hb.
      exact (bool_decide_eq_true_1 _ Hb).
    + pose proof (bool_decide_eq_true_2 _ Hin) as Hb. rewrite <- Hr in Hb.
      exact (bool_decide_eq_true_1 _ Hb).
Qed.

(** What the tasks leave alone, on every exit: every database but the one
    named, every service but [env.odoo_service], and, for
    [deploy_for_internal_testing], the local files. *)
Theorem tasks_spare_the_rest (w : world) :
  (∀ version db backup do_not_create_branch,
     let o := deploy_for_internal_testing h version db backup
                do_not_create_branch w in
     spares db w (final o) ∧ localfs (final o) = localfs w)
  ∧ (∀ tag db backup force_export_tag,
       spares db w
         (final (deploy_for_customer_testing h tag db backup force_export_tag w))).
Proof.
  split; intros; cbv zeta.
  - destruct (traced_added h _ w _ (internal_kept h version db backup
                do_not_create_branch (env w) _ _)) as [HQ Hst].
    destruct (traced_added h _ w _ (internal_scoped h version db backup
                do_not_create_branch (env w) _ _)) as [Hsc _].
    split.
    + apply spares_of_story; [exact Hst | | exact Hsc].
      eapply Forall_impl; [exact HQ|]. cbn. tauto.
    + apply (story_localfs h _ _ _ Hst).
      eapply Forall_impl; [exact HQ|]. cbn. tauto.
  - destruct (traced_added h _ w _ (customer_kept h tag db backup
                force_export_tag (env w) _ _)) as [HQ Hst].
    destruct (traced_added h _ w _ (customer_scoped h tag db backup
                force_export_tag (env w) _ _)) as [Hsc _].
    apply spares_of_story; assumption.
Qed.




End Frame2.

(** The cluttered server: after the cleaning nothing visible is left in
    /opt/openerp, nor the metadata of the checkout, and /home is as it
    was. *)
Lemma clean_sources_dir_witness :
  let w' := final (_clean_sources_dir (site 0) start_cluttered) in
  strict (env start_cluttered)
  ∧ _clean_sources_dir (site 0) start_cluttered = Done tt w'
  ∧ Fs.visible (remote w') sources = []
  ∧ remote w' !! (sources ++ [".svn"]) = None
  ∧ remote w' !! ["home"; "postgres"] = remote start_cluttered !! ["home"; "postgres"].
Proof.
  cbv zeta.
  assert (_clean_sources_dir (site 0) start_cluttered
          = Done tt (final (_clean_sources_dir (site 0) start_cluttered))) as E
    by (vm_compute; reflexivity).
  destruct (clean_sources_dir_effect (site 0) start_cluttered _
              (conj eq_refl eq_refl) E) as (Hv & Hs & Hf & _).
  split; [split; reflexivity|]. split; [exact E|].
  split; [exact Hv|]. split; [exact Hs|].
  apply Hf. intros n Hpre. apply prefix_cons_inv_1 in Hpre. discriminate Hpre.
Defined.

(** ** Joining and resolving paths *)

Section Paths.
Import VersionFacts.

Lemma ends_with_slash_cons c c' a :
  Path.ends_with_slash (String c (String c' a)) = Path.ends_with_slash (String c' a).
Proof.
  unfold Path.ends_with_slash. cbn [String.length Nat.sub String.get].
  rewrite Nat.sub_0_r. reflexivity.
Qed.

Lemma pieces_split a : ∀ acc,
  ∃ init open,
    Path.pieces a acc = init ++ [open]
    ∧ (∀ b, Path.pieces (a +:+ b) acc = init ++ Path.pieces b open)
    ∧ (Path.ends_with_slash a = true -> open = "").
Proof.
  induction a as [|c a IH]; intros acc.
  - exists [], acc. repeat split; try reflexivity. discriminate.
  - cbn [Path.pieces]. destruct (Ascii.eqb c "/") eqn:Ec.
    + destruct (IH "") as (init & op & H1 & H2 & H3).
      exists (acc :: init), op. split; [rewrite H1; reflexivity|]. split.
      * intros b. rewrite append_cons. cbn [Path.pieces]. rewrite Ec, H2. reflexivity.
      * intros He. destruct a as [|c' a'].
        -- cbn in H1. destruct init as [|? [|]]; cbn in H1; congruence.
        -- apply H3. rewrite ends_with_slash_cons in He. exact He.
    + destruct (IH (acc +:+ String c "")) as (init & op & H1 & H2 & H3).
      exists init, op. split; [exact H1|]. split.
      * intros b. rewrite append_cons. cbn [Path.pieces]. rewrite Ec, H2. reflexivity.
      * intros He. destruct a as [|c' a'].
        -- unfold Path.ends_with_slash in He. cbn in He. congruence.
        -- apply H3. rewrite ends_with_slash_cons in He. exact He.
Qed.

Lemma components_append a b :
  Path.components (a +:+ "/" +:+ b) = Path.components a ++ Path.components b.
Proof.
  unfold Path.components.
  destruct (pieces_split a "") as (init & op & H1 & H2 & _).
  rewrite H2, H1.
  change ("/" +:+ b) with (String "/" b). cbn [Path.pieces].
  change (Ascii.eqb "/" "/") with true. cbv iota.
  rewrite !List.filter_app. cbn [List.filter].
  destruct (Path.proper op); rewrite <- ?app_assoc; reflexivity.
Qed.

Lemma components_slashed a b :
  Path.ends_with_slash a = true ->
  Path.components (a +:+ b) = Path.components a ++ Path.components b.
Proof.
  intros He. unfold Path.components.
  destruct (pieces_split a "") as (init & op & H1 & H2 & H3).
  rewrite H2, H1, (H3 He). rewrite !List.filter_app. cbn [List.filter].
  change (Path.proper "") with false. cbv iota. rewrite app_nil_r. reflexivity.
Qed.

Lemma resolve_absolute hm base s :
  Path.is_absolute s = true -> Path.resolve hm base s = Path.components s.
Proof. intros H. unfold Path.resolve. rewrite H. reflexivity. Qed.

Lemma is_absolute_append a b :
  Path.is_absolute a = true -> Path.is_absolute (a +:+ b) = true.
Proof. destruct a as [|c a]; [discriminate|]. rewrite append_cons. trivial. Qed.

(** The path [os.path.join] builds from an absolute directory names, from
    anywhere, the place a relative name has inside that directory. *)
Lemma join_resolves hm base bd s :
  Path.is_absolute bd = true -> untilded s ->
  Path.resolve hm base (Path.join bd s) = Path.resolve hm (Path.components bd) s.
Proof.
  intros Ha Ht. unfold Path.join.
  destruct (Path.is_absolute s) eqn:Es.
  - rewrite !resolve_absolute by assumption. reflexivity.
  - assert (Path.resolve hm (Path.components bd) s
            = Path.components bd ++ Path.components s) as ->.
    { unfold Path.resolve. rewrite Es.
      destruct (Path.components s) as [|c cs] eqn:Ec; [reflexivity|].
      destruct (String.eqb_spec c "~") as [->|Hc]; [destruct (Ht cs Ec)|].
      destruct c as [|[[] [] [] [] [] [] [] []] [|]]; try reflexivity.
      exfalso. apply Hc. reflexivity. }
    destruct (String.eqb bd "" || Path.ends_with_slash bd) eqn:E.
    + rewrite resolve_absolute by (apply is_absolute_append; exact Ha).
      apply orb_true_iff in E. destruct E as [E|E].
      * apply String.eqb_eq in E. subst. discriminate.
      * apply components_slashed. exact E.
    + rewrite resolve_absolute.
      * apply components_append.
      * apply is_absolute_append. exact Ha.
Qed.

End Paths.

(** ** A dump and its restore *)

Section RoundTrip.
Variable h : host.

Lemma issue_done_dir loc sd c w r w' :
  strict (env w) -> guarded c = false -> issue h loc sd c w = Done r w' ->
  fault h (length (journal w)) = None
  ∧ Fs.is_dir (get_fs loc w)
      (Path.resolve (if loc then lhome h else home h)
         (if loc then lhome h else home h)
         (if loc then lcwd (env w) else cwd (env w))) = true.
Proof.
  intros [Hw Hc] Hg. unfold issue. rewrite Hw, Hc.
  destruct (fault h _) as [p|].
  { cbn. rewrite bool_decide_eq_false_2; [discriminate|].
    intros Hin. apply list_elem_of_singleton in Hin. discriminate. }
  destruct (Fs.is_dir _ _); [split; reflexivity|].
  destruct c; try discriminate Hg; cbn;
    (rewrite bool_decide_eq_false_2; [discriminate|]);
    intros Hin; apply list_elem_of_singleton in Hin; discriminate.
Qed.

Lemma sudo_or_run_done_dir c w r w' :
  strict (env w) -> guarded c = false -> sudo_or_run h c w = Done r w' ->
  fault h (length (journal w)) = None
  ∧ Fs.is_dir (remote w) (Path.resolve (home h) (home h) (cwd (env w))) = true.
Proof.
  intros Hs Hg. unfold sudo_or_run, bind, ask, sudo, run.
  destruct (use_sudo (env w)); intros H; exact (issue_done_dir _ _ _ _ _ _ Hs Hg H).
Qed.

(** A command the host lets through, in a directory that exists. *)
Lemma sudo_or_run_runs c w :
  fault h (length (journal w)) = None ->
  Fs.is_dir (remote w) (Path.resolve (home h) (home h) (cwd (env w))) = true ->
  ∃ x, final (sudo_or_run h c w)
       = record x (Sh.exec h false (Path.resolve (home h) (home h) (cwd (env w))) c w).2.
Proof.
  intros Hf Hd. unfold sudo_or_run, bind, ask, sudo, run.
  destruct (use_sudo (env w)); unfold issue; rewrite Hf; cbn [get_fs]; rewrite Hd;
    match goal with
    | |- context [if ?b then Fatal _ else _] => destruct b
    end; eexists; reflexivity.
Qed.

Lemma backup_place_absolute e :
  Path.is_absolute (backup_dir e) = true ->
  backup_place h e = Path.components (backup_dir e).
Proof.
  intros Ha. unfold backup_place. rewrite (change_cwd_absolute _ _ Ha).
  apply resolve_absolute. exact Ha.
Qed.

(** What [dump_database] has done when it returns under Fabric's default
    policy. *)
Lemma dump_database_done db w path w1 :
  strict (env w) -> dump_database h db w = Done path w1 ->
  let file := Claim.dump_name h db w in
  ∃ st, dbs w !! db = Some st
        ∧ path = Path.join (backup_dir (env w)) file
        ∧ remote w1
          = <[Path.resolve (home h) (backup_place h (env w)) file := File (Dump st)]>
              (remote w)
        ∧ Fs.is_dir (remote w) (backup_place h (env w)) = true
        ∧ env w1 = env w ∧ dbs w1 = dbs w ∧ running w1 = running w
        ∧ localfs w1 = localfs w.
Proof.
  intros Hs E. cbv zeta. unfold dump_database, smile_path in E.
  set (w0 := set_env _ w) in E.
  assert (strict (env w0)) as Hs0 by (destruct Hs; split; assumption).
  match type of E with
  | match ?m w0 with _ => _ end = _ => destruct (m w0) as [p wf|wf] eqn:E0
  end; [|discriminate].
  injection E as <- <-.
  unfold bind, time_strftime, ask in E0.
  match type of E0 with
  | match sudo_or_run h ?c ?w' with _ => _ end = _ =>
      destruct (sudo_or_run h c w') as [r w2|w2] eqn:E1
  end; [|discriminate].
  injection E0 as <- <-.
  pose proof E1 as Hd. apply sudo_or_run_done_dir in Hd as [_ Hd];
    [|exact Hs0|reflexivity].
  apply (sudo_or_run_done h) in E1; [|exact Hs0|reflexivity].
  destruct E1 as (w1 & X & -> & _). cbn [Sh.exec] in X.
  change (dbs w0) with (dbs w) in X.
  destruct (dbs w !! db) as [st|]; [|discriminate].
  injection X as <-. exists st. cbn.
  repeat split; try reflexivity.
  - exact Hd.
  - destruct (env w); reflexivity.
Qed.

(** [restore_database] on a host that lets the command through, with the
    backup directory in place and a dump at the path given. *)
Lemma restore_database_reads db b st w :
  fault h (length (journal w)) = None ->
  Fs.is_dir (remote w) (backup_place h (env w)) = true ->
  remote w !! Path.resolve (home h) (backup_place h (env w)) b
  = Some (File (Dump st)) ->
  dbs (final (restore_database h db b w)) = <[db := st]> (dbs w).
Proof.
  intros Hf Hd Hb.
  unfold restore_database, smile_secure, smile_path, bind, ask.
  match goal with
  | |- context [sudo_or_run h ?c ?w0] =>
      destruct (sudo_or_run_runs c w0 Hf Hd) as (x & Hx);
      destruct (sudo_or_run h c w0) as [r wf|wf]
  end; cbn [final] in Hx; subst wf; cbn [final ret dbs set_env record];
    rewrite exec_set_env; cbn [snd dbs set_env Sh.exec get_fs];
    change (Path.resolve (home h) (home h) _) with (backup_place h (env w));
    change (remote (set_env _ w)) with (remote w);
    rewrite Hb; reflexivity.
Qed.

(** [dump_database], then [restore_database] with the path it returned:
    with an absolute [backup_dir], a dump that returns under Fabric's
    default policy has written the state of the database to a file in the
    backup directory, and a later restore from the returned path, on a
    host that lets the command through and still has that file, sets the
    database to that state. *)
Theorem dump_then_restore (db path : string) (w w1 : world) :
  strict (env w) ->
  Path.is_absolute (backup_dir (env w)) = true ->
  untilded (Claim.dump_name h db w) ->
  dump_database h db w = Done path w1 ->
  let place := backup_place h (env w) in
  let file := Path.resolve (home h) place (Claim.dump_name h db w) in
  ∃ st, dbs w !! db = Some st
        ∧ remote w1 !! file = Some (File (Dump st))
        ∧ ∀ w2, env w2 = env w ->
                fault h (length (journal w2)) = None ->
                Fs.is_dir (remote w2) place = true ->
                remote w2 !! file = remote w1 !! file ->
                dbs (final (restore_database h db path w2)) = <[db := st]> (dbs w2).
Proof.
  intros Hs Ha Ht E. cbv zeta.
  destruct (dump_database_done db w path w1 Hs E)
    as (st & Hst & -> & Hr & Hd & _).
  assert (remote w1 !! Path.resolve (home h) (backup_place h (env w))
                         (Claim.dump_name h db w) = Some (File (Dump st))) as H1
    by (rewrite Hr; apply lookup_insert_eq).
  exists st. split; [exact Hst|]. split; [exact H1|].
  intros w2 He2 Hf Hd2 Hr2.
  apply restore_database_reads; rewrite ?He2; try assumption.
  rewrite join_resolves by assumption.
  rewrite <- (backup_place_absolute _ Ha). congruence.
Qed.

End RoundTrip.


(** ** Which backup is restored *)

Ltac leaf_flow :=
  unfold backup_flow, Script.staged in *; cbn;
  repeat match goal with
         | H : nonempty _ = _ |- _ => rewrite H
         end;
  cbn; rewrite ?String.eqb_refl; cbn;
  split; first [reflexivity | lia | repeat constructor; eauto].

Section Flow.
Variable h : host.

Lemma internal_flow version db backup nocreate w :
  backup_flow (env w) db backup
    (added w (final (deploy_for_internal_testing h version db backup nocreate w))).
Proof.
  destruct (internal_script h version db backup nocreate w)
    as (sp & file & rc & _ & (es & Hj & Hc) & _).
  rewrite (added_app _ _ _ Hj).
  generalize dependent (completed (deploy_for_internal_testing h version db backup nocreate w)).
  intros d Hc. clear Hj.
  by_cases Hc; unroll Hc leaf_flow.
Qed.

Lemma customer_flow tag db backup force w :
  backup_flow (env w) db backup
    (added w (final (deploy_for_customer_testing h tag db backup force w))).
Proof.
  destruct (customer_script h tag db backup force w)
    as (sp & file & rc & _ & (es & Hj & Hc) & _).
  rewrite (added_app _ _ _ Hj).
  generalize dependent (completed (deploy_for_customer_testing h tag db backup force w)).
  intros d Hc. clear Hj.
  by_cases Hc; unroll Hc leaf_flow.
Qed.

(** Which backup a run restores.  When a backup is given, the run dumps
    nothing and every restore is from that backup; otherwise it dumps at
    most once, and every restore, the one of the rollback, is from the
    path [dump_database] returned for that dump. *)
Theorem rollback_restores_the_staged_backup (w : world) :
  (∀ version db backup do_not_create_branch,
     backup_flow (env w) db backup
       (added w (final (deploy_for_internal_testing h version db backup
                          do_not_create_branch w))))
  ∧ (∀ tag db backup force_export_tag,
       backup_flow (env w) db backup
         (added w (final (deploy_for_customer_testing h tag db backup
                            force_export_tag w)))).
Proof. split; intros; [apply internal_flow | apply customer_flow]. Qed.

End Flow.

(** ** The archive, from [put_archive] to [uncompress_archive] *)

Section Put.
Variable h : host.



End Put.

(** The database of the server, dumped and restored. *)
Lemma dump_then_restore_witness :
  let path := "/home/postgres/demo_20150101_000010.dump" in
  let w1 := final (dump_database (site 0) "demo" start) in
  dump_database (site 0) "demo" start = Done path w1
  ∧ dbs (final (restore_database (site 0) "demo" path w1)) !! "demo"
    = Some "data 1.1".
Proof.
  cbv zeta.
  assert (dump_database (site 0) "demo" start
          = Done "/home/postgres/demo_20150101_000010.dump"
              (final (dump_database (site 0) "demo" start))) as E
    by (vm_compute; reflexivity).
  split; [exact E|].
  destruct (dump_then_restore (site 0) "demo" _ start _ (conj eq_refl eq_refl)
              eq_refl (fun rest => ltac:(vm_compute; discriminate)) E)
    as (st & Hst & _ & H).
  rewrite H; try reflexivity.
  vm_compute in Hst. injection Hst as <-. apply lookup_insert_eq.
Defined.



